(** * Duplicate detection and resolution service of the MDM application

    A shallow embedding of [mdm/services/duplicate_service.py] together with
    the parts of [mdm/models/*.py] and [mdm/config/database.py] it calls, and
    theorems about the similarity scorers, the candidate store and the
    review workflow.

    Conventions of the embedding.
    - A Python [str] is a [string] whose characters are read as the code
      points 0..255 (Latin-1); [None] for a nullable TEXT column is
      [option string].  Texts with other characters, where [str.lower] is
      not a map of single characters (it depends on the context for the
      Greek capital sigma and can change the length), are outside the
      embedding.
    - A Python [int] is a [Z]; indices into sequences are [nat].
    - A Python [float] score is an exact rational ([Q]); the decimal
      literals 0.4, 0.3, 0.2, 0.1 are the rationals 4/10, 3/10, 2/10, 1/10.
      The binary floats of the code differ from these values by rounding
      errors of the order of 1e-16 (the self score of a complete client is
      0.24999999999999997 in the code and 1/4 here); the theorems bound
      scores and compare them with thresholds that such errors do not
      cross, or hold for every score function.
    - The SQLite database is a record of tables (lists of rows); an
      operation that reaches the database may raise, which is driven by a
      schedule of failures carried in the state. *)

From Stdlib Require Import ZArith QArith Qreduction List String Ascii Bool Arith Lia Lqa.
From Stdlib Require Import Sorting.Sorted Sorting.Permutation.
Import ListNotations.

Local Close Scope Q_scope.
Local Open Scope string_scope.
Local Open Scope list_scope.

(* ===================================================================== *)
(** ** Python string methods used by the service *)
(* ===================================================================== *)

Module PyStr.

Definition code (c : ascii) : nat := nat_of_ascii c.

Definition between (lo hi n : nat) : bool := (lo <=? n)%nat && (n <=? hi)%nat.

(** [str.lower] on one character: A-Z and the Latin-1 capitals
    (U+00C0..U+00DE except the multiplication sign U+00D7). *)
Definition lower_char (c : ascii) : ascii :=
  let n := code c in
  if between 65 90 n then ascii_of_nat (n + 32)
  else if between 192 222 n && negb (n =? 215)%nat then ascii_of_nat (n + 32)
  else c.

(** [s.lower()] for a text of code points 0..255: character by
    character. *)
Fixpoint lower (s : string) : string :=
  match s with
  | EmptyString => EmptyString
  | String c s' => String (lower_char c) (lower s')
  end.

(** [str.isspace] on one character. *)
Definition isspace (c : ascii) : bool :=
  let n := code c in
  between 9 13 n || between 28 32 n || (n =? 133)%nat || (n =? 160)%nat.

(** [str.isdigit] on one character: 0-9 and the superscripts 1, 2, 3. *)
Definition isdigit (c : ascii) : bool :=
  let n := code c in
  between 48 57 n || (n =? 178)%nat || (n =? 179)%nat || (n =? 185)%nat.

(** [str.isalnum] on one character. *)
Definition isalnum (c : ascii) : bool :=
  let n := code c in
  isdigit c
  || between 65 90 n || between 97 122 n
  || (n =? 170)%nat || (n =? 181)%nat || (n =? 186)%nat
  || between 188 190 n
  || between 192 214 n || between 216 246 n || between 248 255 n.

Fixpoint lstrip (s : string) : string :=
  match s with
  | EmptyString => EmptyString
  | String c s' => if isspace c then lstrip s' else s
  end.

(** Characters of [s] up to and including its last non-space one. *)
Fixpoint rstrip (s : string) : string :=
  match s with
  | EmptyString => EmptyString
  | String c s' =>
      match rstrip s' with
      | EmptyString => if isspace c then EmptyString else String c EmptyString
      | r => String c r
      end
  end.

(** [s.strip()] *)
Definition strip (s : string) : string := rstrip (lstrip s).

(** [''.join(filter(p, s))] *)
Fixpoint filter_join (p : ascii -> bool) (s : string) : string :=
  match s with
  | EmptyString => EmptyString
  | String c s' => if p c then String c (filter_join p s') else filter_join p s'
  end.

(** Truth value of a [str]: false exactly for the empty string. *)
Definition truthy (s : string) : bool :=
  match s with EmptyString => false | String _ _ => true end.

(** Truth value of an [Optional[str]]: [None] and [''] are false. *)
Definition truthy_opt (o : option string) : bool :=
  match o with None => false | Some s => truthy s end.

End PyStr.

(* ===================================================================== *)
(** ** [difflib.SequenceMatcher(None, a, b).ratio()]

    The service delegates text similarity to Python's standard library.
    The definitions follow [Lib/difflib.py] for [isjunk = None] and the
    default [autojunk = True]: with no junk predicate the set [bjunk] is
    empty, so the two loops of [find_longest_match] that absorb junk
    never run and are left out. *)
(* ===================================================================== *)

Module Difflib.

Definition seq := list ascii.

Definition aeqb (x y : ascii) : bool := Ascii.eqb x y.

(** Positions of [c] in [b], ascending, counted from [from]. *)
Fixpoint indices_from (from : nat) (c : ascii) (b : seq) : list nat :=
  match b with
  | [] => []
  | x :: b' =>
      if aeqb x c then from :: indices_from (S from) c b'
      else indices_from (S from) c b'
  end.

(** [__chain_b]: an element occurring more than [n // 100 + 1] times in a
    [b] of 200 elements or more is "popular" and dropped from [b2j]. *)
Definition popular (b : seq) (c : ascii) : bool :=
  let n := List.length b in
  (200 <=? n)%nat && (n / 100 + 1 <? List.length (indices_from 0 c b))%nat.

(** [b2j.get(c, [])] *)
Definition b2j (b : seq) (c : ascii) : list nat :=
  if popular b c then [] else indices_from 0 c b.

(** The dictionary [j2len], as an association list. *)
Definition j2len_t := list (nat * nat).

Fixpoint j2len_get (d : j2len_t) (j : nat) : nat :=
  match d with
  | [] => 0
  | (j', k) :: d' => if (j' =? j)%nat then k else j2len_get d' j
  end.

(** [j2len.get(j-1, 0)]: for [j = 0] the key is [-1], never present. *)
Definition j2len_prev (d : j2len_t) (j : nat) : nat :=
  match j with
  | O => 0
  | S p => j2len_get d p
  end.

Record best := mkBest { besti : nat; bestj : nat; bestsize : nat }.

(** The inner loop [for j in b2j.get(a[i], nothing)]. *)
Fixpoint inner_loop (blo bhi i : nat) (j2len : j2len_t) (js : list nat)
         (newj2len : j2len_t) (bst : best) : j2len_t * best :=
  match js with
  | [] => (newj2len, bst)
  | j :: js' =>
      if (j <? blo)%nat then inner_loop blo bhi i j2len js' newj2len bst   (* continue *)
      else if (bhi <=? j)%nat then (newj2len, bst)                          (* break *)
      else
        let k := j2len_prev j2len j + 1 in
        let newj2len' := (j, k) :: newj2len in
        let bst' := if (bestsize bst <? k)%nat
                    then mkBest (i + 1 - k) (j + 1 - k) k
                    else bst in
        inner_loop blo bhi i j2len js' newj2len' bst'
  end.

(** The outer loop [for i in range(alo, ahi)], over the elements
    [a[alo:ahi]] given as [arest] with [i] the index of its head. *)
Fixpoint outer_loop (b : seq) (blo bhi : nat) (i : nat) (arest : seq)
         (j2len : j2len_t) (bst : best) : best :=
  match arest with
  | [] => bst
  | ai :: arest' =>
      let '(newj2len, bst') := inner_loop blo bhi i j2len (b2j b ai) [] bst in
      outer_loop b blo bhi (S i) arest' newj2len bst'
  end.

Definition nth_elt (s : seq) (i : nat) : option ascii := nth_error s i.

Definition same_elt (a b : seq) (i j : nat) : bool :=
  match nth_elt a i, nth_elt b j with
  | Some x, Some y => aeqb x y
  | _, _ => false
  end.

(** [while besti > alo and bestj > blo and a[besti-1] == b[bestj-1]] *)
Fixpoint extend_left (a b : seq) (alo blo : nat) (bi bj bsz : nat) : best :=
  match bi, bj with
  | S bi', S bj' =>
      if (alo <? bi)%nat && (blo <? bj)%nat && same_elt a b bi' bj'
      then extend_left a b alo blo bi' bj' (bsz + 1)
      else mkBest bi bj bsz
  | _, _ => mkBest bi bj bsz
  end.

(** [while besti+bestsize < ahi and bestj+bestsize < bhi and
    a[besti+bestsize] == b[bestj+bestsize]]; [room] bounds the number of
    iterations by the elements left in [a]. *)
Fixpoint extend_right (a b : seq) (ahi bhi : nat) (room : nat) (bi bj bsz : nat) : best :=
  match room with
  | O => mkBest bi bj bsz
  | S room' =>
      if (bi + bsz <? ahi)%nat && (bj + bsz <? bhi)%nat && same_elt a b (bi + bsz) (bj + bsz)
      then extend_right a b ahi bhi room' bi bj (bsz + 1)
      else mkBest bi bj bsz
  end.

(** [find_longest_match(alo, ahi, blo, bhi)] *)
Definition find_longest_match (a b : seq) (alo ahi blo bhi : nat) : best :=
  let bst0 := mkBest alo blo 0 in
  let bst1 := outer_loop b blo bhi alo (firstn (ahi - alo) (skipn alo a)) [] bst0 in
  let bst2 := extend_left a b alo blo (besti bst1) (bestj bst1) (bestsize bst1) in
  extend_right a b ahi bhi (ahi - (besti bst2 + bestsize bst2))
               (besti bst2) (bestj bst2) (bestsize bst2).

(** [get_matching_blocks]: the work list of ranges still to be matched,
    as a recursion on the two ranges a block leaves to its left and to
    its right.  Every such range is strictly shorter on the [a] side
    than the one it comes from, so [fuel] above the length of the [a]
    range is never exhausted (lemma [matching_blocks_fuel]).  Sorting the
    blocks, merging adjacent ones and appending the empty block
    [(la, lb, 0)] do not change the sum of the sizes, the only thing
    [ratio] reads, and are left out. *)
Fixpoint matching_blocks (fuel : nat) (a b : seq) (alo ahi blo bhi : nat) : list best :=
  match fuel with
  | O => []
  | S fuel' =>
      let x := find_longest_match a b alo ahi blo bhi in
      let i := besti x in
      let j := bestj x in
      let k := bestsize x in
      if (k =? 0)%nat then []
      else
        (if (alo <? i)%nat && (blo <? j)%nat
         then matching_blocks fuel' a b alo i blo j else [])
        ++ x ::
        (if (i + k <? ahi)%nat && (j + k <? bhi)%nat
         then matching_blocks fuel' a b (i + k) ahi (j + k) bhi else [])
  end.

Definition get_matching_blocks (a b : seq) : list best :=
  matching_blocks (S (List.length a)) a b 0 (List.length a) 0 (List.length b).

(** [sum(triple[-1] for triple in self.get_matching_blocks())] *)
Definition matches (a b : seq) : nat :=
  fold_left (fun acc x => acc + bestsize x) (get_matching_blocks a b) 0.

(** [_calculate_ratio(matches, length)] *)
Definition calculate_ratio (m len : nat) : Q :=
  if (len =? 0)%nat then 1%Q
  else ((2 * inject_Z (Z.of_nat m)) / inject_Z (Z.of_nat len))%Q.

Definition ratio (a b : string) : Q :=
  let a' := list_ascii_of_string a in
  let b' := list_ascii_of_string b in
  calculate_ratio (matches a' b') (List.length a' + List.length b').

End Difflib.

(* ===================================================================== *)
(** ** Rows of the tables ([config/database.py]) and the objects built
       from them ([models/*.py]) *)
(* ===================================================================== *)

(** Row of [clients] / a [Client] object read from it. *)
Record client := mkClient {
  client_id : Z;
  client_name : string;
  client_document_type : string;
  client_document_number : string;
  client_email : option string;
  client_phone : option string;
  client_address : option string;
  client_city : option string;
  client_state : option string;
  client_zip_code : option string;
  client_category : option string;
  client_status : string;
  client_created_at : option Z;
  client_updated_at : option Z;
  client_created_by : option string;
  client_updated_by : option string
}.

(** Row of [products] / a [Product] object read from it. *)
Record product := mkProduct {
  product_id : Z;
  product_code : string;
  product_name : string;
  product_description : option string;
  product_category : option string;
  product_unit_price : option Q;
  product_unit_of_measure : option string;
  product_supplier_id : option Z;
  product_status : string;
  product_created_at : option Z;
  product_updated_at : option Z;
  product_created_by : option string;
  product_updated_by : option string
}.

(** Row of [suppliers] / a [Supplier] object read from it. *)
Record supplier := mkSupplier {
  supplier_id : Z;
  supplier_name : string;
  supplier_document_type : string;
  supplier_document_number : string;
  supplier_email : option string;
  supplier_phone : option string;
  supplier_address : option string;
  supplier_city : option string;
  supplier_state : option string;
  supplier_zip_code : option string;
  supplier_category : option string;
  supplier_contact_person : option string;
  supplier_status : string;
  supplier_created_at : option Z;
  supplier_updated_at : option Z;
  supplier_created_by : option string;
  supplier_updated_by : option string
}.

(** Row of [audit_trail]; the JSON texts [old_values] and [new_values]
    are not represented. *)
Record audit_entry := mkAudit {
  audit_id : Z;
  audit_table_name : string;
  audit_record_id : Z;
  audit_action : string;
  audit_changed_by : string;
  audit_changed_at : Z
}.

(** Row of [potential_duplicates] / a [PotentialDuplicate] object; [pd_id]
    is [None] for an object that has not been saved. *)
Record potential_duplicate := mkPD {
  pd_id : option Z;
  pd_table_name : string;
  pd_record_id_1 : Z;
  pd_record_id_2 : Z;
  pd_similarity_score : Q;
  pd_status : string;
  pd_reviewed_by : option string;
  pd_reviewed_at : option Z;
  pd_created_at : option Z
}.

Definition set_pd_id (v : option Z) (d : potential_duplicate) : potential_duplicate :=
  mkPD v (pd_table_name d) (pd_record_id_1 d) (pd_record_id_2 d)
       (pd_similarity_score d) (pd_status d) (pd_reviewed_by d)
       (pd_reviewed_at d) (pd_created_at d).

Definition set_pd_status (v : string) (d : potential_duplicate) : potential_duplicate :=
  mkPD (pd_id d) (pd_table_name d) (pd_record_id_1 d) (pd_record_id_2 d)
       (pd_similarity_score d) v (pd_reviewed_by d)
       (pd_reviewed_at d) (pd_created_at d).

Definition set_pd_reviewed_by (v : option string) (d : potential_duplicate) : potential_duplicate :=
  mkPD (pd_id d) (pd_table_name d) (pd_record_id_1 d) (pd_record_id_2 d)
       (pd_similarity_score d) (pd_status d) v
       (pd_reviewed_at d) (pd_created_at d).

Definition set_pd_reviewed_at (v : option Z) (d : potential_duplicate) : potential_duplicate :=
  mkPD (pd_id d) (pd_table_name d) (pd_record_id_1 d) (pd_record_id_2 d)
       (pd_similarity_score d) (pd_status d) (pd_reviewed_by d)
       v (pd_created_at d).

(** The tables, with the AUTOINCREMENT counters of the two tables the
    service inserts into. *)
Record db := mkDb {
  clients : list client;
  products : list product;
  suppliers : list supplier;
  potential_duplicates : list potential_duplicate;
  audit_trail : list audit_entry;
  seq_potential_duplicates : Z;
  seq_audit_trail : Z
}.

(** The database, the value of CURRENT_TIMESTAMP, and the schedule of
    storage failures: every statement sent to the database takes the head
    of [faults] and raises when it is [true]; an empty schedule never
    fails. *)
Record world := mkWorld {
  database : db;
  now : Z;
  faults : list bool
}.

Definition set_database (d : db) (w : world) : world := mkWorld d (now w) (faults w).
Definition set_faults (fs : list bool) (w : world) : world := mkWorld (database w) (now w) fs.

Definition set_clients (l : list client) (d : db) : db :=
  mkDb l (products d) (suppliers d) (potential_duplicates d) (audit_trail d)
       (seq_potential_duplicates d) (seq_audit_trail d).
Definition set_products (l : list product) (d : db) : db :=
  mkDb (clients d) l (suppliers d) (potential_duplicates d) (audit_trail d)
       (seq_potential_duplicates d) (seq_audit_trail d).
Definition set_suppliers (l : list supplier) (d : db) : db :=
  mkDb (clients d) (products d) l (potential_duplicates d) (audit_trail d)
       (seq_potential_duplicates d) (seq_audit_trail d).
Definition set_potential_duplicates (l : list potential_duplicate) (s : Z) (d : db) : db :=
  mkDb (clients d) (products d) (suppliers d) l (audit_trail d) s (seq_audit_trail d).
Definition set_audit_trail (l : list audit_entry) (s : Z) (d : db) : db :=
  mkDb (clients d) (products d) (suppliers d) (potential_duplicates d) l
       (seq_potential_duplicates d) s.

(* ===================================================================== *)
(** ** Computations that read and write a state and may raise *)
(* ===================================================================== *)

(** The exceptions of the model: what [sqlite3] raises on a failed
    statement. *)
Inductive exn := DatabaseError.

Inductive result (A : Type) :=
| Ok (a : A)
| Raise (e : exn).
Arguments Ok {A} a.
Arguments Raise {A} e.

Definition M (S A : Type) : Type := S -> result A * S.

Definition ret {S A} (a : A) : M S A := fun s => (Ok a, s).

Definition bind {S A B} (m : M S A) (k : A -> M S B) : M S B :=
  fun s => match m s with
           | (Ok a, s') => k a s'
           | (Raise e, s') => (Raise e, s')
           end.

Definition raise {S A} (e : exn) : M S A := fun s => (Raise e, s).

(** [try: body except Exception as e: handler(e)] *)
Definition try_except {S A} (body : M S A) (handler : exn -> M S A) : M S A :=
  fun s => match body s with
           | (Ok a, s') => (Ok a, s')
           | (Raise e, s') => handler e s'
           end.

Declare Scope monad_scope.
Delimit Scope monad_scope with monad.
Notation "x <- c1 ;; c2" := (bind c1 (fun x => c2))
  (at level 61, c1 at next level, right associativity) : monad_scope.
Notation "' pat <- c1 ;; c2" := (bind c1 (fun x => match x with pat => c2 end))
  (at level 61, pat pattern, c1 at next level, right associativity) : monad_scope.
Notation "c1 ;; c2" := (bind c1 (fun _ => c2))
  (at level 61, right associativity) : monad_scope.
Local Open Scope monad_scope.

(** A method of an object [O]: the state is the world and the object
    ([self], or an argument passed by reference). *)
Definition liftW {O A} (m : M world A) : M (world * O) A :=
  fun '(w, o) => let '(r, w') := m w in (r, (w', o)).

Definition get_obj {O} : M (world * O) O := fun '(w, o) => (Ok o, (w, o)).

Definition modify_obj {O} (f : O -> O) : M (world * O) unit :=
  fun '(w, o) => (Ok tt, (w, f o)).

(** Calling a method on the object [o]; the object as the call leaves it
    is returned with the result. *)
Definition with_obj {O A} (o : O) (m : M (world * O) A) : M world (A * O) :=
  fun w => match m (w, o) with
           | (Ok a, (w', o')) => (Ok (a, o'), w')
           | (Raise e, (w', _)) => (Raise e, w')
           end.

(** [cursor.execute(...)]: the statement reaches the database or raises. *)
Definition execute : M world unit :=
  fun w => match faults w with
           | [] => (Ok tt, w)
           | false :: fs => (Ok tt, set_faults fs w)
           | true :: fs => (Raise DatabaseError, set_faults fs w)
           end.

Definition query {A} (f : db -> A) : M world A := fun w => (Ok (f (database w)), w).

Definition update (f : db -> db) : M world unit :=
  fun w => (Ok tt, set_database (f (database w)) w).

Definition current_timestamp : M world Z := fun w => (Ok (now w), w).

(** The write lock of the database file as a statement finds it.  SQLite
    admits one writer: from the first INSERT or UPDATE of a connection until
    this connection commits or rolls back, the file is locked for the
    writes of every other connection.  The program is sequential and every
    call opens a connection of its own ([sqlite3.connect] in
    [get_connection]), so the lock is [Held] exactly for a connection that
    is opened inside the [with] block of another one after that one has
    written. *)
Inductive write_lock := Free | Held.

(** [cursor.execute(...)] of an INSERT or UPDATE on a connection that finds
    the lock in this state.  With the lock free the statement is issued as
    any other.  With the lock held, [sqlite3] waits for the busy timeout of
    the connection and raises [OperationalError: database is locked];
    nothing reaches the database. *)
Definition execute_write (lock : write_lock) : M world unit :=
  match lock with
  | Free => execute
  | Held => raise DatabaseError
  end.

(** [with db_manager.get_connection() as conn: body]: the connection
    commits when [body] returns and rolls back when it raises. *)
Definition with_connection {A} (body : M world A) : M world A :=
  fun w => match body w with
           | (Ok a, w') => (Ok a, w')
           | (Raise e, w') => (Raise e, set_database (database w) w')
           end.

(* ===================================================================== *)
(** ** The entity models: [Client], [Product], [Supplier]

    The three classes have the same [get_all], [get_by_id], [delete] and
    [_log_audit_trail_static], each on its own table; they are written
    once over the interface [Entity] and instantiated three times. *)
(* ===================================================================== *)

Class Entity (T : Type) := {
  ent_table_name : string;
  ent_id : T -> Z;
  ent_name : T -> string;
  ent_status : T -> string;
  (** [SET status='deleted', updated_by=?, updated_at=CURRENT_TIMESTAMP] *)
  ent_mark_deleted : string -> Z -> T -> T;
  ent_rows : db -> list T;
  ent_set_rows : list T -> db -> db
}.

#[export] Instance client_entity : Entity client := {
  ent_table_name := "clients";
  ent_id := client_id;
  ent_name := client_name;
  ent_status := client_status;
  ent_mark_deleted := fun user ts c =>
    mkClient (client_id c) (client_name c) (client_document_type c)
             (client_document_number c) (client_email c) (client_phone c)
             (client_address c) (client_city c) (client_state c)
             (client_zip_code c) (client_category c) "deleted"
             (client_created_at c) (Some ts) (client_created_by c) (Some user);
  ent_rows := clients;
  ent_set_rows := set_clients
}.

#[export] Instance product_entity : Entity product := {
  ent_table_name := "products";
  ent_id := product_id;
  ent_name := product_name;
  ent_status := product_status;
  ent_mark_deleted := fun user ts p =>
    mkProduct (product_id p) (product_code p) (product_name p)
              (product_description p) (product_category p) (product_unit_price p)
              (product_unit_of_measure p) (product_supplier_id p) "deleted"
              (product_created_at p) (Some ts) (product_created_by p) (Some user);
  ent_rows := products;
  ent_set_rows := set_products
}.

#[export] Instance supplier_entity : Entity supplier := {
  ent_table_name := "suppliers";
  ent_id := supplier_id;
  ent_name := supplier_name;
  ent_status := supplier_status;
  ent_mark_deleted := fun user ts s =>
    mkSupplier (supplier_id s) (supplier_name s) (supplier_document_type s)
               (supplier_document_number s) (supplier_email s) (supplier_phone s)
               (supplier_address s) (supplier_city s) (supplier_state s)
               (supplier_zip_code s) (supplier_category s) (supplier_contact_person s)
               "deleted"
               (supplier_created_at s) (Some ts) (supplier_created_by s) (Some user);
  ent_rows := suppliers;
  ent_set_rows := set_suppliers
}.

Module Repository.
Section Ops.
Context {T : Type} `{Entity T}.

(** [ORDER BY name]: a stable insertion sort on the name column. *)
Fixpoint insert_by_name (x : T) (l : list T) : list T :=
  match l with
  | [] => [x]
  | y :: l' =>
      if String.leb (ent_name x) (ent_name y) then x :: l
      else y :: insert_by_name x l'
  end.

Definition order_by_name (l : list T) : list T :=
  fold_right insert_by_name [] l.

(** [get_all(status)]: [SELECT * FROM t WHERE status = ? ORDER BY name]
    when [status] is given and non-empty, [SELECT * FROM t ORDER BY name]
    otherwise. *)
Definition get_all (status : option string) : M world (list T) :=
  with_connection (
    execute ;;
    query (fun d =>
      if PyStr.truthy_opt status
      then order_by_name
             (filter (fun r => String.eqb (ent_status r)
                                          (match status with Some s => s | None => "" end))
                     (ent_rows d))
      else order_by_name (ent_rows d))).

(** [get_by_id(id)]: [SELECT * FROM t WHERE id = ?], [fetchone()]. *)
Definition get_by_id (record_id : Z) : M world (option T) :=
  with_connection (
    execute ;;
    query (fun d => find (fun r => Z.eqb (ent_id r) record_id) (ent_rows d))).

(** [_log_audit_trail_static(action, old_values, new_values, user,
    record_id)]: the INSERT goes through a connection of its own; [lock]
    is the state of the write lock at the call. *)
Definition _log_audit_trail_static (lock : write_lock) (action user : string)
           (record_id : Z) : M world unit :=
  with_connection (
    execute_write lock ;;
    ts <- current_timestamp ;;
    update (fun d =>
      let new_id := (seq_audit_trail d + 1)%Z in
      set_audit_trail
        (audit_trail d ++ [mkAudit new_id ent_table_name record_id action user ts])
        new_id d)).

(** [delete(id, user)]: soft delete by changing the status.  The audit
    entry is logged inside the [with] block, after the UPDATE and before
    [conn.commit()]: the connection of [_log_audit_trail_static] finds the
    write lock held by the connection of [delete]. *)
Definition delete (record_id : Z) (user : string) : M world bool :=
  r <- get_by_id record_id ;;
  match r with
  | Some _ =>
      with_connection (
        execute ;;
        ts <- current_timestamp ;;
        update (fun d =>
          ent_set_rows
            (map (fun row => if Z.eqb (ent_id row) record_id
                             then ent_mark_deleted user ts row else row)
                 (ent_rows d)) d) ;;
        _log_audit_trail_static Held "DELETE" user record_id ;;
        ret true)
  | None => ret false
  end.

End Ops.
End Repository.

Module Client.
Definition get_all : option string -> M world (list client) := Repository.get_all.
Definition get_by_id : Z -> M world (option client) := Repository.get_by_id.
Definition delete : Z -> string -> M world bool := Repository.delete (T := client).
End Client.

Module Product.
Definition get_all : option string -> M world (list product) := Repository.get_all.
Definition get_by_id : Z -> M world (option product) := Repository.get_by_id.
Definition delete : Z -> string -> M world bool := Repository.delete (T := product).
End Product.

Module Supplier.
Definition get_all : option string -> M world (list supplier) := Repository.get_all.
Definition get_by_id : Z -> M world (option supplier) := Repository.get_by_id.
Definition delete : Z -> string -> M world bool := Repository.delete (T := supplier).
End Supplier.

(* ===================================================================== *)
(** ** [PotentialDuplicate] ([models/audit.py]) *)
(* ===================================================================== *)

Module PotentialDuplicate.

(** [INSERT INTO potential_duplicates (table_name, record_id_1,
    record_id_2, similarity_score, status) VALUES (?, ?, ?, ?, ?)]: the
    id comes from AUTOINCREMENT, [created_at] from its default, the
    reviewer columns stay NULL.  The schema declares no UNIQUE
    constraint on this table.  Returns [cursor.lastrowid]. *)
Definition insert_row (self : potential_duplicate) : M world Z :=
  execute ;;
  ts <- current_timestamp ;;
  new_id <- query (fun d => (seq_potential_duplicates d + 1)%Z) ;;
  update (fun d =>
    set_potential_duplicates
      (potential_duplicates d ++
         [mkPD (Some new_id) (pd_table_name self) (pd_record_id_1 self)
               (pd_record_id_2 self) (pd_similarity_score self) (pd_status self)
               None None (Some ts)])
      new_id d) ;;
  ret new_id.

(** [UPDATE potential_duplicates SET status=?, reviewed_by=?,
    reviewed_at=CURRENT_TIMESTAMP WHERE id=?] *)
Definition update_row (self : potential_duplicate) (id : Z) : M world unit :=
  execute ;;
  ts <- current_timestamp ;;
  update (fun d =>
    set_potential_duplicates
      (map (fun row =>
              match pd_id row with
              | Some i =>
                  if Z.eqb i id
                  then set_pd_reviewed_at (Some ts)
                         (set_pd_reviewed_by (pd_reviewed_by self)
                            (set_pd_status (pd_status self) row))
                  else row
              | None => row
              end)
           (potential_duplicates d))
      (seq_potential_duplicates d) d).

(** [self.save()] *)
Definition save : M (world * potential_duplicate) Z :=
  self <- get_obj ;;
  match pd_id self with
  | None =>
      new_id <- liftW (with_connection (insert_row self)) ;;
      modify_obj (set_pd_id (Some new_id)) ;;
      ret new_id
  | Some id =>
      liftW (with_connection (update_row self id)) ;;
      ret id
  end.

(** [get_pending(table_name)]: pending rows, highest score first. *)
Fixpoint insert_by_score (x : potential_duplicate) (l : list potential_duplicate)
  : list potential_duplicate :=
  match l with
  | [] => [x]
  | y :: l' =>
      if Qle_bool (pd_similarity_score y) (pd_similarity_score x) then x :: l
      else y :: insert_by_score x l'
  end.

Definition get_pending (table_name : option string) : M world (list potential_duplicate) :=
  with_connection (
    execute ;;
    query (fun d =>
      fold_right insert_by_score []
        (filter (fun row =>
                   String.eqb (pd_status row) "pending" &&
                   (if PyStr.truthy_opt table_name
                    then String.eqb (pd_table_name row)
                           (match table_name with Some s => s | None => "" end)
                    else true))
                (potential_duplicates d)))).

End PotentialDuplicate.

(* ===================================================================== *)
(** ** Counts ([get_count] of the models) *)
(* ===================================================================== *)

(** [get_count(status)] of the three entity models: [SELECT COUNT( * ) FROM
    t WHERE status = ?] when [status] is given and non-empty, [SELECT
    COUNT( * ) FROM t] otherwise. *)
Definition Repository_get_count {T : Type} `{Entity T} (status : option string)
  : M world nat :=
  with_connection (
    execute ;;
    query (fun d =>
      if PyStr.truthy_opt status
      then List.length
             (filter (fun r => String.eqb (ent_status r)
                                          (match status with Some s => s | None => "" end))
                     (ent_rows d))
      else List.length (ent_rows d))).

Definition Client_get_count : option string -> M world nat :=
  Repository_get_count (T := client).

Definition Product_get_count : option string -> M world nat :=
  Repository_get_count (T := product).

Definition Supplier_get_count : option string -> M world nat :=
  Repository_get_count (T := supplier).

(** [PotentialDuplicate.get_count(status)] *)
Definition PotentialDuplicate_get_count (status : option string) : M world nat :=
  with_connection (
    execute ;;
    query (fun d =>
      if PyStr.truthy_opt status
      then List.length
             (filter (fun row => String.eqb (pd_status row)
                                            (match status with Some s => s | None => "" end))
                     (potential_duplicates d))
      else List.length (potential_duplicates d))).

(* ===================================================================== *)
(** ** [DuplicateDetectionService] ([services/duplicate_service.py]) *)
(* ===================================================================== *)

(** The records [get_duplicate_details] returns ([Tuple[Any, Any]]). *)
Inductive any_record :=
| AClient (c : client)
| AProduct (p : product)
| ASupplier (s : supplier).

Module DuplicateDetectionService.

(** [calculate_similarity(text1, text2)] *)
Definition calculate_similarity (text1 text2 : string) : Q :=
  if negb (PyStr.truthy text1) || negb (PyStr.truthy text2) then 0%Q
  else
    let text1 := PyStr.strip (PyStr.lower text1) in
    let text2 := PyStr.strip (PyStr.lower text2) in
    Difflib.ratio text1 text2.

(** [normalize_document(document)] *)
Definition normalize_document (document : string) : string :=
  if negb (PyStr.truthy document) then ""
  else PyStr.filter_join PyStr.isalnum (PyStr.lower document).

(** The value of a nullable text attribute once its truth value has been
    tested: [None] and [''] are both false, so reading [None] as ['']
    changes nothing. *)
Definition text (o : option string) : string :=
  match o with Some s => s | None => "" end.

(** [sum(scores) / len(scores) if scores else 0.0] *)
Definition mean_of (scores : list Q) : Q :=
  match scores with
  | [] => 0%Q
  | _ => (fold_left Qplus scores 0%Q / inject_Z (Z.of_nat (List.length scores)))%Q
  end.

(** [_calculate_client_similarity(client1, client2)] *)
Definition _calculate_client_similarity (client1 client2 : client) : Q :=
  let scores : list Q := [] in
  (* Name similarity (high weight) *)
  let name_score := calculate_similarity (client_name client1) (client_name client2) in
  let scores := scores ++ [(name_score * (4 # 10))%Q] in
  (* Document number similarity (high weight) *)
  let doc1 := normalize_document (client_document_number client1) in
  let doc2 := normalize_document (client_document_number client2) in
  let scores :=
    if PyStr.truthy doc1 && PyStr.truthy doc2 then
      let doc_score := if String.eqb doc1 doc2 then 1%Q else 0%Q in
      scores ++ [(doc_score * (3 # 10))%Q]
    else scores in
  (* Email similarity (medium weight) *)
  let scores :=
    if PyStr.truthy_opt (client_email client1) && PyStr.truthy_opt (client_email client2) then
      let email_score :=
        calculate_similarity (text (client_email client1)) (text (client_email client2)) in
      scores ++ [(email_score * (2 # 10))%Q]
    else scores in
  (* Phone similarity (low weight) *)
  let scores :=
    if PyStr.truthy_opt (client_phone client1) && PyStr.truthy_opt (client_phone client2) then
      let phone1 := PyStr.filter_join PyStr.isdigit (text (client_phone client1)) in
      let phone2 := PyStr.filter_join PyStr.isdigit (text (client_phone client2)) in
      let phone_score := calculate_similarity phone1 phone2 in
      scores ++ [(phone_score * (1 # 10))%Q]
    else scores in
  mean_of scores.

(** [_calculate_product_similarity(product1, product2)] *)
Definition _calculate_product_similarity (product1 product2 : product) : Q :=
  let scores : list Q := [] in
  (* Code similarity (high weight) *)
  let scores :=
    if PyStr.truthy (product_code product1) && PyStr.truthy (product_code product2) then
      let code_score :=
        if String.eqb (PyStr.lower (product_code product1))
                      (PyStr.lower (product_code product2))
        then 1%Q else 0%Q in
      scores ++ [(code_score * (4 # 10))%Q]
    else scores in
  (* Name similarity (high weight) *)
  let name_score := calculate_similarity (product_name product1) (product_name product2) in
  let scores := scores ++ [(name_score * (4 # 10))%Q] in
  (* Description similarity (medium weight) *)
  let scores :=
    if PyStr.truthy_opt (product_description product1)
       && PyStr.truthy_opt (product_description product2) then
      let desc_score :=
        calculate_similarity (text (product_description product1))
                             (text (product_description product2)) in
      scores ++ [(desc_score * (2 # 10))%Q]
    else scores in
  mean_of scores.

(** [_calculate_supplier_similarity(supplier1, supplier2)] *)
Definition _calculate_supplier_similarity (supplier1 supplier2 : supplier) : Q :=
  let scores : list Q := [] in
  (* Name similarity (high weight) *)
  let name_score := calculate_similarity (supplier_name supplier1) (supplier_name supplier2) in
  let scores := scores ++ [(name_score * (4 # 10))%Q] in
  (* Document number similarity (high weight) *)
  let doc1 := normalize_document (supplier_document_number supplier1) in
  let doc2 := normalize_document (supplier_document_number supplier2) in
  let scores :=
    if PyStr.truthy doc1 && PyStr.truthy doc2 then
      let doc_score := if String.eqb doc1 doc2 then 1%Q else 0%Q in
      scores ++ [(doc_score * (3 # 10))%Q]
    else scores in
  (* Email similarity (medium weight) *)
  let scores :=
    if PyStr.truthy_opt (supplier_email supplier1)
       && PyStr.truthy_opt (supplier_email supplier2) then
      let email_score :=
        calculate_similarity (text (supplier_email supplier1))
                             (text (supplier_email supplier2)) in
      scores ++ [(email_score * (2 # 10))%Q]
    else scores in
  (* Contact person similarity (low weight) *)
  let scores :=
    if PyStr.truthy_opt (supplier_contact_person supplier1)
       && PyStr.truthy_opt (supplier_contact_person supplier2) then
      let contact_score :=
        calculate_similarity (text (supplier_contact_person supplier1))
                             (text (supplier_contact_person supplier2)) in
      scores ++ [(contact_score * (1 # 10))%Q]
    else scores in
  mean_of scores.

(** The WHERE clause of [_duplicate_exists]. *)
Definition same_pair (table_name : string) (record_id_1 record_id_2 : Z)
           (row : potential_duplicate) : bool :=
  String.eqb (pd_table_name row) table_name &&
  ((Z.eqb (pd_record_id_1 row) record_id_1 && Z.eqb (pd_record_id_2 row) record_id_2)
   || (Z.eqb (pd_record_id_1 row) record_id_2 && Z.eqb (pd_record_id_2 row) record_id_1)).

(** [_duplicate_exists(table_name, record_id_1, record_id_2)]:
    [SELECT COUNT( * ) ...] and [fetchone()[0] > 0]. *)
Definition _duplicate_exists (table_name : string) (record_id_1 record_id_2 : Z)
  : M world bool :=
  with_connection (
    execute ;;
    n <- query (fun d =>
           List.length (filter (same_pair table_name record_id_1 record_id_2)
                               (potential_duplicates d))) ;;
    ret (0 <? n)%nat).

(** The three [detect_*_duplicates] functions are one text on three
    tables; it is written once over [Entity]. *)
Section Detect.
Context {T : Type} `{Entity T}.
Variable similarity : T -> T -> Q.
Variable threshold : Q.

(** Body of the inner loop, for one pair. *)
Definition detect_pair (record1 record2 : T) (duplicates : list potential_duplicate)
  : M world (list potential_duplicate) :=
  let similarity_score := similarity record1 record2 in
  if Qle_bool threshold similarity_score then
    let duplicate :=
      mkPD None ent_table_name (ent_id record1) (ent_id record2)
           similarity_score "pending" None None None in
    (* Check if this duplicate pair already exists *)
    found <- _duplicate_exists ent_table_name (ent_id record1) (ent_id record2) ;;
    if negb found then
      '(_, duplicate) <- with_obj duplicate PotentialDuplicate.save ;;
      ret (duplicates ++ [duplicate])
    else ret duplicates
  else ret duplicates.

(** [for record2 in records[i+1:]] *)
Fixpoint detect_inner (record1 : T) (rest : list T)
         (duplicates : list potential_duplicate)
  : M world (list potential_duplicate) :=
  match rest with
  | [] => ret duplicates
  | record2 :: rest' =>
      duplicates <- detect_pair record1 record2 duplicates ;;
      detect_inner record1 rest' duplicates
  end.

(** [for i, record1 in enumerate(records)] *)
Fixpoint detect_outer (records : list T) (duplicates : list potential_duplicate)
  : M world (list potential_duplicate) :=
  match records with
  | [] => ret duplicates
  | record1 :: rest =>
      duplicates <- detect_inner record1 rest duplicates ;;
      detect_outer rest duplicates
  end.

Definition detect_duplicates : M world (list potential_duplicate) :=
  records <- Repository.get_all (Some "active") ;;
  detect_outer records [].
End Detect.

(** [detect_client_duplicates(threshold)] *)
Definition detect_client_duplicates (threshold : Q) : M world (list potential_duplicate) :=
  detect_duplicates _calculate_client_similarity threshold.

(** [detect_product_duplicates(threshold)] *)
Definition detect_product_duplicates (threshold : Q) : M world (list potential_duplicate) :=
  detect_duplicates _calculate_product_similarity threshold.

(** [detect_supplier_duplicates(threshold)] *)
Definition detect_supplier_duplicates (threshold : Q) : M world (list potential_duplicate) :=
  detect_duplicates _calculate_supplier_similarity threshold.

Definition default_threshold : Q := (8 # 10)%Q.

Definition opt_map {A B} (f : A -> B) (o : option A) : option B :=
  match o with Some a => Some (f a) | None => None end.

(** [get_duplicate_details(duplicate)] *)
Definition get_duplicate_details (duplicate : potential_duplicate)
  : M world (option any_record * option any_record) :=
  if String.eqb (pd_table_name duplicate) "clients" then
    record1 <- Client.get_by_id (pd_record_id_1 duplicate) ;;
    record2 <- Client.get_by_id (pd_record_id_2 duplicate) ;;
    ret (opt_map AClient record1, opt_map AClient record2)
  else if String.eqb (pd_table_name duplicate) "products" then
    record1 <- Product.get_by_id (pd_record_id_1 duplicate) ;;
    record2 <- Product.get_by_id (pd_record_id_2 duplicate) ;;
    ret (opt_map AProduct record1, opt_map AProduct record2)
  else if String.eqb (pd_table_name duplicate) "suppliers" then
    record1 <- Supplier.get_by_id (pd_record_id_1 duplicate) ;;
    record2 <- Supplier.get_by_id (pd_record_id_2 duplicate) ;;
    ret (opt_map ASupplier record1, opt_map ASupplier record2)
  else ret (None, None).

(** [delete_id = duplicate.record_id_2 if keep_record_id ==
    duplicate.record_id_1 else duplicate.record_id_1] *)
Definition delete_id (duplicate : potential_duplicate) (keep_record_id : Z) : Z :=
  if Z.eqb keep_record_id (pd_record_id_1 duplicate)
  then pd_record_id_2 duplicate
  else pd_record_id_1 duplicate.

(** The [if / elif / elif] of [merge_records] that deletes the other
    record through the model of the candidate's table. *)
Definition delete_other (duplicate : potential_duplicate) (keep_record_id : Z)
           (user : string) : M world unit :=
  if String.eqb (pd_table_name duplicate) "clients" then
    Client.delete (delete_id duplicate keep_record_id) user ;; ret tt
  else if String.eqb (pd_table_name duplicate) "products" then
    Product.delete (delete_id duplicate keep_record_id) user ;; ret tt
  else if String.eqb (pd_table_name duplicate) "suppliers" then
    Supplier.delete (delete_id duplicate keep_record_id) user ;; ret tt
  else ret tt.

(** [merge_records(duplicate, keep_record_id, user)]; [duplicate] is the
    object of the state. *)
Definition merge_records (keep_record_id : Z) (user : string)
  : M (world * potential_duplicate) bool :=
  try_except
    (duplicate <- get_obj ;;
     liftW (delete_other duplicate keep_record_id user) ;;
     (* Mark duplicate as resolved *)
     modify_obj (set_pd_status "merged") ;;
     modify_obj (set_pd_reviewed_by (Some user)) ;;
     PotentialDuplicate.save ;;
     ret true)
    (fun e => ret false).

(** [mark_as_not_duplicate(duplicate, user)] *)
Definition mark_as_not_duplicate (user : string)
  : M (world * potential_duplicate) bool :=
  try_except
    (modify_obj (set_pd_status "not_duplicate") ;;
     modify_obj (set_pd_reviewed_by (Some user)) ;;
     PotentialDuplicate.save ;;
     ret true)
    (fun e => ret false).

(** The dictionary [results]. *)
Definition dict := list (string * nat).

Fixpoint dict_set (k : string) (v : nat) (d : dict) : dict :=
  match d with
  | [] => [(k, v)]
  | (k', v') :: d' =>
      if String.eqb k' k then (k, v) :: d' else (k', v') :: dict_set k v d'
  end.

(** [run_all_duplicate_detection(threshold)] *)
Definition run_all_duplicate_detection (threshold : Q) : M world dict :=
  let results := [("clients", 0); ("products", 0); ("suppliers", 0)] in
  (* Detect client duplicates *)
  client_duplicates <- detect_client_duplicates threshold ;;
  let results := dict_set "clients" (List.length client_duplicates) results in
  (* Detect product duplicates *)
  product_duplicates <- detect_product_duplicates threshold ;;
  let results := dict_set "products" (List.length product_duplicates) results in
  (* Detect supplier duplicates *)
  supplier_duplicates <- detect_supplier_duplicates threshold ;;
  let results := dict_set "suppliers" (List.length supplier_duplicates) results in
  ret results.

End DuplicateDetectionService.

(* ===================================================================== *)
(** ** Predicates used in the statements *)
(* ===================================================================== *)

Import DuplicateDetectionService.

(** A row of [potential_duplicates] for the pair, in either order. *)
Definition pair_stored (d : db) (table_name : string) (a b : Z) : bool :=
  existsb (same_pair table_name a b) (potential_duplicates d).

(** Some row of the named entity table has this id. *)
Definition resolves (d : db) (table_name : string) (id : Z) : bool :=
  if String.eqb table_name "clients"
  then existsb (fun r => Z.eqb (client_id r) id) (clients d)
  else if String.eqb table_name "products"
  then existsb (fun r => Z.eqb (product_id r) id) (products d)
  else if String.eqb table_name "suppliers"
  then existsb (fun r => Z.eqb (supplier_id r) id) (suppliers d)
  else false.

(** Some row of the named entity table has this id and status [active]. *)
Definition record_active (d : db) (table_name : string) (id : Z) : bool :=
  if String.eqb table_name "clients"
  then existsb (fun r => Z.eqb (client_id r) id && String.eqb (client_status r) "active")
               (clients d)
  else if String.eqb table_name "products"
  then existsb (fun r => Z.eqb (product_id r) id && String.eqb (product_status r) "active")
               (products d)
  else if String.eqb table_name "suppliers"
  then existsb (fun r => Z.eqb (supplier_id r) id && String.eqb (supplier_status r) "active")
               (suppliers d)
  else false.

(** The stored rows with the given id. *)
Definition stored_with_id (d : db) (id : Z) : list potential_duplicate :=
  filter (fun row => match pd_id row with Some i => Z.eqb i id | None => false end)
         (potential_duplicates d).

(** The columns of a candidate row that no resolution may touch. *)
Definition frame_columns (row : potential_duplicate)
  : option Z * string * Z * Z * Q * option Z :=
  (pd_id row, pd_table_name row, pd_record_id_1 row, pd_record_id_2 row,
   pd_similarity_score row, pd_created_at row).

(** The text similarity of [x] and [y] does not depend on their order. *)
Definition order_independent (x y : string) : Prop :=
  (calculate_similarity x y == calculate_similarity y x)%Q.

Definition digits (o : option string) : string :=
  PyStr.filter_join PyStr.isdigit (text o).

(* ===================================================================== *)
(** ** Sample data *)
(* ===================================================================== *)

Module Sample.

Definition mk_client (id : Z) (name document : string) (email phone : option string)
  : client :=
  mkClient id name "CPF" document email phone None None None None None
           "active" None None None None.

Definition mk_supplier (id : Z) (name document : string)
           (email contact : option string) : supplier :=
  mkSupplier id name "CNPJ" document email None None None None None None contact
             "active" None None None None.

Definition mk_product (id : Z) (code name : string) (description : option string)
  : product :=
  mkProduct id code name description None None None None "active" None None None None.

(** "João Silva": the fourth character is U+00E3. *)
Definition joao_tilde : string := "Jo" ++ String "227"%char "o Silva".

Definition clientA : client := mk_client 1 joao_tilde "123.456.789-01" None None.
Definition clientB : client := mk_client 2 "Joao Silva" "12345678901" None None.

(** A client with every weighted field present and non-empty. *)
Definition ana : client :=
  mk_client 3 "Ana Lima" "111.222.333-44" (Some "ana@x.org") (Some "(11) 5555-1234").

(** A supplier with every weighted field present and non-empty. *)
Definition acme : supplier :=
  mk_supplier 7 "Acme Ltda" "12.345.678/0001-90" (Some "sales@acme.com") (Some "Rita").

(** A product with every weighted field present and non-empty. *)
Definition widget : product := mk_product 5 "P1" "Widget" (Some "A small widget").

Definition tide : client := mk_client 10 "tide" "1" None None.
Definition diet : client := mk_client 11 "diet" "2" None None.

(** The two clients of the scenario, no candidate stored. *)
Definition db_AB : db := mkDb [clientA; clientB] [] [] [] [] 0 0.
Definition world_AB : world := mkWorld db_AB 1000 [].

(** A pending candidate for the pair (1, 2) of clients. *)
Definition candidate12 : potential_duplicate :=
  mkPD (Some 1%Z) "clients" 1 2 (33 # 100) "pending" None None (Some 1000%Z).

Definition db_review : db := mkDb [clientA; clientB] [] [] [candidate12] [] 1 0.
Definition world_review : world := mkWorld db_review 2000 [].

(** The same, with only client 1 left in the table. *)
Definition db_orphan : db := mkDb [clientA] [] [] [candidate12] [] 1 0.
Definition world_orphan : world := mkWorld db_orphan 2000 [].

(** The same, with only client 2 left in the table. *)
Definition db_orphan_first : db := mkDb [clientB] [] [] [candidate12] [] 1 0.
Definition world_orphan_first : world := mkWorld db_orphan_first 2000 [].

(** A new, unsaved candidate for the pair (1, 2) of clients. *)
Definition fresh12 : potential_duplicate :=
  mkPD None "clients" 1 2 (33 # 100) "pending" None None None.

(** Two products that detection pairs at threshold 0.3. *)
Definition db_products : db :=
  mkDb [] [mk_product 5 "P1" "Widget" None; mk_product 6 "P1" "Widget" None]
       [] [] [] 0 0.

End Sample.

(* ===================================================================== *)
(** ** Notions used in the proofs *)
(* ===================================================================== *)

(** The world after a statement has taken the head of the schedule. *)
Definition pop_fault (w : world) : world :=
  match faults w with [] => w | _ :: fs => set_faults fs w end.

(** [R] relates the database before a computation to the database after
    it, in every outcome, normal or exceptional. *)
Definition keepsW (R : db -> db -> Prop) {A} (m : M world A) : Prop :=
  forall w, R (database w) (database (snd (m w))).

Definition keepsO (R : db -> db -> Prop) {O A} (m : M (world * O) A) : Prop :=
  forall s, R (database (fst s)) (database (fst (snd (m s)))).

(** The rows of [potential_duplicates] are the same in number and order,
    and each has its frame columns unchanged. *)
Definition same_frame (d d' : db) : Prop :=
  map frame_columns (potential_duplicates d') = map frame_columns (potential_duplicates d).

(** The entity tables are the same. *)
Definition same_entities (d d' : db) : Prop :=
  clients d' = clients d /\ products d' = products d /\ suppliers d' = suppliers d.

(** Laws of the three tables seen through [Entity]. *)
Class EntityLaws (T : Type) `{Entity T} : Prop := {
  rows_set_rows : forall l d, ent_rows (ent_set_rows l d) = l;
  pds_set_rows : forall l d,
      potential_duplicates (ent_set_rows l d) = potential_duplicates d;
  rows_set_pds : forall l s d, ent_rows (set_potential_duplicates l s d) = ent_rows d;
  rows_set_audit : forall l s d, ent_rows (set_audit_trail l s d) = ent_rows d;
  status_mark_deleted : forall u t r, ent_status (ent_mark_deleted u t r) = "deleted";
  id_mark_deleted : forall u t r, ent_id (ent_mark_deleted u t r) = ent_id r
}.

Definition active_with_id {T : Type} `{Entity T} (id : Z) (r : T) : bool :=
  Z.eqb (ent_id r) id && String.eqb (ent_status r) "active".

(** The pair needs no new row: it scores below the threshold or a row for
    it is stored. *)
Definition settled {T : Type} `{Entity T} (similarity : T -> T -> Q) (threshold : Q)
           (d : db) (record1 record2 : T) : Prop :=
  Qle_bool threshold (similarity record1 record2) = true ->
  pair_stored d ent_table_name (ent_id record1) (ent_id record2) = true.

(** What a failure-free step of detection does to the world: no failure
    is pending, the entity rows are the same, every stored pair stays
    stored. *)
Definition grows {T : Type} `{Entity T} (w w' : world) : Prop :=
  faults w' = []
  /\ ent_rows (T := T) (database w') = ent_rows (database w)
  /\ forall t a b, pair_stored (database w) t a b = true ->
                   pair_stored (database w') t a b = true.

(** *** Notions for the matching blocks of [SequenceMatcher] *)

Import Difflib.

(** No entry of the row is longer than the part of [a] and of [b] read so far. *)
Definition row_within (alo blo upto : nat) (d : j2len_t) : Prop :=
  forall j, j2len_get d j <= upto - alo /\ j2len_get d j <= j + 1 - blo.

(** The block lies inside [a[alo:upto]] and [b[blo:bhi]]. *)
Definition block_within (alo upto blo bhi : nat) (x : best) : Prop :=
  alo <= besti x /\ besti x + bestsize x <= upto
  /\ blo <= bestj x /\ bestj x + bestsize x <= bhi.

(** Total size of a list of blocks. *)
Definition total_size (l : list best) : nat :=
  fold_left (fun acc x => acc + bestsize x) l 0.

(** *** Notions for the properties of the normal forms, the listings,
        the soft delete, the resolutions and the detection runs *)

(** The element at [j] exists and is kept in [b2j]. *)
Definition unpopular (a : seq) (j : nat) : bool :=
  match nth_error a j with
  | Some c => negb (popular a c)
  | None => false
  end.

(** Length of the run of elements kept in [b2j] that ends at [j]. *)
Fixpoint diag_run (a : seq) (j : nat) : nat :=
  match j with
  | O => if unpopular a 0 then 1 else 0
  | S p => if unpopular a (S p) then diag_run a p + 1 else 0
  end.

(** The same, for the run that ends just before [j]. *)
Definition diag_before (a : seq) (j : nat) : nat :=
  match j with
  | O => 0
  | S p => diag_run a p
  end.

(** The row of [j2len] before row [i], against the runs of the diagonal. *)
Definition row_below_diag (a : seq) (i : nat) (d : j2len_t) : Prop :=
  (forall p, j2len_get d p <= diag_run a p /\ j2len_get d p <= diag_before a i)
  /\ j2len_prev d i = diag_before a i.

(** The best block so far lies on the diagonal and is at least as long
    as every run that ends before row [i]. *)
Definition best_on_diag (a : seq) (i : nat) (bst : best) : Prop :=
  besti bst = bestj bst /\ forall j, j < i -> diag_run a j <= bestsize bst.

(** What [delete] of an entity model does, by cases on the id. *)
Definition delete_behaviour {T : Type} `{Entity T}
           (delete : Z -> string -> M world bool) : Prop :=
  forall (id : Z) (user : string) (w : world),
    (* in every outcome the database is as before the call *)
    database (snd (delete id user w)) = database w
    (* it returns only for an unknown id, and then False *)
    /\ (forall b w',
           delete id user w = (Ok b, w') ->
           b = false
           /\ existsb (fun r => Z.eqb (ent_id r) id) (ent_rows (database w)) = false)
    (* a known id: it raises, under every schedule *)
    /\ (existsb (fun r => Z.eqb (ent_id r) id) (ent_rows (database w)) = true ->
        exists w', delete id user w = (Raise DatabaseError, w'))
    (* an unknown id and no storage failure: False, and nothing happens *)
    /\ (faults w = [] ->
        existsb (fun r => Z.eqb (ent_id r) id) (ent_rows (database w)) = false ->
        delete id user w = (Ok false, w)).

(** The row after a resolution: status, reviewer and review time are
    written, the rest is kept. *)
Definition resolve_row (status user : string) (ts : Z) (row : potential_duplicate)
  : potential_duplicate :=
  set_pd_reviewed_at (Some ts) (set_pd_reviewed_by (Some user) (set_pd_status status row)).

Definition row_has_id (id : Z) (row : potential_duplicate) : bool :=
  match pd_id row with Some i => Z.eqb i id | None => false end.

(** The candidate table after the rows with [id] have been resolved. *)
Definition resolved_table (status user : string) (ts id : Z)
           (rows : list potential_duplicate) : list potential_duplicate :=
  map (fun row => if row_has_id id row then resolve_row status user ts row else row) rows.

(** Neither the entity tables nor the audit trail differ. *)
Definition entities_and_audit_kept (d d' : db) : Prop :=
  same_entities d d' /\ audit_trail d' = audit_trail d
  /\ seq_audit_trail d' = seq_audit_trail d.

(** Rows whose id is not [id] are the same, position by position. *)
Definition rows_untouched_except {T : Type} `{Entity T} (id : Z) (rows rows' : list T) : Prop :=
  Forall2 (fun r r' => ent_id r <> id -> r' = r) rows rows'.

(** In the three entity tables only rows with the id [id] may differ. *)
Definition others_untouched (id : Z) (d d' : db) : Prop :=
  rows_untouched_except (T := client) id (clients d) (clients d')
  /\ rows_untouched_except (T := product) id (products d) (products d')
  /\ rows_untouched_except (T := supplier) id (suppliers d) (suppliers d').

(** [len(...)] of the result of a call. *)
Definition len_of {A} (out : result (list A) * world) : result nat * world :=
  match out with
  | (Ok l, w) => (Ok (List.length l), w)
  | (Raise e, w) => (Raise e, w)
  end.

(** The rows a listing with this [status] argument selects. *)
Definition selected {T : Type} `{Entity T} (status : option string) (r : T) : bool :=
  if PyStr.truthy_opt status
  then String.eqb (ent_status r) (match status with Some s => s | None => "" end)
  else true.

Definition pending_of (table_name : option string) (row : potential_duplicate) : bool :=
  String.eqb (pd_status row) "pending" &&
  (if PyStr.truthy_opt table_name
   then String.eqb (pd_table_name row) (match table_name with Some s => s | None => "" end)
   else true).

Definition by_name {T : Type} `{Entity T} (r1 r2 : T) : Prop :=
  String.leb (ent_name r1) (ent_name r2) = true.

Definition by_score_desc (p1 p2 : potential_duplicate) : Prop :=
  (pd_similarity_score p2 <= pd_similarity_score p1)%Q.

(** What [get_all] returns when its SELECT goes through. *)
Definition listing {T : Type} `{Entity T} (status : option string) (w : world) (l : list T)
  : Prop :=
  Sorted by_name l
  /\ Permutation l (filter (selected status) (ent_rows (database w)))
  /\ (forall r, In r l <->
                In r (ent_rows (database w))
                /\ (PyStr.truthy_opt status = true -> Some (ent_status r) = status)).

(** No two rows are for the same pair of records of a table, in either
    order of the two ids. *)
Definition pairs_unique (rows : list potential_duplicate) : Prop :=
  ForallOrdPairs
    (fun row row' =>
       same_pair (pd_table_name row') (pd_record_id_1 row') (pd_record_id_2 row') row = false)
    rows.

(** The candidate table has only grown at its end. *)
Definition candidates_appended (d d' : db) : Prop :=
  exists added, potential_duplicates d' = potential_duplicates d ++ added.

(** Detection leaves the entity tables and the audit trail alone, keeps
    every stored candidate as it is, and adds no second row for a pair. *)
Definition detection_frame (d d' : db) : Prop :=
  entities_and_audit_kept d d'
  /\ candidates_appended d d'
  /\ (pairs_unique (potential_duplicates d) -> pairs_unique (potential_duplicates d')).

(** The row the INSERT of [save] stores for a candidate object that has
    received its id: the five columns written, NULL reviewer columns, and
    the creation time. *)
Definition as_stored (ts : Z) (p : potential_duplicate) : potential_duplicate :=
  mkPD (pd_id p) (pd_table_name p) (pd_record_id_1 p) (pd_record_id_2 p)
       (pd_similarity_score p) (pd_status p) None None (Some ts).

(** The ids AUTOINCREMENT gives to [n] rows inserted after [last]. *)
Definition next_ids (last : Z) (n : nat) : list (option Z) :=
  map (fun k => Some (last + Z.of_nat k)%Z) (List.seq 1 n).

(** The rows for [found] have been appended to the candidate table of
    [w], with the next ids, and nothing else differs in [w']. *)
Definition appended (w w' : world) (found : list potential_duplicate) : Prop :=
  faults w' = [] /\ now w' = now w
  /\ entities_and_audit_kept (database w) (database w')
  /\ potential_duplicates (database w')
     = potential_duplicates (database w) ++ map (as_stored (now w)) found
  /\ seq_potential_duplicates (database w')
     = (seq_potential_duplicates (database w) + Z.of_nat (List.length found))%Z
  /\ map pd_id found = next_ids (seq_potential_duplicates (database w)) (List.length found)
  /\ Forall (fun p => pair_stored (database w) (pd_table_name p)
                                  (pd_record_id_1 p) (pd_record_id_2 p) = false) found.

(** The candidate object detection builds for the pair and hands back
    once [save] has given it its id. *)
Definition candidate_for {T : Type} `{Entity T} (similarity : T -> T -> Q)
           (record1 record2 : T) (id : Z) : potential_duplicate :=
  mkPD (Some id) ent_table_name (ent_id record1) (ent_id record2)
       (similarity record1 record2) "pending" None None None.

(** [p] is the candidate of a pair that [ok] allows and that scores at
    least the threshold. *)
Definition candidate_of {T : Type} `{Entity T} (similarity : T -> T -> Q) (threshold : Q)
           (ok : T -> T -> Prop) (p : potential_duplicate) : Prop :=
  exists record1 record2 id,
    ok record1 record2
    /\ Qle_bool threshold (similarity record1 record2) = true
    /\ p = candidate_for similarity record1 record2 id.

(** [before l a b]: [a] comes before [b] in [l]. *)
Inductive before {T : Type} : list T -> T -> T -> Prop :=
| before_here a b l : In b l -> before (a :: l) a b
| before_later x a b l : before l a b -> before (x :: l) a b.

(** What a detection without storage failure returns and stores. *)
Definition detection_report {T : Type} `{Entity T} (similarity : T -> T -> Q) (threshold : Q)
           (w : world) (found : list potential_duplicate) (w' : world) : Prop :=
  exists records,
    Repository.get_all (T := T) (Some "active") w = (Ok records, w)
    /\ appended w w' found
    /\ Forall (candidate_of similarity threshold (before records)) found
    /\ ForallOrdPairs (settled similarity threshold (database w')) records.

(** The listing [l'] is the listing [l] without the rows that have [id]. *)
Definition queue_without (id : Z) (l l' : list potential_duplicate) : Prop :=
  Permutation l' (filter (fun row => negb (row_has_id id row)) l)
  /\ Forall (fun row => row_has_id id row = false) l'.

(* ===================================================================== *)
(** ** Lemmas and theorems *)
(* ===================================================================== *)

#[export] Instance client_laws : EntityLaws client.
Proof. split; reflexivity. Qed.

#[export] Instance product_laws : EntityLaws product.
Proof. split; reflexivity. Qed.

#[export] Instance supplier_laws : EntityLaws supplier.
Proof. split; reflexivity. Qed.

Lemma set_database_same w : set_database (database w) w = w.
Proof. destruct w; reflexivity. Qed.

Lemma execute_eq w :
  execute w = (if hd false (faults w) then Raise DatabaseError else Ok tt, pop_fault w).
Proof.
  unfold execute, pop_fault. destruct (faults w) as [|[|] fs]; reflexivity.
Qed.

Lemma database_pop_fault w : database (pop_fault w) = database w.
Proof. unfold pop_fault. destruct (faults w); reflexivity. Qed.

Lemma now_pop_fault w : now (pop_fault w) = now w.
Proof. unfold pop_fault. destruct (faults w); reflexivity. Qed.

Lemma pop_fault_ok w : faults w = [] -> pop_fault w = w.
Proof. unfold pop_fault. intros ->. reflexivity. Qed.

(** *** Relations between the database before and after a computation
        that hold in every outcome, normal or exceptional *)

Section Keeps.
Variable R : db -> db -> Prop.
Hypothesis R_refl : forall d, R d d.
Hypothesis R_trans : forall a b c, R a b -> R b c -> R a c.

Lemma keepsW_ret {A} (a : A) : keepsW R (ret a).
Proof. intros w. apply R_refl. Qed.

Lemma keepsW_bind {A B} (m : M world A) (k : A -> M world B) :
  keepsW R m -> (forall a, keepsW R (k a)) -> keepsW R (bind m k).
Proof.
  intros Hm Hk w. unfold bind. specialize (Hm w).
  destruct (m w) as [[a|e] w1]; simpl in *.
  - eapply R_trans; [exact Hm | apply Hk].
  - exact Hm.
Qed.

Lemma keepsW_execute : keepsW R execute.
Proof. intros w. rewrite execute_eq. simpl. rewrite database_pop_fault. apply R_refl. Qed.

Lemma keepsW_query {A} (f : db -> A) : keepsW R (query f).
Proof. intros w. apply R_refl. Qed.

Lemma keepsW_timestamp : keepsW R current_timestamp.
Proof. intros w. apply R_refl. Qed.

Lemma keepsW_update (f : db -> db) : (forall d, R d (f d)) -> keepsW R (update f).
Proof. intros Hf w. simpl. apply Hf. Qed.

Lemma keepsW_with_connection {A} (m : M world A) :
  keepsW R m -> keepsW R (with_connection m).
Proof.
  intros Hm w. unfold with_connection. specialize (Hm w).
  destruct (m w) as [[a|e] w1]; simpl in *.
  - exact Hm.
  - apply R_refl.
Qed.

Lemma keepsO_ret {O A} (a : A) : keepsO R (O := O) (ret a).
Proof. intros s. apply R_refl. Qed.

Lemma keepsO_bind {O A B} (m : M (world * O) A) (k : A -> M (world * O) B) :
  keepsO R m -> (forall a, keepsO R (k a)) -> keepsO R (bind m k).
Proof.
  intros Hm Hk s. unfold bind. specialize (Hm s).
  destruct (m s) as [[a|e] s1]; simpl in *.
  - eapply R_trans; [exact Hm | apply Hk].
  - exact Hm.
Qed.

Lemma keepsO_liftW {O A} (m : M world A) : keepsW R m -> keepsO R (O := O) (liftW m).
Proof.
  intros Hm [w o]. unfold liftW. specialize (Hm w).
  destruct (m w) as [r w1]. exact Hm.
Qed.

Lemma keepsO_get_obj {O} : keepsO R (O := O) get_obj.
Proof. intros [w o]. apply R_refl. Qed.

Lemma keepsO_modify_obj {O} (f : O -> O) : keepsO R (modify_obj f).
Proof. intros [w o]. apply R_refl. Qed.

Lemma keepsO_try_except {O A} (m : M (world * O) A) (h : exn -> M (world * O) A) :
  keepsO R m -> (forall e, keepsO R (h e)) -> keepsO R (try_except m h).
Proof.
  intros Hm Hh s. unfold try_except. specialize (Hm s).
  destruct (m s) as [[a|e] s1]; simpl in *.
  - exact Hm.
  - eapply R_trans; [exact Hm | apply Hh].
Qed.

(** What the entity models do to the database is within [R] as soon as
    a change of entity rows and an appended audit entry are. *)
Section Repo.
Context {T : Type} `{Entity T}.
Hypothesis R_rows : forall l d, R d (ent_set_rows l d).
Hypothesis R_audit : forall l s d, R d (set_audit_trail l s d).

Lemma keepsW_get_by_id id : keepsW R (Repository.get_by_id (T := T) id).
Proof.
  apply keepsW_with_connection, keepsW_bind;
    [apply keepsW_execute | intros; apply keepsW_query].
Qed.

Lemma keepsW_execute_write lock : keepsW R (execute_write lock).
Proof. destruct lock; [apply keepsW_execute|intros w; apply R_refl]. Qed.

Lemma keepsW_log_audit lock a u id :
  keepsW R (Repository._log_audit_trail_static (T := T) lock a u id).
Proof.
  apply keepsW_with_connection, keepsW_bind; [apply keepsW_execute_write|intros _].
  apply keepsW_bind; [apply keepsW_timestamp|intros ts].
  apply keepsW_update. intros d. apply R_audit.
Qed.

Lemma keepsW_delete id u : keepsW R (Repository.delete (T := T) id u).
Proof.
  apply keepsW_bind; [apply keepsW_get_by_id|intros [r|]]; [|apply keepsW_ret].
  apply keepsW_with_connection, keepsW_bind; [apply keepsW_execute|intros _].
  apply keepsW_bind; [apply keepsW_timestamp|intros ts].
  apply keepsW_bind; [apply keepsW_update; intros d; apply R_rows|intros _].
  apply keepsW_bind; [apply keepsW_log_audit|intros _]. apply keepsW_ret.
Qed.
End Repo.

End Keeps.

Lemma same_frame_refl d : same_frame d d.
Proof. reflexivity. Qed.

Lemma same_frame_trans a b c : same_frame a b -> same_frame b c -> same_frame a c.
Proof. unfold same_frame. congruence. Qed.

Lemma keepsW_update_row self id : keepsW same_frame (PotentialDuplicate.update_row self id).
Proof.
  unfold PotentialDuplicate.update_row.
  apply keepsW_bind; [apply same_frame_trans | apply keepsW_execute, same_frame_refl | intros _].
  apply keepsW_bind; [apply same_frame_trans | apply keepsW_timestamp, same_frame_refl | intros ts].
  apply keepsW_update. intros d. unfold same_frame. simpl.
  rewrite map_map. apply map_ext. intros row.
  destruct (pd_id row) as [i|] eqn:E; [|reflexivity].
  destruct (Z.eqb i id); [|reflexivity].
  unfold frame_columns. simpl. rewrite E. reflexivity.
Qed.

Lemma keepsO_save_update i :
  forall s, pd_id (snd s) = Some i ->
    same_frame (database (fst s)) (database (fst (snd (PotentialDuplicate.save s)))).
Proof.
  intros [w o] Hid. simpl in Hid.
  unfold PotentialDuplicate.save, bind, get_obj. rewrite Hid.
  pose proof (keepsW_with_connection same_frame same_frame_refl _
                (keepsW_update_row o i) w) as Hk.
  unfold liftW.
  destruct (with_connection (PotentialDuplicate.update_row o i) w) as [[u|e] w1];
    simpl in *; exact Hk.
Qed.

Lemma keepsW_delete_other dup keep user : keepsW same_frame (delete_other dup keep user).
Proof.
  unfold delete_other.
  destruct (String.eqb (pd_table_name dup) "clients");
    [|destruct (String.eqb (pd_table_name dup) "products");
      [|destruct (String.eqb (pd_table_name dup) "suppliers")]];
    try (apply keepsW_ret, same_frame_refl);
    (apply keepsW_bind; [apply same_frame_trans| |intros; apply keepsW_ret, same_frame_refl]);
    (apply keepsW_delete; [apply same_frame_refl|apply same_frame_trans| |];
     intros; reflexivity).
Qed.

(** Claim C10.  Saving a candidate that already has an id, merging and
    dismissing write only the status, reviewer and review time of stored
    candidates: after each of them, whether it returns or a storage failure
    interrupts it, the table holds the same rows in the same order with
    the same id, table name, two record ids, similarity score and creation
    time. *)
Theorem C10_resolution_frame :
  forall (w : world) (duplicate : potential_duplicate) (id keep_record_id : Z) (user : string),
    pd_id duplicate = Some id ->
    same_frame (database w)
               (database (fst (snd (PotentialDuplicate.save (w, duplicate)))))
    /\ same_frame (database w)
                  (database (fst (snd (merge_records keep_record_id user (w, duplicate)))))
    /\ same_frame (database w)
                  (database (fst (snd (mark_as_not_duplicate user (w, duplicate))))).
Proof.
  intros w dup id keep user Hid. split; [|split].
  - apply (keepsO_save_update id (w, dup) Hid).
  - unfold merge_records, try_except, bind, get_obj, modify_obj, liftW.
    pose proof (keepsW_delete_other dup keep user w) as Hd.
    destruct (delete_other dup keep user w) as [[u|e] w1]; simpl in *; [|exact Hd].
    pose proof (keepsO_save_update id
                  (w1, set_pd_reviewed_by (Some user) (set_pd_status "merged" dup)) Hid) as Hs.
    destruct (PotentialDuplicate.save
                (w1, set_pd_reviewed_by (Some user) (set_pd_status "merged" dup)))
      as [[j|e] [w2 d2]]; simpl in *; eapply same_frame_trans; eauto.
  - unfold mark_as_not_duplicate, try_except, bind, modify_obj.
    pose proof (keepsO_save_update id
                  (w, set_pd_reviewed_by (Some user) (set_pd_status "not_duplicate" dup)) Hid)
      as Hs.
    destruct (PotentialDuplicate.save
                (w, set_pd_reviewed_by (Some user) (set_pd_status "not_duplicate" dup)))
      as [[j|e] [w2 d2]]; simpl in *; exact Hs.
Qed.

Lemma C10_witness :
  same_frame (database Sample.world_review)
    (database (fst (snd (PotentialDuplicate.save
                           (Sample.world_review, Sample.candidate12)))))
  /\ same_frame (database Sample.world_review)
       (database (fst (snd (merge_records 1 "alice"
                              (Sample.world_review, Sample.candidate12)))))
  /\ same_frame (database Sample.world_review)
       (database (fst (snd (mark_as_not_duplicate "bob"
                              (Sample.world_review, Sample.candidate12))))).
Proof.
  destruct (C10_resolution_frame Sample.world_review Sample.candidate12 1 1 "alice" eq_refl)
    as (Hs & Hm & _).
  destruct (C10_resolution_frame Sample.world_review Sample.candidate12 1 1 "bob" eq_refl)
    as (_ & _ & Hd).
  split; [exact Hs|]. split; [exact Hm|exact Hd].
Defined.

Lemma with_connection_raise {A} (m : M world A) w e w' :
  with_connection m w = (Raise e, w') -> database w' = database w.
Proof.
  unfold with_connection. destruct (m w) as [[a|e'] w1]; [discriminate|].
  intros E. inversion E; subst. reflexivity.
Qed.

Section RepoRuns.
Context {T : Type} `{EntityLaws T}.

Lemma get_by_id_run id w :
  Repository.get_by_id (T := T) id w =
  (if hd false (faults w) then Raise DatabaseError
   else Ok (find (fun r => Z.eqb (ent_id r) id) (ent_rows (database w))),
   pop_fault w).
Proof.
  unfold Repository.get_by_id, with_connection, bind, query.
  rewrite execute_eq. destruct (hd false (faults w)); simpl.
  - rewrite <- (database_pop_fault w) at 1. rewrite set_database_same. reflexivity.
  - rewrite database_pop_fault. reflexivity.
Qed.

Lemma find_none_iff id (l : list T) :
  find (fun r => Z.eqb (ent_id r) id) l = None <->
  existsb (fun r => Z.eqb (ent_id r) id) l = false.
Proof.
  induction l as [|r l IH]; simpl; [tauto|].
  destruct (Z.eqb (ent_id r) id); simpl; [split; discriminate|exact IH].
Qed.

Lemma absent_not_active id (l : list T) :
  existsb (fun r => Z.eqb (ent_id r) id) l = false ->
  existsb (active_with_id id) l = false.
Proof.
  induction l as [|r l IH]; simpl; [reflexivity|].
  unfold active_with_id at 1. destruct (Z.eqb (ent_id r) id); [discriminate|].
  simpl. exact IH.
Qed.

(** [delete] by cases.  The SELECT of [get_by_id] may fail.  For an id
    that is in the table the UPDATE is issued, and whether it fails or
    not the call raises: the INSERT of the audit entry finds the write
    lock held, and the UPDATE is rolled back.  For an id that is not in
    the table the call returns [False]. *)
Lemma delete_run id u w :
  Repository.delete (T := T) id u w =
  if hd false (faults w) then (Raise DatabaseError, pop_fault w)
  else if existsb (fun r => Z.eqb (ent_id r) id) (ent_rows (database w))
       then (Raise DatabaseError, pop_fault (pop_fault w))
       else (Ok false, pop_fault w).
Proof.
  unfold Repository.delete, bind. rewrite get_by_id_run.
  destruct (hd false (faults w)); [reflexivity|].
  destruct (find _ _) as [r|] eqn:F.
  - destruct (existsb _ _) eqn:Ex; [|apply find_none_iff in Ex; congruence].
    unfold Repository._log_audit_trail_static, with_connection, bind, update,
      current_timestamp, ret, execute_write, raise.
    rewrite execute_eq. destruct (hd false (faults (pop_fault w))); simpl; f_equal.
    + rewrite <- (database_pop_fault (pop_fault w)). apply set_database_same.
    + rewrite <- (database_pop_fault (pop_fault w)) at 1.
      destruct (pop_fault (pop_fault w)); reflexivity.
  - apply find_none_iff in F. rewrite F. reflexivity.
Qed.

(** [delete] never changes the database. *)
Lemma delete_keeps_database id u w :
  database (snd (Repository.delete (T := T) id u w)) = database w.
Proof.
  rewrite delete_run.
  destruct (hd false (faults w)); [apply database_pop_fault|].
  destruct (existsb _ _); simpl; rewrite ?database_pop_fault; reflexivity.
Qed.

(** [delete] returns only for an id that is not in the table, and then
    [False]. *)
Lemma delete_returns_false id u w b w' :
  Repository.delete (T := T) id u w = (Ok b, w') ->
  b = false
  /\ existsb (fun r => Z.eqb (ent_id r) id) (ent_rows (database w)) = false
  /\ database w' = database w.
Proof.
  rewrite delete_run. destruct (hd false (faults w)); [discriminate|].
  destruct (existsb _ _); [discriminate|].
  intros E. inversion E; subst. repeat split. apply database_pop_fault.
Qed.

(** When [delete] returns, no row with the id is active. *)
Lemma delete_returns id u w b w' :
  Repository.delete (T := T) id u w = (Ok b, w') ->
  existsb (active_with_id id) (ent_rows (database w')) = false.
Proof.
  intros E. apply delete_returns_false in E. destruct E as (_ & A & D).
  rewrite D. apply absent_not_active, A.
Qed.

(** When [delete] raises, the database is as before. *)
Lemma delete_raises id u w e w' :
  Repository.delete (T := T) id u w = (Raise e, w') -> database w' = database w.
Proof.
  intros E. pose proof (delete_keeps_database id u w) as K. rewrite E in K. exact K.
Qed.

(** For an id that is in the table [delete] raises, whatever the
    schedule. *)
Lemma delete_known_raises id u w :
  existsb (fun r => Z.eqb (ent_id r) id) (ent_rows (database w)) = true ->
  exists w', Repository.delete (T := T) id u w = (Raise DatabaseError, w').
Proof.
  intros Ex. rewrite delete_run, Ex. destruct (hd false (faults w)); eauto.
Qed.
End RepoRuns.

Lemma same_entities_refl d : same_entities d d.
Proof. repeat split. Qed.

Lemma same_entities_trans a b c : same_entities a b -> same_entities b c -> same_entities a c.
Proof. unfold same_entities. intuition congruence. Qed.

Lemma save_same_entities s :
  same_entities (database (fst s)) (database (fst (snd (PotentialDuplicate.save s)))).
Proof.
  revert s. change (keepsO same_entities PotentialDuplicate.save).
  unfold PotentialDuplicate.save.
  apply keepsO_bind; [apply same_entities_trans|apply keepsO_get_obj, same_entities_refl|].
  intros self. destruct (pd_id self) as [id|].
  - apply keepsO_bind; [apply same_entities_trans| |intros; apply keepsO_ret, same_entities_refl].
    apply keepsO_liftW, keepsW_with_connection; [apply same_entities_refl|].
    unfold PotentialDuplicate.update_row.
    apply keepsW_bind; [apply same_entities_trans|apply keepsW_execute, same_entities_refl|intros _].
    apply keepsW_bind; [apply same_entities_trans|apply keepsW_timestamp, same_entities_refl|intros ts].
    apply keepsW_update. intros d. repeat split.
  - apply keepsO_bind; [apply same_entities_trans| |intros new_id].
    + apply keepsO_liftW, keepsW_with_connection; [apply same_entities_refl|].
      unfold PotentialDuplicate.insert_row.
      apply keepsW_bind; [apply same_entities_trans|apply keepsW_execute, same_entities_refl|intros _].
      apply keepsW_bind; [apply same_entities_trans|apply keepsW_timestamp, same_entities_refl|intros ts].
      apply keepsW_bind; [apply same_entities_trans|apply keepsW_query, same_entities_refl|intros i].
      apply keepsW_bind; [apply same_entities_trans| |intros; apply keepsW_ret, same_entities_refl].
      apply keepsW_update. intros d. repeat split.
    + apply keepsO_bind; [apply same_entities_trans|apply keepsO_modify_obj, same_entities_refl|].
      intros; apply keepsO_ret, same_entities_refl.
Qed.

Lemma record_active_same_entities d d' t id :
  same_entities d d' -> record_active d' t id = record_active d t id.
Proof. intros (Hc & Hp & Hs). unfold record_active. rewrite Hc, Hp, Hs. reflexivity. Qed.

(** [save] of an object that has an id: the UPDATE path. *)
Lemma save_update_run w o id :
  pd_id o = Some id ->
  PotentialDuplicate.save (w, o) =
  (if hd false (faults w) then Raise DatabaseError else Ok id,
   (if hd false (faults w) then pop_fault w
    else set_database
           (set_potential_duplicates
              (map (fun row =>
                      match pd_id row with
                      | Some i =>
                          if Z.eqb i id
                          then set_pd_reviewed_at (Some (now w))
                                 (set_pd_reviewed_by (pd_reviewed_by o)
                                    (set_pd_status (pd_status o) row))
                          else row
                      | None => row
                      end)
                   (potential_duplicates (database w)))
              (seq_potential_duplicates (database w)) (database w))
           (pop_fault w),
    o)).
Proof.
  intros Hid. unfold PotentialDuplicate.save, bind, get_obj. rewrite Hid.
  unfold liftW, with_connection, PotentialDuplicate.update_row, bind, update,
    current_timestamp, ret.
  rewrite execute_eq. destruct (hd false (faults w)); simpl.
  - rewrite <- (database_pop_fault w) at 1. rewrite set_database_same. reflexivity.
  - rewrite database_pop_fault, now_pop_fault. reflexivity.
Qed.

(** [save] of an object without id: the INSERT path. *)
Lemma save_insert_run w o :
  pd_id o = None ->
  let new_id := (seq_potential_duplicates (database w) + 1)%Z in
  PotentialDuplicate.save (w, o) =
  (if hd false (faults w) then Raise DatabaseError else Ok new_id,
   (if hd false (faults w) then pop_fault w
    else set_database
           (set_potential_duplicates
              (potential_duplicates (database w) ++
                 [mkPD (Some new_id) (pd_table_name o) (pd_record_id_1 o)
                       (pd_record_id_2 o) (pd_similarity_score o) (pd_status o)
                       None None (Some (now w))])
              new_id (database w))
           (pop_fault w),
    if hd false (faults w) then o else set_pd_id (Some new_id) o)).
Proof.
  intros Hid. unfold PotentialDuplicate.save, bind, get_obj. rewrite Hid.
  unfold liftW, with_connection, PotentialDuplicate.insert_row, bind, update, query,
    current_timestamp, ret, modify_obj.
  rewrite execute_eq. destruct (hd false (faults w)); simpl.
  - rewrite <- (database_pop_fault w) at 1. rewrite set_database_same. reflexivity.
  - rewrite database_pop_fault, now_pop_fault. reflexivity.
Qed.

(** [merge_records] by the outcome of its two steps. *)
Lemma merge_records_run keep user w dup :
  merge_records keep user (w, dup) =
  match delete_other dup keep user w with
  | (Ok _, w1) =>
      match PotentialDuplicate.save
              (w1, set_pd_reviewed_by (Some user) (set_pd_status "merged" dup)) with
      | (Ok _, s2) => (Ok true, s2)
      | (Raise _, s2) => (Ok false, s2)
      end
  | (Raise _, w1) => (Ok false, (w1, dup))
  end.
Proof.
  unfold merge_records, try_except, bind, get_obj, modify_obj, liftW, ret.
  destruct (delete_other dup keep user w) as [[u|e] w1]; [|reflexivity].
  destruct (PotentialDuplicate.save _) as [[j|e] s2]; reflexivity.
Qed.

Lemma resolves_ent_rows d :
  (forall id, resolves d "clients" id
              = existsb (fun r => Z.eqb (ent_id r) id) (ent_rows (T := client) d))
  /\ (forall id, resolves d "products" id
                 = existsb (fun r => Z.eqb (ent_id r) id) (ent_rows (T := product) d))
  /\ (forall id, resolves d "suppliers" id
                 = existsb (fun r => Z.eqb (ent_id r) id) (ent_rows (T := supplier) d)).
Proof. repeat split. Qed.

Lemma not_resolved_not_active d t id :
  resolves d t id = false -> record_active d t id = false.
Proof.
  unfold resolves, record_active.
  destruct (String.eqb t "clients");
    [exact (absent_not_active (T := client) id (clients d))|].
  destruct (String.eqb t "products");
    [exact (absent_not_active (T := product) id (products d))|].
  destruct (String.eqb t "suppliers");
    [exact (absent_not_active (T := supplier) id (suppliers d))|].
  reflexivity.
Qed.

(** The delete step of [merge_records] by cases, as [delete]: it raises
    for a record that is in the candidate's table and does nothing
    otherwise. *)
Lemma delete_other_cases dup keep user w :
  delete_other dup keep user w =
  if String.eqb (pd_table_name dup) "clients"
     || String.eqb (pd_table_name dup) "products"
     || String.eqb (pd_table_name dup) "suppliers"
  then
    if hd false (faults w) then (Raise DatabaseError, pop_fault w)
    else if resolves (database w) (pd_table_name dup) (delete_id dup keep)
         then (Raise DatabaseError, pop_fault (pop_fault w))
         else (Ok tt, pop_fault w)
  else (Ok tt, w).
Proof.
  unfold delete_other, resolves, bind, ret,
    Client.delete, Product.delete, Supplier.delete.
  destruct (String.eqb (pd_table_name dup) "clients"); simpl.
  { rewrite (delete_run (T := client)).
    destruct (hd false (faults w)); [reflexivity|].
    change (ent_rows (database w)) with (clients (database w)).
    destruct (existsb _ (clients (database w))); reflexivity. }
  destruct (String.eqb (pd_table_name dup) "products"); simpl.
  { rewrite (delete_run (T := product)).
    destruct (hd false (faults w)); [reflexivity|].
    change (ent_rows (database w)) with (products (database w)).
    destruct (existsb _ (products (database w))); reflexivity. }
  destruct (String.eqb (pd_table_name dup) "suppliers"); simpl; [|reflexivity].
  rewrite (delete_run (T := supplier)).
  destruct (hd false (faults w)); [reflexivity|].
  change (ent_rows (database w)) with (suppliers (database w)).
  destruct (existsb _ (suppliers (database w))); reflexivity.
Qed.

Lemma resolves_known_table d t id :
  resolves d t id = true ->
  String.eqb t "clients" || String.eqb t "products" || String.eqb t "suppliers" = true.
Proof.
  unfold resolves.
  destruct (String.eqb t "clients"); [reflexivity|].
  destruct (String.eqb t "products"); [reflexivity|].
  destruct (String.eqb t "suppliers"); [reflexivity|discriminate].
Qed.

(** The delete step never changes the database. *)
Lemma delete_other_keeps_database dup keep user w :
  database (snd (delete_other dup keep user w)) = database w.
Proof.
  rewrite delete_other_cases.
  destruct (_ || _); [|reflexivity].
  destruct (hd false (faults w)); [apply database_pop_fault|].
  destruct (resolves _ _ _); simpl; rewrite ?database_pop_fault; reflexivity.
Qed.

(** The delete step returns only when the record to delete is not in the
    candidate's table. *)
Lemma delete_other_absent dup keep user w u w1 :
  delete_other dup keep user w = (Ok u, w1) ->
  resolves (database w) (pd_table_name dup) (delete_id dup keep) = false
  /\ database w1 = database w.
Proof.
  intros E. pose proof (delete_other_keeps_database dup keep user w) as K.
  rewrite E in K. split; [|exact K].
  rewrite delete_other_cases in E.
  destruct (resolves _ _ _) eqn:R; [|reflexivity].
  rewrite (resolves_known_table _ _ _ R) in E.
  destruct (hd false (faults w)); discriminate.
Qed.

Lemma delete_other_returns dup keep user w u w1 :
  delete_other dup keep user w = (Ok u, w1) ->
  record_active (database w1) (pd_table_name dup) (delete_id dup keep) = false.
Proof.
  intros E. apply delete_other_absent in E. destruct E as (R & D).
  rewrite D. apply not_resolved_not_active, R.
Qed.

Lemma delete_other_raises dup keep user w e w1 :
  delete_other dup keep user w = (Raise e, w1) -> database w1 = database w.
Proof.
  intros E. pose proof (delete_other_keeps_database dup keep user w) as K.
  rewrite E in K. exact K.
Qed.

(** Without storage failures the delete step raises exactly when the
    record to delete is in the candidate's table. *)
Lemma delete_other_run dup keep user w :
  faults w = [] ->
  delete_other dup keep user w =
  (if resolves (database w) (pd_table_name dup) (delete_id dup keep)
   then Raise DatabaseError else Ok tt, w).
Proof.
  intros Hf. rewrite delete_other_cases, Hf. simpl. rewrite !(pop_fault_ok w Hf).
  destruct (_ || _) eqn:K.
  - destruct (resolves _ _ _); reflexivity.
  - destruct (resolves _ _ _) eqn:R; [|reflexivity].
    rewrite (resolves_known_table _ _ _ R) in K. discriminate.
Qed.

Lemma updated_rows_resolved id ts o (l : list potential_duplicate) :
  Forall (fun row => pd_status row = pd_status o /\ pd_reviewed_by row = pd_reviewed_by o
                     /\ pd_reviewed_at row = Some ts)
    (filter (fun row => match pd_id row with Some i => Z.eqb i id | None => false end)
       (map (fun row =>
               match pd_id row with
               | Some i =>
                   if Z.eqb i id
                   then set_pd_reviewed_at (Some ts)
                          (set_pd_reviewed_by (pd_reviewed_by o)
                             (set_pd_status (pd_status o) row))
                   else row
               | None => row
               end) l)).
Proof.
  induction l as [|row l IH]; simpl; [constructor|].
  destruct (pd_id row) as [i|] eqn:E.
  - destruct (Z.eqb i id) eqn:Ei; simpl; rewrite E, Ei; [|exact IH].
    constructor; [repeat split|exact IH].
  - rewrite E. exact IH.
Qed.

Lemma save_update_returns w o id j w' o' :
  pd_id o = Some id ->
  PotentialDuplicate.save (w, o) = (Ok j, (w', o')) ->
  o' = o /\ now w' = now w /\
  Forall (fun row => pd_status row = pd_status o /\ pd_reviewed_by row = pd_reviewed_by o
                     /\ pd_reviewed_at row = Some (now w))
         (stored_with_id (database w') id).
Proof.
  intros Hid. rewrite (save_update_run w o id Hid).
  destruct (hd false (faults w)); [discriminate|].
  intros E. inversion E; subst; clear E. split; [reflexivity|].
  simpl. split; [apply now_pop_fault|].
  unfold stored_with_id. simpl. apply updated_rows_resolved.
Qed.

(** When [save] raises, the database is as before. *)
Lemma save_raises w o e w' o' :
  PotentialDuplicate.save (w, o) = (Raise e, (w', o')) -> database w' = database w.
Proof.
  destruct (pd_id o) as [id|] eqn:Hid.
  - rewrite (save_update_run w o id Hid).
    destruct (hd false (faults w)); [|discriminate].
    intros E. inversion E; subst. apply database_pop_fault.
  - rewrite (save_insert_run w o Hid).
    destruct (hd false (faults w)); [|discriminate].
    intros E. inversion E; subst. apply database_pop_fault.
Qed.

(** Claim C3, amended.  [merge_records] never raises.  When the soft
    delete of the other record raises, the error is caught, the call
    returns [False], and the database and the candidate object are as
    before (a pending candidate stays pending).  Whenever the call returns
    [False], for whatever reason, the database is as before the call.
    Whenever the call returns [True], the other record is not active, and
    the stored rows of a candidate that has an id are merged and carry the
    user as reviewer. *)
Theorem C3_merge_failure_behaviour :
  forall (w : world) (duplicate : potential_duplicate) (keep_record_id : Z) (user : string),
    (exists b s', merge_records keep_record_id user (w, duplicate) = (Ok b, s'))
    /\ (forall e w1,
           delete_other duplicate keep_record_id user w = (Raise e, w1) ->
           merge_records keep_record_id user (w, duplicate) = (Ok false, (w1, duplicate))
           /\ database w1 = database w)
    /\ (forall w' duplicate',
           merge_records keep_record_id user (w, duplicate) = (Ok false, (w', duplicate')) ->
           database w' = database w)
    /\ (forall w' duplicate',
           merge_records keep_record_id user (w, duplicate) = (Ok true, (w', duplicate')) ->
           record_active (database w') (pd_table_name duplicate)
                         (delete_id duplicate keep_record_id) = false
           /\ forall id, pd_id duplicate = Some id ->
                Forall (fun row => pd_status row = "merged" /\ pd_reviewed_by row = Some user)
                       (stored_with_id (database w') id)).
Proof.
  intros w dup keep user. rewrite merge_records_run.
  destruct (delete_other dup keep user w) as [[u|e] w1] eqn:D.
  - split; [|split; [|split]].
    + destruct (PotentialDuplicate.save _) as [[j|e] s2]; eauto.
    + intros e w2 X. discriminate.
    + intros w' dup'.
      destruct (PotentialDuplicate.save _) as [[j|e] [w2 d2]] eqn:S; [discriminate|].
      intros X; inversion X; subst; clear X.
      apply save_raises in S. rewrite S. apply (delete_other_absent _ _ _ _ _ _ D).
    + intros w' dup'.
      pose proof (save_same_entities
                    (w1, set_pd_reviewed_by (Some user) (set_pd_status "merged" dup))) as SE.
      destruct (PotentialDuplicate.save _) as [[j|e] [w2 d2]] eqn:S; [|discriminate].
      intros X; inversion X; subst; clear X. simpl in SE. split.
      * rewrite (record_active_same_entities _ _ _ _ SE).
        eapply delete_other_returns, D.
      * intros id Hid.
        apply (save_update_returns _ _ id) in S; [|exact Hid].
        destruct S as (_ & _ & F).
        eapply Forall_impl; [|exact F]. simpl. intros row (A & B & _). split; assumption.
  - split; [eauto|]. split; [|split].
    + intros e' w2 X. inversion X; subst. split; [reflexivity|].
      eapply delete_other_raises, D.
    + intros w' dup' X. inversion X; subst. eapply delete_other_raises, D.
    + intros w' dup' X. discriminate.
Qed.

Lemma C3_witness :
  (delete_other Sample.candidate12 1 "alice" Sample.world_review
     = (Raise DatabaseError, Sample.world_review)
   /\ merge_records 1 "alice" (Sample.world_review, Sample.candidate12)
      = (Ok false, (Sample.world_review, Sample.candidate12)))
  /\ (let w := set_faults [true] Sample.world_review in
      merge_records 1 "alice" (w, Sample.candidate12)
        = (Ok false, (Sample.world_review, Sample.candidate12))
      /\ database Sample.world_review = database w)
  /\ (let out := merge_records 1 "alice" (Sample.world_orphan, Sample.candidate12) in
      out = (Ok true, snd out)
      /\ record_active (database (fst (snd out))) "clients" 2 = false
      /\ Forall (fun row => pd_status row = "merged" /\ pd_reviewed_by row = Some "alice")
                (stored_with_id (database (fst (snd out))) 1)).
Proof.
  split; [|split].
  - assert (D : delete_other Sample.candidate12 1 "alice" Sample.world_review
                = (Raise DatabaseError, Sample.world_review)) by reflexivity.
    split; [exact D|].
    exact (proj1 (proj1 (proj2 (C3_merge_failure_behaviour
                                  Sample.world_review Sample.candidate12 1 "alice"))
                        _ _ D)).
  - intros w.
    assert (E : merge_records 1 "alice" (w, Sample.candidate12)
                = (Ok false, (Sample.world_review, Sample.candidate12))) by reflexivity.
    split; [exact E|].
    exact (proj1 (proj2 (proj2 (C3_merge_failure_behaviour w Sample.candidate12 1 "alice")))
                 _ _ E).
  - intros out.
    assert (E : merge_records 1 "alice" (Sample.world_orphan, Sample.candidate12)
                = (Ok true, (fst (snd out), snd (snd out)))) by reflexivity.
    split; [reflexivity|].
    destruct (proj2 (proj2 (proj2 (C3_merge_failure_behaviour
                                     Sample.world_orphan Sample.candidate12 1 "alice")))
                    _ _ E) as (A & F).
    split; [exact A|]. exact (F 1%Z eq_refl).
Defined.

(** The claim fails on the two active clients with their pending
    candidate, without any storage failure besides the lock: the soft
    delete of client 2 raises, and the error is not raised to the caller
    of [merge_records], which gets [False]. *)
Lemma C3_counterexample :
  record_active (database Sample.world_review) "clients" 2 = true
  /\ fst (Client.delete 2 "alice" Sample.world_review) = Raise DatabaseError
  /\ fst (delete_other Sample.candidate12 1 "alice" Sample.world_review)
     = Raise DatabaseError
  /\ merge_records 1 "alice" (Sample.world_review, Sample.candidate12)
     = (Ok false, (Sample.world_review, Sample.candidate12)).
Proof. repeat split. Qed.

(** Claim C2, amended.  [merge_records] does not validate the id to keep
    and raises no error for it.  For a keep id equal to neither record id
    of a candidate that has an id, the record chosen for deletion is the
    first of the pair, as it is for a keep id equal to the second.  With
    no storage failure: when this record is in the candidate's table, its
    soft delete raises, the call returns [False] and nothing changes; when
    it is not, the call returns [True], the entity tables are unchanged,
    and the candidate object and its stored rows become merged, reviewed by
    the user at the current time. *)
Theorem C2_merge_keep_id_not_validated :
  forall (w : world) (duplicate : potential_duplicate) (keep_record_id id : Z) (user : string),
    keep_record_id <> pd_record_id_1 duplicate ->
    keep_record_id <> pd_record_id_2 duplicate ->
    faults w = [] ->
    pd_id duplicate = Some id ->
    delete_id duplicate keep_record_id = pd_record_id_1 duplicate
    /\ (resolves (database w) (pd_table_name duplicate) (pd_record_id_1 duplicate) = true ->
        merge_records keep_record_id user (w, duplicate) = (Ok false, (w, duplicate)))
    /\ (resolves (database w) (pd_table_name duplicate) (pd_record_id_1 duplicate) = false ->
        exists w',
          merge_records keep_record_id user (w, duplicate)
          = (Ok true, (w', set_pd_reviewed_by (Some user) (set_pd_status "merged" duplicate)))
          /\ same_entities (database w) (database w')
          /\ Forall (fun row => pd_status row = "merged" /\ pd_reviewed_by row = Some user
                                /\ pd_reviewed_at row = Some (now w))
                    (stored_with_id (database w') id)).
Proof.
  intros w dup keep id user H1 _ Hf Hid.
  assert (Hdel : delete_id dup keep = pd_record_id_1 dup).
  { unfold delete_id. destruct (Z.eqb_spec keep (pd_record_id_1 dup)); congruence. }
  split; [exact Hdel|].
  rewrite merge_records_run, (delete_other_run dup keep user w Hf), Hdel.
  split; intros R; rewrite R; [reflexivity|].
  pose proof (save_same_entities
                (w, set_pd_reviewed_by (Some user) (set_pd_status "merged" dup))) as SE.
  rewrite (save_update_run w (set_pd_reviewed_by (Some user) (set_pd_status "merged" dup))
             id Hid) in *.
  rewrite Hf in *. simpl in *.
  eexists. split; [reflexivity|]. split; [exact SE|].
  unfold stored_with_id. simpl.
  exact (updated_rows_resolved id (now w)
           (set_pd_reviewed_by (Some user) (set_pd_status "merged" dup)) _).
Qed.

Lemma C2_witness :
  (delete_id Sample.candidate12 99 = 1%Z
   /\ merge_records 99 "alice" (Sample.world_review, Sample.candidate12)
      = (Ok false, (Sample.world_review, Sample.candidate12)))
  /\ (exists w',
         merge_records 99 "alice" (Sample.world_orphan_first, Sample.candidate12)
         = (Ok true, (w', set_pd_reviewed_by (Some "alice")
                            (set_pd_status "merged" Sample.candidate12)))
         /\ same_entities (database Sample.world_orphan_first) (database w')
         /\ Forall (fun row => pd_status row = "merged" /\ pd_reviewed_by row = Some "alice"
                               /\ pd_reviewed_at row = Some 2000%Z)
                   (stored_with_id (database w') 1)).
Proof.
  split.
  - destruct (C2_merge_keep_id_not_validated
                Sample.world_review Sample.candidate12 99 1 "alice")
      as (D & Y & _); [discriminate|discriminate|reflexivity|reflexivity|].
    split; [exact D|exact (Y eq_refl)].
  - destruct (C2_merge_keep_id_not_validated
                Sample.world_orphan_first Sample.candidate12 99 1 "alice")
      as (_ & _ & N); [discriminate|discriminate|reflexivity|reflexivity|].
    exact (N eq_refl).
Defined.

(** With a keep id that is neither 1 nor 2 no error is raised.  Where
    client 1 is not in the table, merge returns [True] and the stored
    candidate goes from pending to merged; where it is, merge returns
    [False]. *)
Lemma C2_counterexample :
  let out := merge_records 99 "alice" (Sample.world_orphan_first, Sample.candidate12) in
  99%Z <> pd_record_id_1 Sample.candidate12
  /\ 99%Z <> pd_record_id_2 Sample.candidate12
  /\ fst out = Ok true
  /\ map pd_status (stored_with_id (database Sample.world_orphan_first) 1) = ["pending"]
  /\ map pd_status (stored_with_id (database (fst (snd out))) 1) = ["merged"]
  /\ map pd_reviewed_by (stored_with_id (database (fst (snd out))) 1) = [Some "alice"]
  /\ fst (merge_records 99 "alice" (Sample.world_review, Sample.candidate12)) = Ok false.
Proof. repeat split; discriminate. Qed.

Lemma opt_map_none {A B} (f : A -> B) (o : option A) : opt_map f o = None <-> o = None.
Proof. destruct o; simpl; split; congruence. Qed.

(** Claim C5, amended.  With no storage failure [get_duplicate_details]
    returns a pair and leaves the world as it is; a position of the pair is
    [None] exactly when the record id of that position does not resolve
    in the candidate's table (always, for a table name that is none of the
    three).  No error is raised for a missing record. *)
Theorem C5_details_missing_record_is_None :
  forall (w : world) (duplicate : potential_duplicate),
    faults w = [] ->
    exists record1 record2,
      get_duplicate_details duplicate w = (Ok (record1, record2), w)
      /\ (record1 = None <->
          resolves (database w) (pd_table_name duplicate) (pd_record_id_1 duplicate) = false)
      /\ (record2 = None <->
          resolves (database w) (pd_table_name duplicate) (pd_record_id_2 duplicate) = false).
Proof.
  intros w dup Hf. unfold get_duplicate_details, resolves.
  unfold Client.get_by_id, Product.get_by_id, Supplier.get_by_id, bind, ret.
  destruct (String.eqb (pd_table_name dup) "clients").
  { rewrite get_by_id_run, Hf; simpl. rewrite (pop_fault_ok w Hf), get_by_id_run, Hf; simpl.
    rewrite (pop_fault_ok w Hf).
    eexists _, _. split; [reflexivity|].
    rewrite !opt_map_none.
    split; [exact (find_none_iff (T := client) (pd_record_id_1 dup) (clients (database w)))
          |exact (find_none_iff (T := client) (pd_record_id_2 dup) (clients (database w)))]. }
  destruct (String.eqb (pd_table_name dup) "products").
  { rewrite get_by_id_run, Hf; simpl. rewrite (pop_fault_ok w Hf), get_by_id_run, Hf; simpl.
    rewrite (pop_fault_ok w Hf).
    eexists _, _. split; [reflexivity|].
    rewrite !opt_map_none.
    split; [exact (find_none_iff (T := product) (pd_record_id_1 dup) (products (database w)))
          |exact (find_none_iff (T := product) (pd_record_id_2 dup) (products (database w)))]. }
  destruct (String.eqb (pd_table_name dup) "suppliers").
  { rewrite get_by_id_run, Hf; simpl. rewrite (pop_fault_ok w Hf), get_by_id_run, Hf; simpl.
    rewrite (pop_fault_ok w Hf).
    eexists _, _. split; [reflexivity|].
    rewrite !opt_map_none.
    split; [exact (find_none_iff (T := supplier) (pd_record_id_1 dup) (suppliers (database w)))
          |exact (find_none_iff (T := supplier) (pd_record_id_2 dup) (suppliers (database w)))]. }
  exists None, None. repeat split.
Qed.

Lemma C5_witness :
  exists record1 record2,
    get_duplicate_details Sample.candidate12 Sample.world_orphan
    = (Ok (record1, record2), Sample.world_orphan)
    /\ (record1 = None <-> resolves (database Sample.world_orphan) "clients" 1 = false)
    /\ (record2 = None <-> resolves (database Sample.world_orphan) "clients" 2 = false).
Proof.
  apply (C5_details_missing_record_is_None Sample.world_orphan Sample.candidate12).
  reflexivity.
Defined.

(** Client 2 of the candidate is gone: the call returns normally, with
    [None] in the second position. *)
Lemma C5_counterexample :
  resolves (database Sample.world_orphan) "clients" 2 = false
  /\ get_duplicate_details Sample.candidate12 Sample.world_orphan
     = (Ok (Some (AClient Sample.clientA), None), Sample.world_orphan).
Proof. split; reflexivity. Qed.

(** Claim C6, amended.  [run_all_duplicate_detection] runs the detection
    of clients, products and suppliers in this order and returns the three
    counts when all three return.  An error raised by the detection of one
    table is not caught: it is the outcome of the whole run, the later
    tables are not processed and no counts are returned. *)
Theorem C6_detection_failure_aborts_run :
  forall (threshold : Q) (w : world),
    (forall e w1,
        detect_client_duplicates threshold w = (Raise e, w1) ->
        run_all_duplicate_detection threshold w = (Raise e, w1))
    /\ (forall l1 w1 e w2,
           detect_client_duplicates threshold w = (Ok l1, w1) ->
           detect_product_duplicates threshold w1 = (Raise e, w2) ->
           run_all_duplicate_detection threshold w = (Raise e, w2))
    /\ (forall l1 w1 l2 w2 e w3,
           detect_client_duplicates threshold w = (Ok l1, w1) ->
           detect_product_duplicates threshold w1 = (Ok l2, w2) ->
           detect_supplier_duplicates threshold w2 = (Raise e, w3) ->
           run_all_duplicate_detection threshold w = (Raise e, w3))
    /\ (forall l1 w1 l2 w2 l3 w3,
           detect_client_duplicates threshold w = (Ok l1, w1) ->
           detect_product_duplicates threshold w1 = (Ok l2, w2) ->
           detect_supplier_duplicates threshold w2 = (Ok l3, w3) ->
           run_all_duplicate_detection threshold w
           = (Ok [("clients", List.length l1); ("products", List.length l2);
                  ("suppliers", List.length l3)], w3)).
Proof.
  intros thr w. unfold run_all_duplicate_detection, bind, ret.
  repeat split.
  - intros e w1 ->. reflexivity.
  - intros l1 w1 e w2 -> ->. reflexivity.
  - intros l1 w1 l2 w2 e w3 -> -> ->. reflexivity.
  - intros l1 w1 l2 w2 l3 w3 -> -> ->. reflexivity.
Qed.

Lemma C6_witness :
  let w := mkWorld Sample.db_products 1000 [true] in
  let w1 := mkWorld Sample.db_products 1000 [] in
  detect_client_duplicates (3 # 10) w = (Raise DatabaseError, w1)
  /\ run_all_duplicate_detection (3 # 10) w = (Raise DatabaseError, w1).
Proof.
  intros w w1.
  assert (D : detect_client_duplicates (3 # 10) w = (Raise DatabaseError, w1))
    by reflexivity.
  split; [exact D|].
  exact (proj1 (C6_detection_failure_aborts_run (3 # 10) w) _ _ D).
Defined.

(** The clients query fails: the run raises, and the two products that a
    run without failure pairs are never compared. *)
Lemma C6_counterexample :
  let w := mkWorld Sample.db_products 1000 [true] in
  let ok := mkWorld Sample.db_products 1000 [] in
  fst (run_all_duplicate_detection (3 # 10) ok)
  = Ok [("clients", 0%nat); ("products", 1%nat); ("suppliers", 0%nat)]
  /\ fst (run_all_duplicate_detection (3 # 10) w) = Raise DatabaseError
  /\ potential_duplicates (database (snd (run_all_duplicate_detection (3 # 10) w))) = [].
Proof. repeat split. Qed.

(** Claim C8, amended.  Saving a candidate that has no id enforces no
    uniqueness: with no storage failure it returns the next id and appends
    one row with the candidate's table name, record ids, score and status,
    so the number of rows stored for the pair (in either order) grows by
    one, whether or not the pair was stored already. *)
Theorem C8_insert_is_unconditional :
  forall (w : world) (duplicate : potential_duplicate),
    pd_id duplicate = None ->
    faults w = [] ->
    let new_id := (seq_potential_duplicates (database w) + 1)%Z in
    let key := same_pair (pd_table_name duplicate) (pd_record_id_1 duplicate)
                         (pd_record_id_2 duplicate) in
    exists w',
      PotentialDuplicate.save (w, duplicate)
      = (Ok new_id, (w', set_pd_id (Some new_id) duplicate))
      /\ potential_duplicates (database w')
         = potential_duplicates (database w)
           ++ [mkPD (Some new_id) (pd_table_name duplicate) (pd_record_id_1 duplicate)
                    (pd_record_id_2 duplicate) (pd_similarity_score duplicate)
                    (pd_status duplicate) None None (Some (now w))]
      /\ List.length (filter key (potential_duplicates (database w')))
         = S (List.length (filter key (potential_duplicates (database w)))).
Proof.
  intros w dup Hid Hf new_id key.
  rewrite (save_insert_run w dup Hid), Hf. simpl.
  eexists. split; [reflexivity|].
  cbn [database set_database potential_duplicates set_potential_duplicates].
  split; [reflexivity|].
  rewrite filter_app, length_app. cbn [filter].
  assert (K : key (mkPD (Some new_id) (pd_table_name dup) (pd_record_id_1 dup)
                        (pd_record_id_2 dup) (pd_similarity_score dup) (pd_status dup)
                        None None (Some (now w))) = true).
  { unfold key, same_pair. simpl. rewrite String.eqb_refl, !Z.eqb_refl. reflexivity. }
  unfold new_id in K. rewrite K. simpl. lia.
Qed.

Lemma C8_witness :
  exists w',
    PotentialDuplicate.save (Sample.world_review, Sample.fresh12)
    = (Ok 2%Z, (w', set_pd_id (Some 2%Z) Sample.fresh12))
    /\ potential_duplicates (database w')
       = [Sample.candidate12;
          mkPD (Some 2%Z) "clients" 1 2 (33 # 100) "pending" None None (Some 2000%Z)]
    /\ List.length (filter (same_pair "clients" 1 2) (potential_duplicates (database w')))
       = 2%nat.
Proof.
  apply (C8_insert_is_unconditional Sample.world_review Sample.fresh12); reflexivity.
Defined.

(** The pair (1, 2) of clients is stored; saving a new candidate for it
    returns normally and the table holds two rows for the pair. *)
Lemma C8_counterexample :
  let out := PotentialDuplicate.save (Sample.world_review, Sample.fresh12) in
  pair_stored (database Sample.world_review) "clients" 1 2 = true
  /\ fst out = Ok 2%Z
  /\ map (fun row => (pd_id row, pd_table_name row, pd_record_id_1 row, pd_record_id_2 row))
         (potential_duplicates (database (fst (snd out))))
     = [(Some 1%Z, "clients", 1%Z, 2%Z); (Some 2%Z, "clients", 1%Z, 2%Z)].
Proof. repeat split. Qed.

Lemma count_positive_existsb {A} (p : A -> bool) (l : list A) :
  (0 <? List.length (filter p l))%nat = existsb p l.
Proof.
  induction l as [|x l IH]; simpl; [reflexivity|].
  destruct (p x); simpl; [reflexivity|exact IH].
Qed.

Lemma existsb_map_same {A} (p : A -> bool) (f : A -> A) (l : list A) :
  (forall x, p (f x) = p x) -> existsb p (map f l) = existsb p l.
Proof.
  intros Hp. induction l as [|x l IH]; simpl; [reflexivity|].
  rewrite Hp, IH. reflexivity.
Qed.

Lemma duplicate_exists_ok table_name a b w :
  faults w = [] ->
  _duplicate_exists table_name a b w = (Ok (pair_stored (database w) table_name a b), w).
Proof.
  intros Hf. unfold _duplicate_exists, with_connection, bind, query, ret.
  rewrite execute_eq, Hf. simpl. rewrite (pop_fault_ok w Hf).
  unfold pair_stored. rewrite count_positive_existsb. reflexivity.
Qed.

Lemma same_pair_sym table_name a b row :
  same_pair table_name a b row = same_pair table_name b a row.
Proof. unfold same_pair. f_equal. apply orb_comm. Qed.

Lemma same_pair_status table_name a b st row :
  same_pair table_name a b (set_pd_status st row) = same_pair table_name a b row.
Proof. reflexivity. Qed.

Lemma duplicate_exists_sym table_name a b w :
  _duplicate_exists table_name a b w = _duplicate_exists table_name b a w.
Proof.
  unfold _duplicate_exists, with_connection, bind, query, ret.
  destruct (execute w) as [[u|e] w1]; [|reflexivity].
  rewrite (filter_ext _ _ (same_pair_sym table_name a b)). reflexivity.
Qed.

Section DetectRuns.
Context {T : Type} `{EntityLaws T}.
Variable similarity : T -> T -> Q.
Variable threshold : Q.

Lemma grows_refl w : faults w = [] -> grows (T := T) w w.
Proof. intros Hf. repeat split; auto. Qed.

Lemma grows_trans w1 w2 w3 : grows (T := T) w1 w2 -> grows (T := T) w2 w3 -> grows (T := T) w1 w3.
Proof.
  intros (F1 & R1 & P1) (F2 & R2 & P2). repeat split; auto. congruence.
Qed.

Lemma settled_grows w w' r1 r2 :
  grows (T := T) w w' -> settled similarity threshold (database w) r1 r2 -> settled similarity threshold (database w') r1 r2.
Proof. intros (_ & _ & P) S Q. apply P, S, Q. Qed.

Lemma detect_pair_ok r1 r2 acc w :
  faults w = [] ->
  exists acc' w',
    detect_pair similarity threshold r1 r2 acc w = (Ok acc', w')
    /\ grows (T := T) w w'
    /\ settled similarity threshold (database w') r1 r2
    /\ (settled similarity threshold (database w) r1 r2 -> acc' = acc /\ w' = w).
Proof.
  intros Hf. unfold detect_pair.
  destruct (Qle_bool threshold (similarity r1 r2)) eqn:Q.
  - unfold bind. rewrite (duplicate_exists_ok _ _ _ _ Hf).
    destruct (pair_stored (database w) ent_table_name (ent_id r1) (ent_id r2)) eqn:P.
    + simpl. exists acc, w. split; [reflexivity|]. split; [apply grows_refl, Hf|].
      split; [intros _; exact P|]. intros _. split; reflexivity.
    + simpl. unfold with_obj.
      rewrite save_insert_run by reflexivity. rewrite Hf. simpl.
      rewrite (pop_fault_ok w Hf).
      eexists _, _. split; [reflexivity|]. split; [|split].
      * split; [exact Hf|]. split; [simpl; apply rows_set_pds|].
        intros t a b. unfold pair_stored. simpl. rewrite existsb_app.
        intros ->. reflexivity.
      * intros _. unfold pair_stored. simpl. rewrite existsb_app.
        apply orb_true_iff. right. simpl.
        unfold same_pair. simpl. rewrite String.eqb_refl, !Z.eqb_refl. reflexivity.
      * intros S. specialize (S Q). congruence.
  - exists acc, w. split; [reflexivity|]. split; [apply grows_refl, Hf|].
    split; [intros X; congruence|]. intros _. split; reflexivity.
Qed.

Lemma detect_inner_ok r1 rest : forall acc w,
  faults w = [] ->
  exists acc' w',
    detect_inner similarity threshold r1 rest acc w = (Ok acc', w')
    /\ grows (T := T) w w'
    /\ Forall (settled similarity threshold (database w') r1) rest.
Proof.
  induction rest as [|r2 rest IH]; intros acc w Hf; simpl.
  - exists acc, w. split; [reflexivity|]. split; [apply grows_refl, Hf|constructor].
  - unfold bind.
    destruct (detect_pair_ok r1 r2 acc w Hf) as (acc1 & w1 & E1 & G1 & S1 & _).
    rewrite E1.
    destruct (IH acc1 w1 (proj1 G1)) as (acc2 & w2 & E2 & G2 & S2).
    exists acc2, w2. split; [exact E2|]. split; [eapply grows_trans; eauto|].
    constructor; [eapply settled_grows; eauto|exact S2].
Qed.

Lemma detect_outer_ok records : forall acc w,
  faults w = [] ->
  exists acc' w',
    detect_outer similarity threshold records acc w = (Ok acc', w')
    /\ grows (T := T) w w'
    /\ ForallOrdPairs (settled similarity threshold (database w')) records.
Proof.
  induction records as [|r1 rest IH]; intros acc w Hf; simpl.
  - exists acc, w. split; [reflexivity|]. split; [apply grows_refl, Hf|constructor].
  - unfold bind.
    destruct (detect_inner_ok r1 rest acc w Hf) as (acc1 & w1 & E1 & G1 & S1).
    rewrite E1.
    destruct (IH acc1 w1 (proj1 G1)) as (acc2 & w2 & E2 & G2 & S2).
    exists acc2, w2. split; [exact E2|]. split; [eapply grows_trans; eauto|].
    constructor; [|exact S2].
    eapply Forall_impl; [|exact S1]. intros r2. apply settled_grows, G2.
Qed.

Lemma detect_inner_settled r1 rest : forall acc w,
  faults w = [] ->
  Forall (settled similarity threshold (database w) r1) rest ->
  detect_inner similarity threshold r1 rest acc w = (Ok acc, w).
Proof.
  induction rest as [|r2 rest IH]; intros acc w Hf S; simpl; [reflexivity|].
  inversion S as [|? ? S2 Srest]; subst. unfold bind.
  destruct (detect_pair_ok r1 r2 acc w Hf) as (acc1 & w1 & E1 & _ & _ & Same).
  destruct (Same S2) as [-> ->]. rewrite E1. apply IH; assumption.
Qed.

Lemma detect_outer_settled records : forall acc w,
  faults w = [] ->
  ForallOrdPairs (settled similarity threshold (database w)) records ->
  detect_outer similarity threshold records acc w = (Ok acc, w).
Proof.
  induction records as [|r1 rest IH]; intros acc w Hf S; simpl; [reflexivity|].
  inversion S as [|? ? S1 Srest]; subst. unfold bind.
  rewrite (detect_inner_settled r1 rest acc w Hf S1). apply IH; assumption.
Qed.

Lemma get_all_ok status w :
  faults w = [] ->
  exists select : list T -> list T,
    forall w', faults w' = [] ->
      Repository.get_all (T := T) status w' = (Ok (select (ent_rows (database w'))), w').
Proof.
  intros _.
  exists (fun rows =>
            if PyStr.truthy_opt status
            then Repository.order_by_name
                   (filter (fun r => String.eqb (ent_status r)
                                       (match status with Some s => s | None => "" end))
                           rows)
            else Repository.order_by_name rows).
  intros w' Hf. unfold Repository.get_all, with_connection, bind, query.
  rewrite execute_eq, Hf. simpl. rewrite (pop_fault_ok w' Hf). reflexivity.
Qed.

(** Dismissing a stored candidate keeps every pair stored. *)
Lemma dismiss_grows w duplicate id user :
  faults w = [] ->
  pd_id duplicate = Some id ->
  grows (T := T) w (fst (snd (mark_as_not_duplicate user (w, duplicate)))).
Proof.
  intros Hf Hid. unfold mark_as_not_duplicate, try_except, bind, modify_obj, ret.
  rewrite (save_update_run w
             (set_pd_reviewed_by (Some user) (set_pd_status "not_duplicate" duplicate))
             id Hid).
  rewrite Hf. simpl. rewrite (pop_fault_ok w Hf).
  split; [exact Hf|]. split; [simpl; apply rows_set_pds|].
  intros t a b. unfold pair_stored. simpl. rewrite existsb_map_same; [tauto|].
  intros row. destruct (pd_id row) as [i|]; [|reflexivity].
  destruct (Z.eqb i id); reflexivity.
Qed.

(** A second run of detection over the same rows finds every pair
    settled and stores nothing, also after stored candidates have been
    dismissed. *)
Lemma detect_duplicates_twice w :
  faults w = [] ->
  exists found w1,
    detect_duplicates similarity threshold w = (Ok found, w1)
    /\ ent_rows (database w1) = ent_rows (database w)
    /\ detect_duplicates similarity threshold w1 = (Ok [], w1)
    /\ forall duplicate id user,
         pd_id duplicate = Some id ->
         let w2 := fst (snd (mark_as_not_duplicate user (w1, duplicate))) in
         detect_duplicates similarity threshold w2 = (Ok [], w2).
Proof.
  intros Hf. unfold detect_duplicates, bind.
  destruct (get_all_ok (Some "active") w Hf) as (select & Hsel).
  rewrite (Hsel w Hf).
  destruct (detect_outer_ok (select (ent_rows (database w))) [] w Hf)
    as (found & w1 & E & (F1 & R1 & P1) & S).
  exists found, w1. split; [exact E|]. split; [exact R1|]. split.
  - rewrite (Hsel w1 F1), R1. apply detect_outer_settled; assumption.
  - intros dup id user Hid.
    set (w2 := fst (snd (mark_as_not_duplicate user (w1, dup)))).
    pose proof (dismiss_grows w1 dup id user F1 Hid) as G. fold w2 in G.
    destruct G as (F2 & R2 & P2).
    rewrite (Hsel w2 F2), R2, R1.
    apply detect_outer_settled; [exact F2|].
    clear - S P2. induction S as [|r l Hr Hl IH]; constructor; [|exact IH].
    eapply Forall_impl; [|exact Hr]. intros r2 Hs Q. apply P2, Hs, Q.
Qed.
End DetectRuns.

(** Claim C7.  With no storage failure, detection on each of the three
    tables returns and leaves the entity rows as they are, and a second
    detection with the same threshold returns no candidate and leaves the
    world unchanged, for any candidates stored beforehand and also after
    stored candidates have been dismissed in between; the existence check
    gives the same answer for the two orders of the record ids and does
    not look at the status of a row. *)
Theorem C7_detect_idempotent :
  forall (threshold : Q) (w : world),
    faults w = [] ->
    (exists found w1,
        detect_client_duplicates threshold w = (Ok found, w1)
        /\ clients (database w1) = clients (database w)
        /\ detect_client_duplicates threshold w1 = (Ok [], w1)
        /\ forall duplicate id user,
             pd_id duplicate = Some id ->
             let w2 := fst (snd (mark_as_not_duplicate user (w1, duplicate))) in
             detect_client_duplicates threshold w2 = (Ok [], w2))
    /\ (exists found w1,
           detect_product_duplicates threshold w = (Ok found, w1)
           /\ products (database w1) = products (database w)
           /\ detect_product_duplicates threshold w1 = (Ok [], w1)
           /\ forall duplicate id user,
                pd_id duplicate = Some id ->
                let w2 := fst (snd (mark_as_not_duplicate user (w1, duplicate))) in
                detect_product_duplicates threshold w2 = (Ok [], w2))
    /\ (exists found w1,
           detect_supplier_duplicates threshold w = (Ok found, w1)
           /\ suppliers (database w1) = suppliers (database w)
           /\ detect_supplier_duplicates threshold w1 = (Ok [], w1)
           /\ forall duplicate id user,
                pd_id duplicate = Some id ->
                let w2 := fst (snd (mark_as_not_duplicate user (w1, duplicate))) in
                detect_supplier_duplicates threshold w2 = (Ok [], w2))
    /\ (forall table_name a b,
           _duplicate_exists table_name a b w = _duplicate_exists table_name b a w)
    /\ (forall table_name a b row status,
           same_pair table_name a b (set_pd_status status row)
           = same_pair table_name a b row).
Proof.
  intros thr w Hf. split; [|split; [|split; [|split]]].
  - exact (detect_duplicates_twice (T := client) _calculate_client_similarity thr w Hf).
  - exact (detect_duplicates_twice (T := product) _calculate_product_similarity thr w Hf).
  - exact (detect_duplicates_twice (T := supplier) _calculate_supplier_similarity thr w Hf).
  - intros. apply duplicate_exists_sym.
  - intros. apply same_pair_status.
Qed.

Lemma C7_witness :
  let w := mkWorld Sample.db_products 1000 [] in
  exists found w1,
    detect_product_duplicates (3 # 10) w = (Ok found, w1)
    /\ products (database w1) = products (database w)
    /\ detect_product_duplicates (3 # 10) w1 = (Ok [], w1)
    /\ forall duplicate id user,
         pd_id duplicate = Some id ->
         let w2 := fst (snd (mark_as_not_duplicate user (w1, duplicate))) in
         detect_product_duplicates (3 # 10) w2 = (Ok [], w2).
Proof.
  intros w.
  exact (proj1 (proj2 (C7_detect_idempotent (3 # 10) w eq_refl))).
Defined.

Lemma order_independent_refl x : order_independent x x.
Proof. unfold order_independent. reflexivity. Qed.

Lemma order_independent_empty x : order_independent x "" /\ order_independent "" x.
Proof.
  unfold order_independent, calculate_similarity. simpl.
  rewrite orb_true_r. split; reflexivity.
Qed.

(** The mean of two score lists that agree position by position. *)
Lemma mean_of_compat (l1 l2 : list Q) :
  Forall2 Qeq l1 l2 -> (mean_of l1 == mean_of l2)%Q.
Proof.
  intros F. unfold mean_of.
  assert (L : List.length l1 = List.length l2) by (eapply Forall2_length; eauto).
  assert (S : forall a b, (a == b)%Q ->
                (fold_left Qplus l1 a == fold_left Qplus l2 b)%Q).
  { clear L. induction F as [|x y l1 l2 Hxy F IH]; intros a b Hab; simpl; [exact Hab|].
    apply IH. rewrite Hab, Hxy. reflexivity. }
  destruct F as [|x y l1 l2 Hxy F]; [reflexivity|].
  rewrite L. rewrite (S 0%Q 0%Q (Qeq_refl 0)). reflexivity.
Qed.

Ltac scores_agree :=
  repeat (apply Forall2_app || apply Forall2_cons || apply Forall2_nil).

(** Claim C9, amended.  Each entity scorer gives the same score for
    (a, b) and (b, a) whenever the text similarity of each pair of compared
    text fields does not depend on the order of its arguments; the exact
    matches on document number and product code, the presence tests and
    the mean are symmetric. *)
Theorem C9_scorers_symmetric_where_text_is :
  (forall client1 client2 : client,
      order_independent (client_name client1) (client_name client2) ->
      order_independent (text (client_email client1)) (text (client_email client2)) ->
      order_independent (digits (client_phone client1)) (digits (client_phone client2)) ->
      (_calculate_client_similarity client1 client2
       == _calculate_client_similarity client2 client1)%Q)
  /\ (forall product1 product2 : product,
         order_independent (product_name product1) (product_name product2) ->
         order_independent (text (product_description product1))
                           (text (product_description product2)) ->
         (_calculate_product_similarity product1 product2
          == _calculate_product_similarity product2 product1)%Q)
  /\ (forall supplier1 supplier2 : supplier,
         order_independent (supplier_name supplier1) (supplier_name supplier2) ->
         order_independent (text (supplier_email supplier1)) (text (supplier_email supplier2)) ->
         order_independent (text (supplier_contact_person supplier1))
                           (text (supplier_contact_person supplier2)) ->
         (_calculate_supplier_similarity supplier1 supplier2
          == _calculate_supplier_similarity supplier2 supplier1)%Q).
Proof.
  unfold order_independent, digits. split; [|split].
  - intros c1 c2 Hn He Hp. unfold _calculate_client_similarity.
    rewrite (andb_comm (PyStr.truthy (normalize_document (client_document_number c2)))),
            (andb_comm (PyStr.truthy_opt (client_email c2))),
            (andb_comm (PyStr.truthy_opt (client_phone c2))),
            (String.eqb_sym (normalize_document (client_document_number c2))).
    apply mean_of_compat.
    destruct (_ && _), (_ && _), (_ && _); scores_agree;
      try (rewrite Hn; reflexivity); try (rewrite He; reflexivity);
      try (rewrite Hp; reflexivity); reflexivity.
  - intros p1 p2 Hn Hd. unfold _calculate_product_similarity.
    rewrite (andb_comm (PyStr.truthy (product_code p2))),
            (andb_comm (PyStr.truthy_opt (product_description p2))),
            (String.eqb_sym (PyStr.lower (product_code p2))).
    apply mean_of_compat.
    destruct (_ && _), (_ && _); scores_agree;
      try (rewrite Hn; reflexivity); try (rewrite Hd; reflexivity); reflexivity.
  - intros s1 s2 Hn He Hc. unfold _calculate_supplier_similarity.
    rewrite (andb_comm (PyStr.truthy (normalize_document (supplier_document_number s2)))),
            (andb_comm (PyStr.truthy_opt (supplier_email s2))),
            (andb_comm (PyStr.truthy_opt (supplier_contact_person s2))),
            (String.eqb_sym (normalize_document (supplier_document_number s2))).
    apply mean_of_compat.
    destruct (_ && _), (_ && _), (_ && _); scores_agree;
      try (rewrite Hn; reflexivity); try (rewrite He; reflexivity);
      try (rewrite Hc; reflexivity); reflexivity.
Qed.

Lemma C9_witness :
  (_calculate_client_similarity Sample.clientA Sample.clientB
   == _calculate_client_similarity Sample.clientB Sample.clientA)%Q.
Proof.
  apply (proj1 C9_scorers_symmetric_where_text_is Sample.clientA Sample.clientB);
    unfold order_independent; vm_compute; reflexivity.
Defined.

(** [SequenceMatcher] pairs "tide" with "diet" on one letter and "diet"
    with "tide" on two, so the text similarity is 1/4 one way and 1/2 the
    other, and so is the ranking of two clients with these names. *)
Lemma C9_counterexample :
  (calculate_similarity "tide" "diet" == 1 # 4)%Q
  /\ (calculate_similarity "diet" "tide" == 1 # 2)%Q
  /\ ~ (calculate_similarity "tide" "diet" == calculate_similarity "diet" "tide")%Q
  /\ ~ (_calculate_client_similarity Sample.tide Sample.diet
        == _calculate_client_similarity Sample.diet Sample.tide)%Q.
Proof.
  split; [vm_compute; reflexivity|]. split; [vm_compute; reflexivity|].
  split; intros E; vm_compute in E; discriminate.
Qed.

(** *** The matching blocks stay inside the two sequences *)

Lemma block_within_mono alo upto upto' blo bhi x :
  upto <= upto' -> block_within alo upto blo bhi x -> block_within alo upto' blo bhi x.
Proof. unfold block_within. lia. Qed.

Lemma inner_loop_within alo blo bhi i j2len js :
  alo <= i ->
  row_within alo blo i j2len ->
  forall newj2len bst,
    row_within alo blo (S i) newj2len ->
    block_within alo (S i) blo (Nat.max blo bhi) bst ->
    row_within alo blo (S i) (fst (inner_loop blo bhi i j2len js newj2len bst))
    /\ block_within alo (S i) blo (Nat.max blo bhi)
                    (snd (inner_loop blo bhi i j2len js newj2len bst)).
Proof.
  intros Hi Hrow. induction js as [|j js IH]; intros newj2len bst Hnew Hbst; simpl.
  - split; assumption.
  - destruct (Nat.ltb_spec j blo) as [Hlo|Hlo]; [apply IH; assumption|].
    destruct (Nat.leb_spec bhi j) as [Hhi|Hhi]; [split; assumption|].
    assert (Hk : j2len_prev j2len j + 1 <= S i - alo
                 /\ j2len_prev j2len j + 1 <= j + 1 - blo).
    { destruct j as [|p]; cbn [j2len_prev]; [lia|].
      destruct (Hrow p) as [H1 H2]. lia. }
    apply IH.
    + intros j'. simpl. destruct (Nat.eqb_spec j j') as [->|Hne]; [exact Hk|apply Hnew].
    + destruct (Nat.ltb_spec (bestsize bst) (j2len_prev j2len j + 1)); [|exact Hbst].
      unfold block_within. simpl. lia.
Qed.

Lemma outer_loop_within b alo blo bhi arest : forall i j2len bst,
  alo <= i ->
  row_within alo blo i j2len ->
  block_within alo i blo (Nat.max blo bhi) bst ->
  block_within alo (i + List.length arest) blo (Nat.max blo bhi)
               (outer_loop b blo bhi i arest j2len bst).
Proof.
  induction arest as [|ai arest IH]; intros i j2len bst Hi Hrow Hbst; simpl.
  - rewrite Nat.add_0_r. exact Hbst.
  - destruct (inner_loop_within alo blo bhi i j2len (b2j b ai) Hi Hrow [] bst) as [R B].
    + intros j. simpl. lia.
    + eapply block_within_mono; [|exact Hbst]. lia.
    + destruct (inner_loop blo bhi i j2len (b2j b ai) [] bst) as [newj2len bst'].
      simpl in R, B. replace (i + S (List.length arest)) with (S i + List.length arest) by lia.
      apply IH; [lia|exact R|exact B].
Qed.

Lemma extend_left_within a b alo blo upto bhi : forall bi bj bsz,
  block_within alo upto blo bhi (mkBest bi bj bsz) ->
  block_within alo upto blo bhi (extend_left a b alo blo bi bj bsz).
Proof.
  induction bi as [|bi' IH]; intros bj bsz Hb; simpl; [exact Hb|].
  destruct bj as [|bj']; [exact Hb|].
  destruct (Nat.ltb_spec alo (S bi')); simpl; [|exact Hb].
  destruct (Nat.ltb_spec blo (S bj')); simpl; [|exact Hb].
  destruct (same_elt a b bi' bj'); [|exact Hb].
  apply IH. unfold block_within in *. simpl in *. lia.
Qed.

Lemma extend_right_within a b alo blo ahi bhi room : forall bi bj bsz,
  block_within alo (Nat.max alo ahi) blo (Nat.max blo bhi) (mkBest bi bj bsz) ->
  block_within alo (Nat.max alo ahi) blo (Nat.max blo bhi)
               (extend_right a b ahi bhi room bi bj bsz).
Proof.
  induction room as [|room IH]; intros bi bj bsz Hb; simpl; [exact Hb|].
  destruct (Nat.ltb_spec (bi + bsz) ahi); simpl; [|exact Hb].
  destruct (Nat.ltb_spec (bj + bsz) bhi); simpl; [|exact Hb].
  destruct (same_elt a b (bi + bsz) (bj + bsz)); [|exact Hb].
  apply IH. unfold block_within in *. simpl in *. lia.
Qed.

(** The block [find_longest_match] returns lies in the two ranges. *)
Lemma find_longest_match_within a b alo ahi blo bhi :
  block_within alo (Nat.max alo ahi) blo (Nat.max blo bhi)
               (find_longest_match a b alo ahi blo bhi).
Proof.
  unfold find_longest_match.
  set (arest := firstn (ahi - alo) (skipn alo a)).
  set (bst1 := outer_loop b blo bhi alo arest [] (mkBest alo blo 0)).
  assert (B1 : block_within alo (Nat.max alo ahi) blo (Nat.max blo bhi) bst1).
  { eapply block_within_mono;
      [|apply (outer_loop_within b alo blo bhi arest alo [] (mkBest alo blo 0))].
    - assert (List.length arest <= ahi - alo) by (unfold arest; apply firstn_le_length). lia.
    - lia.
    - intros j. simpl. lia.
    - unfold block_within. simpl. lia. }
  set (bst2 := extend_left a b alo blo (besti bst1) (bestj bst1) (bestsize bst1)).
  assert (B2 : block_within alo (Nat.max alo ahi) blo (Nat.max blo bhi) bst2).
  { apply extend_left_within. destruct bst1; exact B1. }
  apply extend_right_within. destruct bst2; exact B2.
Qed.

Lemma fold_size_from (l : list best) (n : nat) :
  fold_left (fun acc x => acc + bestsize x) l n = n + total_size l.
Proof.
  unfold total_size. revert n. induction l as [|x l IH]; intros n; simpl; [lia|].
  rewrite (IH (n + bestsize x)), (IH (bestsize x)). lia.
Qed.

Lemma total_size_app l1 l2 : total_size (l1 ++ l2) = total_size l1 + total_size l2.
Proof. unfold total_size at 1. rewrite fold_left_app, fold_size_from. reflexivity. Qed.

Lemma total_size_cons x l : total_size (x :: l) = bestsize x + total_size l.
Proof. unfold total_size at 1. simpl. apply fold_size_from. Qed.

(** The blocks found in a range fit in it, on both sides. *)
Lemma matching_blocks_size a b fuel : forall alo ahi blo bhi,
  total_size (matching_blocks fuel a b alo ahi blo bhi) <= ahi - alo
  /\ total_size (matching_blocks fuel a b alo ahi blo bhi) <= bhi - blo.
Proof.
  induction fuel as [|fuel IH]; intros alo ahi blo bhi; simpl; [unfold total_size; simpl; lia|].
  pose proof (find_longest_match_within a b alo ahi blo bhi) as W.
  set (x := find_longest_match a b alo ahi blo bhi) in *.
  destruct W as (W1 & W2 & W3 & W4).
  destruct (Nat.eqb_spec (bestsize x) 0) as [Hz|Hz]; [unfold total_size; simpl; lia|].
  rewrite total_size_app, total_size_cons.
  assert (L : total_size (if ((alo <? besti x) && (blo <? bestj x))%nat
                          then matching_blocks fuel a b alo (besti x) blo (bestj x) else [])
              <= besti x - alo
              /\ total_size (if ((alo <? besti x) && (blo <? bestj x))%nat
                             then matching_blocks fuel a b alo (besti x) blo (bestj x) else [])
                 <= bestj x - blo).
  { match goal with |- context [if ?c then _ else _] => destruct c end;
      [apply IH|unfold total_size; simpl; lia]. }
  assert (R : total_size (if ((besti x + bestsize x <? ahi) && (bestj x + bestsize x <? bhi))%nat
                          then matching_blocks fuel a b (besti x + bestsize x) ahi
                                               (bestj x + bestsize x) bhi else [])
              <= ahi - (besti x + bestsize x)
              /\ total_size (if ((besti x + bestsize x <? ahi) && (bestj x + bestsize x <? bhi))%nat
                             then matching_blocks fuel a b (besti x + bestsize x) ahi
                                                  (bestj x + bestsize x) bhi else [])
                 <= bhi - (bestj x + bestsize x)).
  { match goal with |- context [if ?c then _ else _] => destruct c end;
      [apply IH|unfold total_size; simpl; lia]. }
  lia.
Qed.

(** The fuel of [get_matching_blocks] is never exhausted: any fuel above
    the length of the [a] range gives the same blocks. *)
Lemma matching_blocks_fuel a b : forall fuel1 fuel2 alo ahi blo bhi,
  ahi - alo < fuel1 -> ahi - alo < fuel2 ->
  matching_blocks fuel1 a b alo ahi blo bhi = matching_blocks fuel2 a b alo ahi blo bhi.
Proof.
  induction fuel1 as [|fuel1 IH]; intros fuel2 alo ahi blo bhi H1 H2; [lia|].
  destruct fuel2 as [|fuel2]; [lia|]. simpl.
  pose proof (find_longest_match_within a b alo ahi blo bhi) as W.
  set (x := find_longest_match a b alo ahi blo bhi) in *.
  destruct W as (W1 & W2 & W3 & W4).
  destruct (Nat.eqb_spec (bestsize x) 0) as [Hz|Hz]; [reflexivity|].
  f_equal; [|f_equal].
  - match goal with |- context [if ?c then _ else _] => destruct c end;
      [|reflexivity]. apply IH; lia.
  - match goal with |- context [if ?c then _ else _] => destruct c end;
      [|reflexivity]. apply IH; lia.
Qed.

Lemma matches_bound a b :
  2 * matches a b <= List.length a + List.length b.
Proof.
  unfold matches, get_matching_blocks.
  destruct (matching_blocks_size a b (S (List.length a)) 0 (List.length a) 0 (List.length b))
    as [Ha Hb].
  unfold total_size in *.
  set (m := fold_left _ _ 0) in *. clearbody m.
  set (la := List.length a) in *. set (lb := List.length b) in *. clearbody la lb. clear a b. lia.
Qed.

Lemma ratio_le_1 a b : (ratio a b <= 1)%Q.
Proof.
  unfold ratio, calculate_ratio.
  set (a' := list_ascii_of_string a). set (b' := list_ascii_of_string b).
  pose proof (matches_bound a' b') as Hm.
  destruct (Nat.eqb_spec (List.length a' + List.length b') 0) as [Hz|Hz]; [lra|].
  set (m := matches a' b') in *. set (len := (List.length a' + List.length b')%nat) in *.
  clearbody m len. clear a b a' b'.
  apply Qle_shift_div_r.
  - unfold Qlt. cbn [Qnum Qden inject_Z]. lia.
  - unfold Qle, Qmult. cbn [Qnum Qden inject_Z]. lia.
Qed.

Lemma calculate_similarity_le_1 x y : (calculate_similarity x y <= 1)%Q.
Proof.
  unfold calculate_similarity. destruct (_ || _); [lra|apply ratio_le_1].
Qed.

(** *** No score exceeds 0.4 *)

Ltac mean_cases :=
  repeat match goal with
         | |- context [if ?c then _ else _] => destruct c
         end;
  unfold mean_of; cbn [app fold_left List.length Z.of_nat Pos.of_succ_nat Pos.succ];
  unfold Qdiv; cbn [Qinv inject_Z Qnum Qden]; lra.

(** No pair of clients scores above 0.4, whatever fields are present. *)
Lemma client_score_at_most_two_fifths (client1 client2 : client) :
  (_calculate_client_similarity client1 client2 <= 4 # 10)%Q.
Proof.
  unfold _calculate_client_similarity.
  pose proof (calculate_similarity_le_1 (client_name client1) (client_name client2)).
  pose proof (calculate_similarity_le_1 (text (client_email client1))
                                        (text (client_email client2))).
  pose proof (calculate_similarity_le_1
                (PyStr.filter_join PyStr.isdigit (text (client_phone client1)))
                (PyStr.filter_join PyStr.isdigit (text (client_phone client2)))).
  mean_cases.
Qed.

Lemma product_score_at_most_two_fifths (product1 product2 : product) :
  (_calculate_product_similarity product1 product2 <= 4 # 10)%Q.
Proof.
  unfold _calculate_product_similarity.
  pose proof (calculate_similarity_le_1 (product_name product1) (product_name product2)).
  pose proof (calculate_similarity_le_1 (text (product_description product1))
                                        (text (product_description product2))).
  mean_cases.
Qed.

Lemma supplier_score_at_most_two_fifths (supplier1 supplier2 : supplier) :
  (_calculate_supplier_similarity supplier1 supplier2 <= 4 # 10)%Q.
Proof.
  unfold _calculate_supplier_similarity.
  pose proof (calculate_similarity_le_1 (supplier_name supplier1) (supplier_name supplier2)).
  pose proof (calculate_similarity_le_1 (text (supplier_email supplier1))
                                        (text (supplier_email supplier2))).
  pose proof (calculate_similarity_le_1 (text (supplier_contact_person supplier1))
                                        (text (supplier_contact_person supplier2))).
  mean_cases.
Qed.

Lemma all_pairs {A} (P : A -> A -> Prop) (l : list A) :
  (forall x y, P x y) -> ForallOrdPairs P l.
Proof.
  intros HP. induction l as [|x l IH]; constructor; [|exact IH].
  apply Forall_forall. intros y _. apply HP.
Qed.

Section Unreachable.
Context {T : Type} `{EntityLaws T}.
Variable similarity : T -> T -> Q.
Variable threshold : Q.
Hypothesis bounded : forall r1 r2, (similarity r1 r2 <= 4 # 10)%Q.
Hypothesis above : (4 # 10 < threshold)%Q.

(** A threshold above 0.4 is reached by no pair: detection stores
    nothing. *)
Lemma detect_duplicates_unreachable w :
  faults w = [] ->
  detect_duplicates similarity threshold w = (Ok [], w).
Proof.
  intros Hf. unfold detect_duplicates, bind.
  destruct (get_all_ok (T := T) (Some "active") w Hf) as (select & Hsel).
  rewrite (Hsel w Hf).
  apply detect_outer_settled; [exact Hf|].
  apply all_pairs. intros r1 r2 Q. apply Qle_bool_iff in Q.
  specialize (bounded r1 r2). lra.
Qed.
End Unreachable.

(** At the default threshold, and at every threshold above 0.4, detection
    creates no candidate on any of the three tables, whatever the rows. *)
Theorem detection_threshold_unreachable :
  forall (threshold : Q) (w : world),
    (4 # 10 < threshold)%Q ->
    faults w = [] ->
    detect_client_duplicates threshold w = (Ok [], w)
    /\ detect_product_duplicates threshold w = (Ok [], w)
    /\ detect_supplier_duplicates threshold w = (Ok [], w)
    /\ run_all_duplicate_detection threshold w
       = (Ok [("clients", 0%nat); ("products", 0%nat); ("suppliers", 0%nat)], w).
Proof.
  intros thr w Ht Hf.
  assert (C : detect_client_duplicates thr w = (Ok [], w)).
  { exact (detect_duplicates_unreachable (T := client) _ thr
             client_score_at_most_two_fifths Ht w Hf). }
  assert (P : detect_product_duplicates thr w = (Ok [], w)).
  { exact (detect_duplicates_unreachable (T := product) _ thr
             product_score_at_most_two_fifths Ht w Hf). }
  assert (S : detect_supplier_duplicates thr w = (Ok [], w)).
  { exact (detect_duplicates_unreachable (T := supplier) _ thr
             supplier_score_at_most_two_fifths Ht w Hf). }
  repeat split; try assumption.
  unfold run_all_duplicate_detection, bind, ret. rewrite C, P, S. reflexivity.
Qed.

(** Claim C1, on the code.  A client and a supplier with all four
    weighted fields present and non-empty score 1/4 against themselves, and
    a product with its three fields 1/3, not 1: the weighted field scores
    are divided by the number of fields, not by the sum of the weights.
    No record of any of the three types scores more than 0.4 against
    itself. *)
Theorem C1_identity_score_of_a_complete_record :
  (_calculate_client_similarity Sample.ana Sample.ana == 1 # 4)%Q
  /\ (_calculate_supplier_similarity Sample.acme Sample.acme == 1 # 4)%Q
  /\ (_calculate_product_similarity Sample.widget Sample.widget == 1 # 3)%Q
  /\ ~ (_calculate_client_similarity Sample.ana Sample.ana == 1)%Q
  /\ (forall r : client, (_calculate_client_similarity r r <= 4 # 10)%Q)
  /\ (forall r : supplier, (_calculate_supplier_similarity r r <= 4 # 10)%Q)
  /\ (forall r : product, (_calculate_product_similarity r r <= 4 # 10)%Q).
Proof.
  split; [vm_compute; reflexivity|]. split; [vm_compute; reflexivity|].
  split; [vm_compute; reflexivity|].
  split; [intros E; vm_compute in E; discriminate|].
  split; [intros r; apply client_score_at_most_two_fifths|].
  split; [intros r; apply supplier_score_at_most_two_fifths|].
  intros r; apply product_score_at_most_two_fifths.
Qed.

(** Claim C4, on the code.  For the two clients of the scenario the name
    similarity is 0.9 and the normalized documents are equal, the score is
    (0.9 * 0.4 + 1.0 * 0.3) / 2 = 0.33, below the default threshold 0.8, and
    detection over the two active clients creates no candidate.  No pair
    of clients reaches the default threshold. *)
Theorem C4_scenario_scores_below_threshold :
  (calculate_similarity (client_name Sample.clientA) (client_name Sample.clientB) == 9 # 10)%Q
  /\ normalize_document (client_document_number Sample.clientA)
     = normalize_document (client_document_number Sample.clientB)
  /\ (_calculate_client_similarity Sample.clientA Sample.clientB == 33 # 100)%Q
  /\ Qle_bool default_threshold
              (_calculate_client_similarity Sample.clientA Sample.clientB) = false
  /\ detect_client_duplicates default_threshold Sample.world_AB = (Ok [], Sample.world_AB)
  /\ (forall client1 client2 : client,
         Qle_bool default_threshold
                  (_calculate_client_similarity client1 client2) = false).
Proof.
  split; [vm_compute; reflexivity|]. split; [vm_compute; reflexivity|].
  split; [vm_compute; reflexivity|]. split; [vm_compute; reflexivity|].
  split; [vm_compute; reflexivity|].
  intros c1 c2.
  destruct (Qle_bool default_threshold (_calculate_client_similarity c1 c2)) eqn:E;
    [|reflexivity].
  apply Qle_bool_iff in E. pose proof (client_score_at_most_two_fifths c1 c2) as B.
  unfold default_threshold in E. lra.
Qed.

(* ===================================================================== *)
(** ** Further properties of the service and the models *)
(* ===================================================================== *)

(** *** Characters *)

Lemma lower_char_idempotent c : PyStr.lower_char (PyStr.lower_char c) = PyStr.lower_char c.
Proof. destruct c as [[] [] [] [] [] [] [] []]; reflexivity. Qed.

Lemma isalnum_lower_char c : PyStr.isalnum (PyStr.lower_char c) = PyStr.isalnum c.
Proof. destruct c as [[] [] [] [] [] [] [] []]; reflexivity. Qed.

Lemma isspace_lower_char c : PyStr.isspace (PyStr.lower_char c) = PyStr.isspace c.
Proof. destruct c as [[] [] [] [] [] [] [] []]; reflexivity. Qed.

Lemma lower_idempotent s : PyStr.lower (PyStr.lower s) = PyStr.lower s.
Proof.
  induction s as [|c s IH]; simpl; [reflexivity|].
  rewrite lower_char_idempotent, IH. reflexivity.
Qed.

Lemma truthy_lower s : PyStr.truthy (PyStr.lower s) = PyStr.truthy s.
Proof. destruct s; reflexivity. Qed.

Lemma filter_join_lower (p : ascii -> bool) s :
  (forall c, p (PyStr.lower_char c) = p c) ->
  PyStr.filter_join p (PyStr.lower s) = PyStr.lower (PyStr.filter_join p s).
Proof.
  intros Hp. induction s as [|c s IH]; simpl; [reflexivity|].
  rewrite Hp. destruct (p c); simpl; rewrite IH; reflexivity.
Qed.

Lemma filter_join_idempotent (p : ascii -> bool) s :
  PyStr.filter_join p (PyStr.filter_join p s) = PyStr.filter_join p s.
Proof.
  induction s as [|c s IH]; simpl; [reflexivity|].
  destruct (p c) eqn:E; simpl; [rewrite E, IH; reflexivity|exact IH].
Qed.

Lemma filter_join_all (p : ascii -> bool) s :
  Forall (fun c => p c = true) (list_ascii_of_string (PyStr.filter_join p s)).
Proof.
  induction s as [|c s IH]; simpl; [constructor|].
  destruct (p c) eqn:E; simpl; [constructor; assumption|exact IH].
Qed.

(** [normalize_document] without the test for the empty string, which
    changes nothing. *)
Lemma normalize_document_eq d :
  normalize_document d = PyStr.filter_join PyStr.isalnum (PyStr.lower d).
Proof. destruct d; reflexivity. Qed.

Lemma lower_fixed_filter_join (p : ascii -> bool) s :
  PyStr.lower s = s -> PyStr.lower (PyStr.filter_join p s) = PyStr.filter_join p s.
Proof.
  induction s as [|c s IH]; simpl; [reflexivity|].
  intros E. injection E as Ec Es.
  destruct (p c); simpl; [rewrite Ec, (IH Es); reflexivity|exact (IH Es)].
Qed.

(** Extra X1.  [normalize_document] yields a canonical form: only
    alphanumeric characters are left, normalizing twice is normalizing
    once, and the letter case of the input does not matter.  For a
    document without capital letters (one that [lower] leaves as it is,
    as the digits and separators of a CPF or CNPJ) the separators do not
    matter either. *)
Theorem X1_normalize_document_canonical :
  forall document : string,
    Forall (fun c => PyStr.isalnum c = true)
           (list_ascii_of_string (normalize_document document))
    /\ normalize_document (normalize_document document) = normalize_document document
    /\ normalize_document (PyStr.lower document) = normalize_document document
    /\ (PyStr.lower document = document ->
        normalize_document (PyStr.filter_join PyStr.isalnum document)
        = normalize_document document).
Proof.
  intros d. rewrite !normalize_document_eq. split; [apply filter_join_all|].
  split; [|split].
  - rewrite (filter_join_lower _ d isalnum_lower_char), lower_idempotent.
    rewrite (filter_join_lower _ _ isalnum_lower_char), filter_join_idempotent.
    reflexivity.
  - rewrite lower_idempotent. reflexivity.
  - intros E. rewrite (lower_fixed_filter_join _ d E), E.
    apply filter_join_idempotent.
Qed.

Lemma X1_witness :
  normalize_document (PyStr.filter_join PyStr.isalnum "123.456.789-01")
  = normalize_document "123.456.789-01".
Proof.
  exact (proj2 (proj2 (proj2 (X1_normalize_document_canonical "123.456.789-01")))
               eq_refl).
Defined.

(** *** The text similarity *)

Lemma ratio_nonneg a b : (0 <= ratio a b)%Q.
Proof.
  unfold ratio, calculate_ratio.
  set (m := matches _ _). set (len := (_ + _)%nat). clearbody m len.
  destruct (Nat.eqb_spec len 0) as [Hz|Hz]; [lra|].
  apply Qle_shift_div_l.
  - unfold Qlt. cbn [Qnum Qden inject_Z]. lia.
  - unfold Qle, Qmult. cbn [Qnum Qden inject_Z]. lia.
Qed.

Lemma calculate_similarity_nonneg x y : (0 <= calculate_similarity x y)%Q.
Proof.
  unfold calculate_similarity. destruct (_ || _); [lra|apply ratio_nonneg].
Qed.

(** Extra X2.  The text similarity is a number between 0 and 1, and it is
    0 as soon as one of the two texts is empty. *)
Theorem X2_calculate_similarity_range :
  forall text1 text2 : string,
    (0 <= calculate_similarity text1 text2)%Q
    /\ (calculate_similarity text1 text2 <= 1)%Q
    /\ calculate_similarity "" text2 = 0%Q
    /\ calculate_similarity text1 "" = 0%Q.
Proof.
  intros x y. split; [|split; [apply calculate_similarity_le_1|split]].
  - apply calculate_similarity_nonneg.
  - reflexivity.
  - unfold calculate_similarity. simpl. rewrite orb_true_r. reflexivity.
Qed.

Lemma lower_lstrip s : PyStr.lower (PyStr.lstrip s) = PyStr.lstrip (PyStr.lower s).
Proof.
  induction s as [|c s IH]; simpl; [reflexivity|].
  rewrite isspace_lower_char. destruct (PyStr.isspace c); [exact IH|reflexivity].
Qed.

Lemma lower_rstrip s : PyStr.lower (PyStr.rstrip s) = PyStr.rstrip (PyStr.lower s).
Proof.
  induction s as [|c s IH]; simpl; [reflexivity|].
  rewrite <- IH, isspace_lower_char.
  destruct (PyStr.rstrip s) as [|c' r]; simpl; [|reflexivity].
  destruct (PyStr.isspace c); reflexivity.
Qed.

Lemma lower_strip s : PyStr.lower (PyStr.strip s) = PyStr.strip (PyStr.lower s).
Proof. unfold PyStr.strip. rewrite lower_rstrip, lower_lstrip. reflexivity. Qed.

Lemma rstrip_idempotent s : PyStr.rstrip (PyStr.rstrip s) = PyStr.rstrip s.
Proof.
  induction s as [|c s IH]; simpl; [reflexivity|].
  destruct (PyStr.rstrip s) as [|c' r] eqn:E.
  - destruct (PyStr.isspace c) eqn:Ec; simpl; [reflexivity|]. rewrite Ec. reflexivity.
  - simpl in IH. simpl. rewrite IH. reflexivity.
Qed.

(** A string that does not start with a space keeps its first character
    under [rstrip], unless nothing is left. *)
Lemma lstrip_rstrip_head c s :
  PyStr.isspace c = false ->
  PyStr.lstrip (PyStr.rstrip (String c s)) = PyStr.rstrip (String c s).
Proof.
  intros Ec. simpl.
  destruct (PyStr.rstrip s) as [|c' r]; rewrite ?Ec; simpl; rewrite Ec; reflexivity.
Qed.

Lemma lstrip_cases s :
  PyStr.lstrip s = "" \/ exists c r, PyStr.lstrip s = String c r /\ PyStr.isspace c = false.
Proof.
  induction s as [|c s IH]; simpl; [left; reflexivity|].
  destruct (PyStr.isspace c) eqn:E; [exact IH|]. right. eauto.
Qed.

Lemma strip_idempotent s : PyStr.strip (PyStr.strip s) = PyStr.strip s.
Proof.
  unfold PyStr.strip.
  destruct (lstrip_cases s) as [E|(c & r & E & Hc)]; rewrite E; [reflexivity|].
  rewrite (lstrip_rstrip_head c r Hc). apply rstrip_idempotent.
Qed.

(** Extra X3.  The text similarity ignores the letter case of both texts,
    and the white space around a text that is not all white space. *)
Theorem X3_calculate_similarity_ignores_case_and_margins :
  forall text1 text2 : string,
    calculate_similarity (PyStr.lower text1) (PyStr.lower text2)
    = calculate_similarity text1 text2
    /\ (PyStr.truthy (PyStr.strip text1) = true ->
        PyStr.truthy (PyStr.strip text2) = true ->
        calculate_similarity (PyStr.strip text1) (PyStr.strip text2)
        = calculate_similarity text1 text2).
Proof.
  intros x y. split.
  - unfold calculate_similarity. rewrite !truthy_lower, !lower_idempotent. reflexivity.
  - intros Hx Hy. unfold calculate_similarity. rewrite Hx, Hy.
    assert (Tx : PyStr.truthy x = true) by (destruct x; [discriminate|reflexivity]).
    assert (Ty : PyStr.truthy y = true) by (destruct y; [discriminate|reflexivity]).
    rewrite Tx, Ty. simpl.
    rewrite !lower_strip, !strip_idempotent. reflexivity.
Qed.

Lemma X3_witness :
  calculate_similarity (PyStr.strip "  Ana Lima ") (PyStr.strip "ana  lima   ")
  = calculate_similarity "  Ana Lima " "ana  lima   ".
Proof.
  apply (proj2 (X3_calculate_similarity_ignores_case_and_margins
                  "  Ana Lima " "ana  lima   ")); reflexivity.
Defined.

(** *** A text matched against itself *)

Lemma diag_run_step a j :
  diag_run a j = if unpopular a j then diag_before a j + 1 else 0.
Proof. destruct j; reflexivity. Qed.

Lemma indices_from_spec c b : forall from j,
  In j (indices_from from c b) <->
  from <= j /\ exists x, nth_error b (j - from) = Some x /\ aeqb x c = true.
Proof.
  induction b as [|y b IH]; intros from j; simpl.
  - split; [tauto|]. intros (_ & x & E & _). destruct (j - from); discriminate.
  - destruct (aeqb y c) eqn:Ey; simpl; rewrite ?IH.
    + split.
      * intros [<-|(Hle & x & E & Hx)].
        -- split; [lia|]. exists y. rewrite Nat.sub_diag. auto.
        -- split; [lia|]. exists x. replace (j - from) with (S (j - S from)) by lia. auto.
      * intros (Hle & x & E & Hx).
        destruct (Nat.eq_dec from j) as [->|Hne]; [left; reflexivity|right].
        split; [lia|]. exists x. replace (j - from) with (S (j - S from)) in E by lia. auto.
    + split.
      * intros (Hle & x & E & Hx). split; [lia|]. exists x.
        replace (j - from) with (S (j - S from)) by lia. auto.
      * intros (Hle & x & E & Hx).
        destruct (Nat.eq_dec from j) as [->|Hne].
        -- rewrite Nat.sub_diag in E. simpl in E. congruence.
        -- split; [lia|]. exists x.
           replace (j - from) with (S (j - S from)) in E by lia. auto.
Qed.

Lemma indices_from_sorted c b : forall from,
  StronglySorted lt (indices_from from c b).
Proof.
  induction b as [|y b IH]; intros from; simpl; [constructor|].
  destruct (aeqb y c); [|apply IH].
  constructor; [apply IH|].
  apply Forall_forall. intros j Hj. apply indices_from_spec in Hj. lia.
Qed.

Lemma aeqb_true x y : aeqb x y = true -> x = y.
Proof. unfold aeqb. apply Ascii.eqb_eq. Qed.

Section Diagonal.

Variable a : seq.

Lemma inner_loop_diag i ai j2len :
  nth_error a i = Some ai ->
  popular a ai = false ->
  row_below_diag a i j2len ->
  forall js newj2len bst,
    StronglySorted lt js ->
    (forall j, In j js -> j < List.length a /\ unpopular a j = true) ->
    best_on_diag a i bst ->
    (forall p, j2len_get newj2len p <= diag_run a p /\ j2len_get newj2len p <= diag_run a i) ->
    (In i js /\ j2len_get newj2len i = 0
     \/ diag_run a i <= bestsize bst /\ j2len_get newj2len i = diag_run a i) ->
    let out := inner_loop 0 (List.length a) i j2len js newj2len bst in
    row_below_diag a (S i) (fst out) /\ best_on_diag a (S i) (snd out).
Proof.
  intros Hai Hpop [Hrow Hdiag].
  assert (Ui : unpopular a i = true) by (unfold unpopular; rewrite Hai, Hpop; reflexivity).
  assert (Di : diag_run a i = diag_before a i + 1) by (rewrite diag_run_step, Ui; reflexivity).
  induction js as [|j js IH]; intros newj2len bst Hsort Hjs [Hb1 Hb2] Hnew Hstate; simpl.
  - destruct Hstate as [[[] _]|[Hd He]].
    split; [split; [exact Hnew|exact He]|].
    split; [exact Hb1|]. intros j Hj.
    destruct (Nat.eq_dec j i) as [->|Hne]; [exact Hd|apply Hb2; lia].
  - destruct (Hjs j (or_introl eq_refl)) as [Hjn Uj].
    destruct (Nat.leb_spec (List.length a) j) as [Hge|_]; [lia|].
    assert (Dj : diag_run a j = diag_before a j + 1)
      by (rewrite diag_run_step, Uj; reflexivity).
    assert (Hk1 : j2len_prev j2len j + 1 <= diag_run a j).
    { rewrite Dj. destruct j as [|p]; simpl; [lia|]. destruct (Hrow p). lia. }
    assert (Hk2 : j2len_prev j2len j + 1 <= diag_run a i).
    { rewrite Di. destruct j as [|p]; simpl; [lia|]. destruct (Hrow p). lia. }
    inversion Hsort as [|? ? Hsort' Hall]; subst.
    apply IH; clear IH.
    + exact Hsort'.
    + intros j' Hj'. apply Hjs. right. exact Hj'.
    + destruct (Nat.ltb_spec (bestsize bst) (j2len_prev j2len j + 1)) as [Hlt|Hle];
        [|split; assumption].
      split; simpl.
      * destruct (Nat.lt_trichotomy j i) as [Hji|[->|Hji]]; [|reflexivity|].
        -- specialize (Hb2 j Hji). lia.
        -- destruct Hstate as [[[Hij|Hin] _]|[Hd _]]; [lia| |lia].
           rewrite Forall_forall in Hall. specialize (Hall i Hin). lia.
      * intros j' Hj'. specialize (Hb2 j' Hj'). lia.
    + intros p. simpl. destruct (Nat.eqb_spec j p) as [->|Hne]; [split; assumption|apply Hnew].
    + destruct (Nat.lt_trichotomy j i) as [Hji|[->|Hji]].
      * destruct Hstate as [[[Hij|Hin] Hz]|[Hd He]]; [lia| |].
        -- left. split; [exact Hin|]. simpl.
           destruct (Nat.eqb_spec j i); [lia|exact Hz].
        -- right. split.
           ++ destruct (Nat.ltb_spec (bestsize bst) (j2len_prev j2len j + 1)); simpl; lia.
           ++ simpl. destruct (Nat.eqb_spec j i); [lia|exact He].
      * right. rewrite Hdiag, <- Di. split.
        -- destruct (Nat.ltb_spec (bestsize bst) (diag_run a i)); simpl; lia.
        -- simpl. rewrite Nat.eqb_refl. reflexivity.
      * assert (Hd : diag_run a i <= bestsize bst
                     /\ j2len_get newj2len i = diag_run a i).
        { destruct Hstate as [[[Hij|Hin] _]|H]; [lia| |exact H].
          rewrite Forall_forall in Hall. specialize (Hall i Hin). lia. }
        destruct Hd as [Hd He]. right. split.
        -- destruct (Nat.ltb_spec (bestsize bst) (j2len_prev j2len j + 1)); simpl; lia.
        -- simpl. destruct (Nat.eqb_spec j i); [lia|exact He].
Qed.

Lemma outer_loop_diag arest : forall i j2len bst,
  skipn i a = arest ->
  row_below_diag a i j2len ->
  best_on_diag a i bst ->
  besti (outer_loop a 0 (List.length a) i arest j2len bst)
  = bestj (outer_loop a 0 (List.length a) i arest j2len bst).
Proof.
  induction arest as [|ai arest IH]; intros i j2len bst Hskip Hrow Hbst; simpl.
  - apply Hbst.
  - assert (Hai : nth_error a i = Some ai).
    { rewrite <- (firstn_skipn i a) at 1.
      assert (Hi : i < List.length a).
      { destruct (Nat.lt_ge_cases i (List.length a)) as [H|H]; [exact H|].
        rewrite skipn_all2 in Hskip by exact H. discriminate. }
      rewrite nth_error_app2 by (rewrite length_firstn; lia).
      rewrite length_firstn, Nat.min_l, Nat.sub_diag, Hskip by lia. reflexivity. }
    assert (Hnext : skipn (S i) a = arest).
    { replace (S i) with (1 + i) by lia. rewrite <- skipn_skipn, Hskip. reflexivity. }
    unfold b2j. destruct (popular a ai) eqn:Hpop.
    + simpl. apply IH; [exact Hnext| |].
      * assert (U : unpopular a i = false) by (unfold unpopular; rewrite Hai, Hpop; reflexivity).
        split; [intros p; simpl; lia|]. simpl. rewrite diag_run_step, U. reflexivity.
      * destruct Hbst as [Hb1 Hb2]. split; [exact Hb1|]. intros j Hj.
        destruct (Nat.eq_dec j i) as [->|Hne]; [|apply Hb2; lia].
        rewrite diag_run_step. unfold unpopular. rewrite Hai, Hpop. simpl. lia.
    + pose proof (inner_loop_diag i ai j2len Hai Hpop Hrow
                    (indices_from 0 ai a) [] bst (indices_from_sorted ai a 0)) as H.
      destruct (inner_loop 0 (List.length a) i j2len (indices_from 0 ai a) [] bst)
        as [newj2len bst'].
      destruct H as [Hrow' Hbst'].
      * intros j Hj. apply indices_from_spec in Hj. destruct Hj as (_ & x & E & Hx).
        rewrite Nat.sub_0_r in E. split; [apply nth_error_Some; congruence|].
        unfold unpopular. rewrite E. apply aeqb_true in Hx. subst x.
        rewrite Hpop. reflexivity.
      * exact Hbst.
      * intros p. simpl. lia.
      * left. split; [|reflexivity]. apply indices_from_spec. split; [lia|].
        exists ai. rewrite Nat.sub_0_r. split; [exact Hai|apply Ascii.eqb_refl].
      * apply IH; assumption.
Qed.

Lemma same_elt_diag p : p < List.length a -> same_elt a a p p = true.
Proof.
  intros Hp. unfold same_elt, nth_elt.
  destruct (nth_error a p) as [x|] eqn:E; [apply Ascii.eqb_refl|].
  apply nth_error_None in E. lia.
Qed.

Lemma extend_left_diag : forall bi bsz,
  bi <= List.length a ->
  extend_left a a 0 0 bi bi bsz = mkBest 0 0 (bsz + bi).
Proof.
  induction bi as [|bi IH]; intros bsz Hb; simpl; [rewrite Nat.add_0_r; reflexivity|].
  rewrite same_elt_diag by lia. simpl. rewrite IH by lia. f_equal. lia.
Qed.

Lemma extend_right_diag : forall room bsz,
  bsz + room = List.length a ->
  extend_right a a (List.length a) (List.length a) room 0 0 bsz
  = mkBest 0 0 (List.length a).
Proof.
  induction room as [|room IH]; intros bsz Hb; simpl.
  - f_equal. lia.
  - destruct (Nat.ltb_spec bsz (List.length a)) as [_|H]; [|lia].
    rewrite same_elt_diag by lia. simpl. apply IH. lia.
Qed.

(** The longest match of a sequence with itself is the whole sequence. *)
Lemma find_longest_match_self :
  find_longest_match a a 0 (List.length a) 0 (List.length a)
  = mkBest 0 0 (List.length a).
Proof.
  unfold find_longest_match. rewrite Nat.sub_0_r. simpl skipn.
  rewrite firstn_all.
  set (bst1 := outer_loop a 0 (List.length a) 0 a [] (mkBest 0 0 0)).
  assert (Hd : besti bst1 = bestj bst1).
  { apply outer_loop_diag; [reflexivity| |].
    - split; [intros p; simpl; lia|reflexivity].
    - split; [reflexivity|]. intros j Hj. lia. }
  assert (Hw : block_within 0 (0 + List.length a) 0 (Nat.max 0 (List.length a)) bst1).
  { apply outer_loop_within; [lia| |].
    - intros j. simpl. lia.
    - unfold block_within. simpl. lia. }
  destruct Hw as (_ & Hw & _).
  rewrite <- Hd, extend_left_diag by lia. simpl.
  apply extend_right_diag. lia.
Qed.

Lemma matches_self : matches a a = List.length a.
Proof.
  unfold matches, get_matching_blocks. simpl matching_blocks.
  rewrite find_longest_match_self. simpl.
  destruct (Nat.eqb_spec (List.length a) 0) as [Hz|Hz]; [simpl; lia|].
  rewrite Nat.ltb_irrefl. simpl. reflexivity.
Qed.

End Diagonal.

Lemma ratio_self s : (ratio s s == 1)%Q.
Proof.
  unfold ratio. rewrite matches_self. unfold calculate_ratio.
  set (n := List.length (list_ascii_of_string s)). clearbody n.
  destruct (Nat.eqb_spec (n + n) 0) as [Hz|Hz]; [reflexivity|].
  assert (E : (2 * inject_Z (Z.of_nat n) == inject_Z (Z.of_nat (n + n)))%Q).
  { unfold Qeq, Qmult. cbn [Qnum Qden inject_Z]. lia. }
  rewrite E. apply Qmult_inv_r.
  unfold Qeq. cbn [Qnum Qden inject_Z]. lia.
Qed.

Lemma calculate_similarity_self x :
  PyStr.truthy x = true -> (calculate_similarity x x == 1)%Q.
Proof.
  intros Hx. unfold calculate_similarity. rewrite Hx. simpl. apply ratio_self.
Qed.

(** Extra X4.  A text that is not empty has similarity 1 with itself, also
    when it differs from itself in letter case only; this includes a text
    made of white space only. *)
Theorem X4_calculate_similarity_identical :
  forall text1 : string,
    PyStr.truthy text1 = true ->
    (calculate_similarity text1 text1 == 1)%Q
    /\ (calculate_similarity text1 (PyStr.lower text1) == 1)%Q.
Proof.
  intros x Hx. unfold calculate_similarity.
  rewrite truthy_lower, lower_idempotent, Hx. simpl. split; apply ratio_self.
Qed.

Lemma X4_witness :
  (calculate_similarity "Ana Lima" "Ana Lima" == 1)%Q
  /\ (calculate_similarity "Ana Lima" (PyStr.lower "Ana Lima") == 1)%Q.
Proof. apply (X4_calculate_similarity_identical "Ana Lima"). reflexivity. Defined.

(** *** The entity scorers *)

(** Extra X5.  Each entity scorer returns a number between 0 and 0.4. *)
Theorem X5_scores_between_0_and_two_fifths :
  (forall client1 client2 : client,
      (0 <= _calculate_client_similarity client1 client2 <= 4 # 10)%Q)
  /\ (forall product1 product2 : product,
         (0 <= _calculate_product_similarity product1 product2 <= 4 # 10)%Q)
  /\ (forall supplier1 supplier2 : supplier,
         (0 <= _calculate_supplier_similarity supplier1 supplier2 <= 4 # 10)%Q).
Proof.
  split; [|split].
  - intros c1 c2. split; [|apply client_score_at_most_two_fifths].
    unfold _calculate_client_similarity.
    pose proof (calculate_similarity_nonneg (client_name c1) (client_name c2)).
    pose proof (calculate_similarity_nonneg (text (client_email c1))
                                            (text (client_email c2))).
    pose proof (calculate_similarity_nonneg
                  (PyStr.filter_join PyStr.isdigit (text (client_phone c1)))
                  (PyStr.filter_join PyStr.isdigit (text (client_phone c2)))).
    mean_cases.
  - intros p1 p2. split; [|apply product_score_at_most_two_fifths].
    unfold _calculate_product_similarity.
    pose proof (calculate_similarity_nonneg (product_name p1) (product_name p2)).
    pose proof (calculate_similarity_nonneg (text (product_description p1))
                                            (text (product_description p2))).
    mean_cases.
  - intros s1 s2. split; [|apply supplier_score_at_most_two_fifths].
    unfold _calculate_supplier_similarity.
    pose proof (calculate_similarity_nonneg (supplier_name s1) (supplier_name s2)).
    pose proof (calculate_similarity_nonneg (text (supplier_email s1))
                                            (text (supplier_email s2))).
    pose proof (calculate_similarity_nonneg (text (supplier_contact_person s1))
                                            (text (supplier_contact_person s2))).
    mean_cases.
Qed.

(** *** Soft delete *)

Lemma delete_generic {T : Type} `{EntityLaws T} :
  delete_behaviour (Repository.delete (T := T)).
Proof.
  intros id user w. split; [apply delete_keeps_database|].
  split; [|split].
  - intros b w' E. apply delete_returns_false in E. tauto.
  - apply delete_known_raises.
  - intros Hf Ex. rewrite delete_run, Hf, Ex. simpl. rewrite (pop_fault_ok w Hf).
    reflexivity.
Qed.

(** Extra X7.  [delete] of the three entity models never deletes.  For
    an id that is in the table it raises, under every schedule of storage
    failures: the audit entry is inserted through a second connection
    while the UPDATE of the first one is not committed, the INSERT finds
    the database locked, and the UPDATE is rolled back.  [delete] returns
    only for an id that is not in the table, and then [False].  In every
    outcome the database is as before the call. *)
Theorem X7_delete_never_deletes :
  delete_behaviour (T := client) Client.delete
  /\ delete_behaviour (T := product) Product.delete
  /\ delete_behaviour (T := supplier) Supplier.delete.
Proof.
  split; [exact (delete_generic (T := client))|].
  split; [exact (delete_generic (T := product))|exact (delete_generic (T := supplier))].
Qed.

Lemma X7_witness :
  (exists w', Client.delete 2 "alice" Sample.world_review = (Raise DatabaseError, w'))
  /\ database (snd (Client.delete 2 "alice" Sample.world_review))
     = database Sample.world_review
  /\ Client.delete 3 "alice" Sample.world_review = (Ok false, Sample.world_review).
Proof.
  destruct (proj1 X7_delete_never_deletes 2%Z "alice" Sample.world_review)
    as (K & _ & Y & _).
  destruct (proj1 X7_delete_never_deletes 3%Z "alice" Sample.world_review)
    as (_ & _ & _ & N).
  split; [exact (Y eq_refl)|]. split; [exact K|exact (N eq_refl eq_refl)].
Defined.

(** *** Resolving a candidate *)

Lemma entities_and_audit_kept_refl d : entities_and_audit_kept d d.
Proof. repeat split. Qed.

Lemma entities_and_audit_kept_trans a b c :
  entities_and_audit_kept a b -> entities_and_audit_kept b c -> entities_and_audit_kept a c.
Proof.
  intros (E1 & A1 & S1) (E2 & A2 & S2).
  split; [eapply same_entities_trans; eauto|]. split; congruence.
Qed.

(** [save] stays within every relation that allows a change of the
    candidate table. *)
Lemma keepsO_save (R : db -> db -> Prop) :
  (forall d, R d d) -> (forall a b c, R a b -> R b c -> R a c) ->
  (forall l s d, R d (set_potential_duplicates l s d)) ->
  keepsO R PotentialDuplicate.save.
Proof.
  intros Rr Rt Rp. unfold PotentialDuplicate.save.
  apply keepsO_bind; [exact Rt|apply keepsO_get_obj, Rr|].
  intros self. destruct (pd_id self) as [id|].
  - apply keepsO_bind; [exact Rt| |intros; apply keepsO_ret, Rr].
    apply keepsO_liftW, keepsW_with_connection; [exact Rr|].
    unfold PotentialDuplicate.update_row.
    apply keepsW_bind; [exact Rt|apply keepsW_execute, Rr|intros _].
    apply keepsW_bind; [exact Rt|apply keepsW_timestamp, Rr|intros ts].
    apply keepsW_update. intros d. apply Rp.
  - apply keepsO_bind; [exact Rt| |intros new_id].
    + apply keepsO_liftW, keepsW_with_connection; [exact Rr|].
      unfold PotentialDuplicate.insert_row.
      apply keepsW_bind; [exact Rt|apply keepsW_execute, Rr|intros _].
      apply keepsW_bind; [exact Rt|apply keepsW_timestamp, Rr|intros ts].
      apply keepsW_bind; [exact Rt|apply keepsW_query, Rr|intros i].
      apply keepsW_bind; [exact Rt| |intros; apply keepsW_ret, Rr].
      apply keepsW_update. intros d. apply Rp.
    + apply keepsO_bind; [exact Rt|apply keepsO_modify_obj, Rr|].
      intros; apply keepsO_ret, Rr.
Qed.

Lemma update_map_resolved o id ts (rows : list potential_duplicate) user status :
  pd_status o = status -> pd_reviewed_by o = Some user ->
  map (fun row =>
         match pd_id row with
         | Some i =>
             if Z.eqb i id
             then set_pd_reviewed_at (Some ts)
                    (set_pd_reviewed_by (pd_reviewed_by o) (set_pd_status (pd_status o) row))
             else row
         | None => row
         end) rows
  = resolved_table status user ts id rows.
Proof.
  intros -> ->. unfold resolved_table. apply map_ext. intros row.
  unfold row_has_id. destruct (pd_id row) as [i|]; reflexivity.
Qed.

(** Extra X8.  [mark_as_not_duplicate] never raises and never touches the
    entity tables or the audit trail.  On a candidate that has an id, with
    no storage failure, it returns [True]; the stored rows with this id
    get status not_duplicate, the user as reviewer and the current time,
    whatever their status was, every other row is unchanged, and the
    candidate object carries the new status and reviewer. *)
Theorem X8_dismiss :
  forall (w : world) (duplicate : potential_duplicate) (user : string),
    (exists b s', mark_as_not_duplicate user (w, duplicate) = (Ok b, s'))
    /\ entities_and_audit_kept
         (database w)
         (database (fst (snd (mark_as_not_duplicate user (w, duplicate)))))
    /\ forall id,
         pd_id duplicate = Some id ->
         faults w = [] ->
         exists w',
           mark_as_not_duplicate user (w, duplicate)
           = (Ok true,
              (w', set_pd_reviewed_by (Some user) (set_pd_status "not_duplicate" duplicate)))
           /\ potential_duplicates (database w')
              = resolved_table "not_duplicate" user (now w) id
                               (potential_duplicates (database w))
           /\ seq_potential_duplicates (database w')
              = seq_potential_duplicates (database w)
           /\ faults w' = [] /\ now w' = now w.
Proof.
  intros w dup user.
  set (dup' := set_pd_reviewed_by (Some user) (set_pd_status "not_duplicate" dup)).
  assert (E : mark_as_not_duplicate user (w, dup)
              = match PotentialDuplicate.save (w, dup') with
                | (Ok _, s2) => (Ok true, s2)
                | (Raise _, s2) => (Ok false, s2)
                end).
  { unfold mark_as_not_duplicate, try_except, bind, modify_obj, ret. fold dup'.
    destruct (PotentialDuplicate.save (w, dup')) as [[j|e] s2]; reflexivity. }
  rewrite E. split; [|split].
  - destruct (PotentialDuplicate.save (w, dup')) as [[j|e] s2]; eauto.
  - pose proof (keepsO_save entities_and_audit_kept entities_and_audit_kept_refl
                  entities_and_audit_kept_trans) as K.
    specialize (K (fun l s d => ltac:(repeat split)) (w, dup')).
    destruct (PotentialDuplicate.save (w, dup')) as [[j|e] s2]; exact K.
  - intros id Hid Hf.
    rewrite (save_update_run w dup' id Hid), Hf. simpl. rewrite (pop_fault_ok w Hf).
    eexists. split; [reflexivity|]. simpl.
    split; [apply (update_map_resolved dup'); reflexivity|]. repeat split. exact Hf.
Qed.

Lemma X8_witness :
  exists w',
    mark_as_not_duplicate "bob" (Sample.world_review, Sample.candidate12)
    = (Ok true,
       (w', set_pd_reviewed_by (Some "bob")
              (set_pd_status "not_duplicate" Sample.candidate12)))
    /\ potential_duplicates (database w')
       = [mkPD (Some 1%Z) "clients" 1 2 (33 # 100) "not_duplicate" (Some "bob")
               (Some 2000%Z) (Some 1000%Z)]
    /\ seq_potential_duplicates (database w') = 1%Z
    /\ faults w' = [] /\ now w' = 2000%Z.
Proof.
  exact (proj2 (proj2 (X8_dismiss Sample.world_review Sample.candidate12 "bob"))
               1%Z eq_refl eq_refl).
Defined.

Lemma rows_untouched_refl {T : Type} `{Entity T} id (l : list T) :
  rows_untouched_except id l l.
Proof. induction l; constructor; auto. Qed.

Lemma rows_untouched_trans {T : Type} `{Entity T} id (l1 l2 l3 : list T) :
  rows_untouched_except id l1 l2 -> rows_untouched_except id l2 l3 ->
  rows_untouched_except id l1 l3.
Proof.
  intros F. revert l3. induction F as [|x y l1 l2 Hxy F IH]; intros l3 G;
    inversion G as [|? z ? l3' Hyz G']; subst; constructor.
  - intros Hx. specialize (Hxy Hx). subst y. auto.
  - apply IH, G'.
Qed.

Lemma others_untouched_refl id d : others_untouched id d d.
Proof. repeat split; apply rows_untouched_refl. Qed.

Lemma others_untouched_trans id a b c :
  others_untouched id a b -> others_untouched id b c -> others_untouched id a c.
Proof.
  intros (C1 & P1 & S1) (C2 & P2 & S2).
  repeat split; eapply rows_untouched_trans; eauto.
Qed.

(** The database after [delete]: as before, or with the rows marked and
    an audit entry added. *)
Lemma delete_other_others dup keep user w :
  others_untouched (delete_id dup keep) (database w)
                   (database (snd (delete_other dup keep user w))).
Proof. rewrite delete_other_keeps_database. apply others_untouched_refl. Qed.

(** Extra X10.  Whatever the outcome of [merge_records], also when a
    storage failure interrupts it, the only entity rows that can differ
    afterwards are those whose id is the id chosen for deletion: every
    other row of the three entity tables is where it was and as it was.
    The record to keep is among these other rows whenever the two record
    ids of the candidate differ. *)
Theorem X10_merge_touches_only_the_deleted_id :
  forall (w : world) (duplicate : potential_duplicate) (keep_record_id : Z) (user : string),
    others_untouched (delete_id duplicate keep_record_id)
                     (database w)
                     (database (fst (snd (merge_records keep_record_id user (w, duplicate)))))
    /\ (pd_record_id_1 duplicate <> pd_record_id_2 duplicate ->
        delete_id duplicate keep_record_id <> keep_record_id).
Proof.
  intros w dup keep user. split.
  - rewrite merge_records_run.
    pose proof (delete_other_others dup keep user w) as D.
    destruct (delete_other dup keep user w) as [[u|e] w1]; [|exact D].
    pose proof (keepsO_save (others_untouched (delete_id dup keep))
                  (others_untouched_refl _) (others_untouched_trans _)
                  (fun l s d => others_untouched_refl _ _)
                  (w1, set_pd_reviewed_by (Some user) (set_pd_status "merged" dup))) as S.
    destruct (PotentialDuplicate.save _) as [[j|e] [w2 d2]];
      simpl in *; eapply others_untouched_trans; eauto.
  - intros Hne. unfold delete_id.
    destruct (Z.eqb_spec keep (pd_record_id_1 dup)) as [->|Hk]; congruence.
Qed.

Lemma X10_witness :
  others_untouched 2 (database Sample.world_review)
    (database (fst (snd (merge_records 1 "alice" (Sample.world_review, Sample.candidate12)))))
  /\ delete_id Sample.candidate12 1 <> 1%Z.
Proof.
  split.
  - exact (proj1 (X10_merge_touches_only_the_deleted_id
                    Sample.world_review Sample.candidate12 1 "alice")).
  - apply (proj2 (X10_merge_touches_only_the_deleted_id
                    Sample.world_review Sample.candidate12 1 "alice")).
    discriminate.
Defined.

(** [merge_records] without storage failure, by cases on the record to
    delete. *)
Lemma merge_run w dup id keep user :
  pd_id dup = Some id -> faults w = [] ->
  (resolves (database w) (pd_table_name dup) (delete_id dup keep) = true ->
   merge_records keep user (w, dup) = (Ok false, (w, dup)))
  /\ (resolves (database w) (pd_table_name dup) (delete_id dup keep) = false ->
      exists w',
        merge_records keep user (w, dup)
        = (Ok true, (w', set_pd_reviewed_by (Some user) (set_pd_status "merged" dup)))
        /\ potential_duplicates (database w')
           = resolved_table "merged" user (now w) id (potential_duplicates (database w))
        /\ entities_and_audit_kept (database w) (database w')
        /\ faults w' = [] /\ now w' = now w).
Proof.
  intros Hid Hf. rewrite merge_records_run, (delete_other_run dup keep user w Hf).
  split; intros R; rewrite R; [reflexivity|].
  rewrite (save_update_run w (set_pd_reviewed_by (Some user) (set_pd_status "merged" dup))
             id Hid).
  rewrite Hf. simpl. rewrite (pop_fault_ok w Hf).
  eexists. split; [reflexivity|]. simpl.
  split; [apply (update_map_resolved
                   (set_pd_reviewed_by (Some user) (set_pd_status "merged" dup)));
          reflexivity|].
  repeat split. exact Hf.
Qed.

(** Extra X9.  [merge_records] on a candidate that has an id, with no
    storage failure, returns [True] exactly when there is nothing to
    delete.  When the record chosen for deletion is in the candidate's
    table, its soft delete raises and the call returns [False] with the
    world and the candidate object as before: no record is deleted and the
    candidate keeps its status.  When the record is not in the table (or
    the table name is none of the three), the call returns [True] and
    resolves the stored rows of the candidate as merged by the user at the
    current time, leaving the other candidate rows, the entity tables and
    the audit trail unchanged. *)
Theorem X9_merge_outcome :
  forall (w : world) (duplicate : potential_duplicate) (keep_record_id id : Z) (user : string),
    pd_id duplicate = Some id ->
    faults w = [] ->
    let table_name := pd_table_name duplicate in
    let deleted := delete_id duplicate keep_record_id in
    (resolves (database w) table_name deleted = true ->
     merge_records keep_record_id user (w, duplicate) = (Ok false, (w, duplicate)))
    /\ (resolves (database w) table_name deleted = false ->
        exists w',
          merge_records keep_record_id user (w, duplicate)
          = (Ok true, (w', set_pd_reviewed_by (Some user) (set_pd_status "merged" duplicate)))
          /\ potential_duplicates (database w')
             = resolved_table "merged" user (now w) id (potential_duplicates (database w))
          /\ entities_and_audit_kept (database w) (database w')
          /\ faults w' = [] /\ now w' = now w).
Proof.
  intros w dup keep id user Hid Hf tbl del. exact (merge_run w dup id keep user Hid Hf).
Qed.

Lemma X9_witness :
  merge_records 1 "alice" (Sample.world_review, Sample.candidate12)
  = (Ok false, (Sample.world_review, Sample.candidate12))
  /\ exists w',
       merge_records 1 "alice" (Sample.world_orphan, Sample.candidate12)
       = (Ok true, (w', set_pd_reviewed_by (Some "alice")
                          (set_pd_status "merged" Sample.candidate12)))
       /\ potential_duplicates (database w')
          = resolved_table "merged" "alice" 2000 1
                           (potential_duplicates (database Sample.world_orphan))
       /\ entities_and_audit_kept (database Sample.world_orphan) (database w')
       /\ faults w' = [] /\ now w' = 2000%Z.
Proof.
  split.
  - exact (proj1 (X9_merge_outcome Sample.world_review Sample.candidate12 1 1 "alice"
                    eq_refl eq_refl) eq_refl).
  - exact (proj2 (X9_merge_outcome Sample.world_orphan Sample.candidate12 1 1 "alice"
                    eq_refl eq_refl) eq_refl).
Defined.

(** Extra X11.  When the statement that updates the candidate fails, both
    resolutions return [False] with the database as it was, but the
    candidate object they were given already carries the new status and
    the reviewer: after a failed dismissal it says not_duplicate; after a
    merge whose delete step found nothing to delete and returned, it says
    merged. *)
Theorem X11_failed_update_leaves_object_changed :
  forall (w : world) (duplicate : potential_duplicate) (keep_record_id id : Z) (user : string),
    pd_id duplicate = Some id ->
    (hd false (faults w) = true ->
     exists w',
       mark_as_not_duplicate user (w, duplicate)
       = (Ok false,
          (w', set_pd_reviewed_by (Some user) (set_pd_status "not_duplicate" duplicate)))
       /\ database w' = database w)
    /\ (forall u w1,
           delete_other duplicate keep_record_id user w = (Ok u, w1) ->
           hd false (faults w1) = true ->
           exists w',
             merge_records keep_record_id user (w, duplicate)
             = (Ok false,
                (w', set_pd_reviewed_by (Some user) (set_pd_status "merged" duplicate)))
             /\ database w' = database w).
Proof.
  intros w dup keep id user Hid. split.
  - intros Hh. unfold mark_as_not_duplicate, try_except, bind, modify_obj, ret.
    rewrite (save_update_run w
               (set_pd_reviewed_by (Some user) (set_pd_status "not_duplicate" dup)) id Hid).
    rewrite Hh. eexists. split; [reflexivity|apply database_pop_fault].
  - intros u w1 D Hh. rewrite merge_records_run, D.
    rewrite (save_update_run w1
               (set_pd_reviewed_by (Some user) (set_pd_status "merged" dup)) id Hid).
    rewrite Hh. eexists. split; [reflexivity|].
    rewrite database_pop_fault. apply (delete_other_absent _ _ _ _ _ _ D).
Qed.

Lemma X11_witness :
  (exists w',
      mark_as_not_duplicate "alice"
        (set_faults [true] Sample.world_review, Sample.candidate12)
      = (Ok false,
         (w', set_pd_reviewed_by (Some "alice")
                (set_pd_status "not_duplicate" Sample.candidate12)))
      /\ database w' = database Sample.world_review)
  /\ (exists w',
         merge_records 1 "alice"
           (set_faults [false; true] Sample.world_orphan, Sample.candidate12)
         = (Ok false,
            (w', set_pd_reviewed_by (Some "alice")
                   (set_pd_status "merged" Sample.candidate12)))
         /\ database w' = database Sample.world_orphan).
Proof.
  split.
  - exact (proj1 (X11_failed_update_leaves_object_changed
                    (set_faults [true] Sample.world_review) Sample.candidate12 1 1 "alice"
                    eq_refl) eq_refl).
  - pose (w := set_faults [false; true] Sample.world_orphan).
    assert (D : delete_other Sample.candidate12 1 "alice" w
                = (Ok tt, snd (delete_other Sample.candidate12 1 "alice" w)))
      by reflexivity.
    exact (proj2 (X11_failed_update_leaves_object_changed
                    w Sample.candidate12 1 1 "alice" eq_refl) _ _ D eq_refl).
Defined.

(** *** Listings and counts *)

Lemma insert_by_name_perm {T : Type} `{Entity T} (x : T) l :
  Permutation (Repository.insert_by_name x l) (x :: l).
Proof.
  induction l as [|y l IH]; simpl; [reflexivity|].
  destruct (String.leb (ent_name x) (ent_name y)); [reflexivity|].
  rewrite IH. apply perm_swap.
Qed.

Lemma order_by_name_perm {T : Type} `{Entity T} (l : list T) :
  Permutation (Repository.order_by_name l) l.
Proof.
  induction l as [|x l IH]; simpl; [reflexivity|].
  rewrite insert_by_name_perm. constructor. exact IH.
Qed.

Lemma leb_false_flip s1 s2 : String.leb s1 s2 = false -> String.leb s2 s1 = true.
Proof. intros E. destruct (String.leb_total s1 s2) as [X|X]; congruence. Qed.

Lemma insert_by_name_sorted {T : Type} `{Entity T} (x : T) l :
  Sorted by_name l -> Sorted by_name (Repository.insert_by_name x l).
Proof.
  induction l as [|y l IH]; intros S; simpl.
  - repeat constructor.
  - destruct (String.leb (ent_name x) (ent_name y)) eqn:E.
    + constructor; [exact S|]. constructor. exact E.
    + inversion S as [|? ? Sl Hd]; subst.
      constructor; [apply IH, Sl|].
      destruct l as [|z l]; simpl.
      * constructor. apply leb_false_flip, E.
      * destruct (String.leb (ent_name x) (ent_name z)).
        -- constructor. apply leb_false_flip, E.
        -- inversion Hd; subst. constructor. assumption.
Qed.

Lemma order_by_name_sorted {T : Type} `{Entity T} (l : list T) :
  Sorted by_name (Repository.order_by_name l).
Proof.
  induction l as [|x l IH]; simpl; [constructor|].
  apply insert_by_name_sorted, IH.
Qed.

Lemma insert_by_score_perm x l :
  Permutation (PotentialDuplicate.insert_by_score x l) (x :: l).
Proof.
  induction l as [|y l IH]; simpl; [reflexivity|].
  destruct (Qle_bool (pd_similarity_score y) (pd_similarity_score x)); [reflexivity|].
  rewrite IH. apply perm_swap.
Qed.

Lemma order_by_score_perm l :
  Permutation (fold_right PotentialDuplicate.insert_by_score [] l) l.
Proof.
  induction l as [|x l IH]; simpl; [reflexivity|].
  rewrite insert_by_score_perm. constructor. exact IH.
Qed.

Lemma Qle_bool_false_flip a b : Qle_bool a b = false -> (b <= a)%Q.
Proof.
  intros E. destruct (Qlt_le_dec b a) as [L|L]; [apply Qlt_le_weak, L|].
  apply Qle_bool_iff in L. congruence.
Qed.

Lemma insert_by_score_sorted x l :
  Sorted by_score_desc l -> Sorted by_score_desc (PotentialDuplicate.insert_by_score x l).
Proof.
  induction l as [|y l IH]; intros S; simpl.
  - repeat constructor.
  - destruct (Qle_bool (pd_similarity_score y) (pd_similarity_score x)) eqn:E.
    + constructor; [exact S|]. constructor. apply Qle_bool_iff, E.
    + inversion S as [|? ? Sl Hd]; subst.
      constructor; [apply IH, Sl|].
      destruct l as [|z l]; simpl.
      * constructor. apply Qle_bool_false_flip, E.
      * destruct (Qle_bool (pd_similarity_score z) (pd_similarity_score x)).
        -- constructor. apply Qle_bool_false_flip, E.
        -- inversion Hd; subst. constructor. assumption.
Qed.

Lemma order_by_score_sorted l :
  Sorted by_score_desc (fold_right PotentialDuplicate.insert_by_score [] l).
Proof.
  induction l as [|x l IH]; simpl; [constructor|].
  apply insert_by_score_sorted, IH.
Qed.

Lemma set_database_pop_fault w : set_database (database w) (pop_fault w) = pop_fault w.
Proof. rewrite <- (database_pop_fault w). apply set_database_same. Qed.

(** A call that issues one SELECT: it raises when the statement fails and
    returns what the SELECT reads otherwise; the database is the same. *)
Lemma select_run {A} (f : db -> A) w :
  with_connection (execute ;; query f) w
  = (if hd false (faults w) then Raise DatabaseError else Ok (f (database w)), pop_fault w).
Proof.
  unfold with_connection, bind, query. rewrite execute_eq.
  destruct (hd false (faults w)); simpl.
  - rewrite set_database_pop_fault. reflexivity.
  - rewrite database_pop_fault. reflexivity.
Qed.

Lemma get_all_run {T : Type} `{Entity T} status w :
  Repository.get_all (T := T) status w
  = (if hd false (faults w) then Raise DatabaseError
     else Ok (Repository.order_by_name (filter (selected status) (ent_rows (database w)))),
     pop_fault w).
Proof.
  unfold Repository.get_all. rewrite select_run.
  destruct (hd false (faults w)); [reflexivity|]. f_equal. f_equal.
  unfold selected. destruct (PyStr.truthy_opt status); [reflexivity|].
  f_equal. symmetry. apply forallb_filter_id. apply forallb_forall. reflexivity.
Qed.

Lemma get_pending_run table_name w :
  PotentialDuplicate.get_pending table_name w
  = (if hd false (faults w) then Raise DatabaseError
     else Ok (fold_right PotentialDuplicate.insert_by_score []
                (filter (pending_of table_name) (potential_duplicates (database w)))),
     pop_fault w).
Proof. unfold PotentialDuplicate.get_pending. apply select_run. Qed.

Section Listing.

Context {T : Type} `{Entity T}.

Lemma get_all_listing status w :
  hd false (faults w) = false ->
  exists l, Repository.get_all (T := T) status w = (Ok l, pop_fault w)
            /\ listing status w l.
Proof.
  intros Hf. rewrite get_all_run, Hf. eexists. split; [reflexivity|].
  split; [apply order_by_name_sorted|]. split; [apply order_by_name_perm|].
  intros r.
  assert (P : In r (Repository.order_by_name (filter (selected status) (ent_rows (database w))))
              <-> In r (filter (selected status) (ent_rows (database w)))).
  { split; apply Permutation_in; [|symmetry]; apply order_by_name_perm. }
  rewrite P, filter_In. unfold selected.
  destruct status as [s|]; simpl.
  - destruct (PyStr.truthy s) eqn:Ts.
    + split.
      * intros (I & E). split; [exact I|]. intros _. apply String.eqb_eq in E. congruence.
      * intros (I & E). split; [exact I|]. specialize (E eq_refl).
        inversion E. apply String.eqb_refl.
    + split; intros (I & _); (split; [exact I|]); [discriminate|reflexivity].
  - split; intros (I & _); (split; [exact I|]); [discriminate|reflexivity].
Qed.

Lemma get_count_as_len status w :
  Repository_get_count (T := T) status w = len_of (Repository.get_all (T := T) status w).
Proof.
  unfold Repository_get_count. rewrite select_run, get_all_run.
  destruct (hd false (faults w)); simpl; [reflexivity|]. f_equal. f_equal.
  rewrite (Permutation_length (order_by_name_perm _)).
  unfold selected. destruct (PyStr.truthy_opt status); [reflexivity|].
  f_equal. symmetry. apply forallb_filter_id. apply forallb_forall. reflexivity.
Qed.

End Listing.

(** Extra X12.  When its SELECT goes through, [get_all(status)] of each
    entity model returns the rows of its table, each once, in
    non-decreasing order of name: all rows when [status] is [None] or
    empty, the rows with that status otherwise.  [get_pending(table_name)]
    returns the pending candidates, of the named table when a non-empty
    name is given, each once, in non-increasing order of score.  Neither
    changes the database. *)
Theorem X12_listings_are_sorted_selections :
  forall (w : world) (status table_name : option string),
    hd false (faults w) = false ->
    (exists l, Client.get_all status w = (Ok l, pop_fault w) /\ listing status w l)
    /\ (exists l, Product.get_all status w = (Ok l, pop_fault w) /\ listing status w l)
    /\ (exists l, Supplier.get_all status w = (Ok l, pop_fault w) /\ listing status w l)
    /\ (exists l, PotentialDuplicate.get_pending table_name w = (Ok l, pop_fault w)
                  /\ Sorted by_score_desc l
                  /\ Permutation l (filter (pending_of table_name)
                                           (potential_duplicates (database w)))
                  /\ Forall (fun row => pd_status row = "pending") l)
    /\ database (pop_fault w) = database w.
Proof.
  intros w status tn Hf.
  split; [exact (get_all_listing (T := client) status w Hf)|].
  split; [exact (get_all_listing (T := product) status w Hf)|].
  split; [exact (get_all_listing (T := supplier) status w Hf)|].
  split; [|apply database_pop_fault].
  rewrite get_pending_run, Hf. eexists. split; [reflexivity|].
  split; [apply order_by_score_sorted|]. split; [apply order_by_score_perm|].
  apply Forall_forall. intros row I.
  apply (Permutation_in _ (order_by_score_perm _)) in I.
  apply filter_In in I. destruct I as (_ & P). unfold pending_of in P.
  apply andb_prop in P. destruct P as (P & _). apply String.eqb_eq, P.
Qed.

Lemma X12_witness :
  (exists l, Client.get_all (Some "active") Sample.world_AB = (Ok l, pop_fault Sample.world_AB)
             /\ listing (Some "active") Sample.world_AB l)
  /\ (exists l, PotentialDuplicate.get_pending (Some "clients") Sample.world_review
                = (Ok l, pop_fault Sample.world_review)
                /\ Sorted by_score_desc l
                /\ Forall (fun row => pd_status row = "pending") l).
Proof.
  split.
  - exact (proj1 (X12_listings_are_sorted_selections
                    Sample.world_AB (Some "active") None eq_refl)).
  - destruct (proj1 (proj2 (proj2 (proj2 (X12_listings_are_sorted_selections
                Sample.world_review None (Some "clients") eq_refl)))))
      as (l & E & S & _ & F).
    exists l. split; [exact E|]. split; [exact S|exact F].
Defined.

(** Extra X13.  Under every schedule of storage failures, [get_count]
    behaves as the length of the listing with the same argument: the
    count of an entity model is [len(get_all(status))], a failure
    included, and the count of pending candidates is
    [len(get_pending())].  An empty status string counts all rows, as no
    status does. *)
Theorem X13_counts_agree_with_listings :
  forall (w : world) (status : option string),
    Client_get_count status w = len_of (Client.get_all status w)
    /\ Product_get_count status w = len_of (Product.get_all status w)
    /\ Supplier_get_count status w = len_of (Supplier.get_all status w)
    /\ PotentialDuplicate_get_count (Some "pending") w
       = len_of (PotentialDuplicate.get_pending None w)
    /\ Client_get_count (Some "") w = Client_get_count None w
    /\ PotentialDuplicate_get_count (Some "") w = PotentialDuplicate_get_count None w.
Proof.
  intros w status.
  split; [exact (get_count_as_len (T := client) status w)|].
  split; [exact (get_count_as_len (T := product) status w)|].
  split; [exact (get_count_as_len (T := supplier) status w)|].
  split; [|split; reflexivity].
  unfold PotentialDuplicate_get_count. rewrite select_run, get_pending_run.
  destruct (hd false (faults w)); simpl; [reflexivity|]. f_equal. f_equal.
  rewrite (Permutation_length (order_by_score_perm _)).
  f_equal. apply filter_ext. intros row. unfold pending_of. simpl.
  rewrite andb_true_r. reflexivity.
Qed.

(** *** What detection may change *)

Lemma detection_frame_refl d : detection_frame d d.
Proof.
  split; [apply entities_and_audit_kept_refl|]. split; [|tauto].
  exists []. symmetry. apply app_nil_r.
Qed.

Lemma detection_frame_trans a b c :
  detection_frame a b -> detection_frame b c -> detection_frame a c.
Proof.
  intros (E1 & (x & A1) & U1) (E2 & (y & A2) & U2).
  split; [eapply entities_and_audit_kept_trans; eauto|]. split; [|tauto].
  exists (x ++ y). rewrite A2, A1, app_assoc. reflexivity.
Qed.

Lemma pairs_unique_snoc rows row :
  pairs_unique rows ->
  existsb (same_pair (pd_table_name row) (pd_record_id_1 row) (pd_record_id_2 row)) rows
  = false ->
  pairs_unique (rows ++ [row]).
Proof.
  unfold pairs_unique. intros U N. induction U as [|r l Hr Hl IH]; simpl in *.
  - repeat constructor.
  - apply orb_false_iff in N. destruct N as (N1 & N2).
    constructor; [|apply IH, N2].
    apply Forall_app. split; [exact Hr|]. constructor; [exact N1|constructor].
Qed.

Lemma duplicate_exists_run table_name a b w :
  _duplicate_exists table_name a b w
  = (if hd false (faults w) then Raise DatabaseError
     else Ok (pair_stored (database w) table_name a b), pop_fault w).
Proof.
  unfold _duplicate_exists, with_connection, bind, query, ret. rewrite execute_eq.
  destruct (hd false (faults w)); simpl.
  - rewrite set_database_pop_fault. reflexivity.
  - rewrite database_pop_fault. unfold pair_stored.
    rewrite count_positive_existsb. reflexivity.
Qed.

Section DetectFrame.

Context {T : Type} `{Entity T}.

Variable similarity : T -> T -> Q.

Variable threshold : Q.

Lemma detect_pair_frame r1 r2 acc :
  keepsW detection_frame (detect_pair similarity threshold r1 r2 acc).
Proof.
  intros w. unfold detect_pair.
  destruct (Qle_bool threshold (similarity r1 r2)); [|apply detection_frame_refl].
  unfold bind. rewrite duplicate_exists_run.
  destruct (hd false (faults w)) eqn:F1;
    [simpl; rewrite database_pop_fault; apply detection_frame_refl|].
  destruct (pair_stored (database w) ent_table_name (ent_id r1) (ent_id r2)) eqn:P;
    simpl; [rewrite database_pop_fault; apply detection_frame_refl|].
  unfold with_obj. rewrite save_insert_run by reflexivity.
  destruct (hd false (faults (pop_fault w))) eqn:F2; simpl;
    rewrite !database_pop_fault; [apply detection_frame_refl|].
  split; [repeat split|]. split; [eexists; reflexivity|].
  simpl. intros U. apply pairs_unique_snoc; [exact U|exact P].
Qed.

Lemma detect_inner_frame r1 rest : forall acc,
  keepsW detection_frame (detect_inner similarity threshold r1 rest acc).
Proof.
  induction rest as [|r2 rest IH]; intros acc; simpl.
  - apply keepsW_ret, detection_frame_refl.
  - apply keepsW_bind; [apply detection_frame_trans|apply detect_pair_frame|].
    intros acc'. apply IH.
Qed.

Lemma detect_outer_frame records : forall acc,
  keepsW detection_frame (detect_outer similarity threshold records acc).
Proof.
  induction records as [|r1 rest IH]; intros acc; simpl.
  - apply keepsW_ret, detection_frame_refl.
  - apply keepsW_bind; [apply detection_frame_trans|apply detect_inner_frame|].
    intros acc'. apply IH.
Qed.

Lemma detect_duplicates_frame :
  keepsW detection_frame (detect_duplicates similarity threshold).
Proof.
  unfold detect_duplicates.
  apply keepsW_bind; [apply detection_frame_trans| |intros; apply detect_outer_frame].
  unfold Repository.get_all.
  apply keepsW_with_connection; [apply detection_frame_refl|].
  apply keepsW_bind; [apply detection_frame_trans|apply keepsW_execute, detection_frame_refl|].
  intros _. apply keepsW_query, detection_frame_refl.
Qed.

End DetectFrame.

Lemma run_all_frame threshold :
  keepsW detection_frame (run_all_duplicate_detection threshold).
Proof.
  unfold run_all_duplicate_detection.
  apply keepsW_bind; [apply detection_frame_trans|apply detect_duplicates_frame|intros c].
  apply keepsW_bind; [apply detection_frame_trans|apply detect_duplicates_frame|intros p].
  apply keepsW_bind; [apply detection_frame_trans|apply detect_duplicates_frame|intros s].
  apply keepsW_ret, detection_frame_refl.
Qed.

(** Extra X14.  Whatever the threshold and whatever storage failures
    occur, and whether it returns or raises, detection on a table and the
    run on all three leave the client, product and supplier tables and the
    audit trail exactly as they were, and every candidate stored before is
    still there, unchanged and at the same place: the candidate table only
    gets rows appended. *)
Theorem X14_detection_only_appends_candidates :
  forall (threshold : Q) (w : world),
    let kept w' :=
      entities_and_audit_kept (database w) (database w')
      /\ candidates_appended (database w) (database w') in
    kept (snd (detect_client_duplicates threshold w))
    /\ kept (snd (detect_product_duplicates threshold w))
    /\ kept (snd (detect_supplier_duplicates threshold w))
    /\ kept (snd (run_all_duplicate_detection threshold w)).
Proof.
  intros thr w kept. subst kept. cbv beta.
  pose proof (detect_duplicates_frame (T := client) _calculate_client_similarity thr w)
    as (E1 & A1 & _).
  pose proof (detect_duplicates_frame (T := product) _calculate_product_similarity thr w)
    as (E2 & A2 & _).
  pose proof (detect_duplicates_frame (T := supplier) _calculate_supplier_similarity thr w)
    as (E3 & A3 & _).
  pose proof (run_all_frame thr w) as (E4 & A4 & _).
  unfold detect_client_duplicates, detect_product_duplicates, detect_supplier_duplicates.
  do 3 (split; [split; assumption|]). split; assumption.
Qed.

Lemma Forall_same_image {A B} (f : A -> B) (P P' : A -> Prop) :
  (forall y y', f y = f y' -> P y -> P' y') ->
  forall l l', map f l = map f l' -> Forall P l -> Forall P' l'.
Proof.
  intros HP l. induction l as [|y l IH]; intros [|y' l'] E F; try discriminate.
  - constructor.
  - simpl in E. injection E as Ey El. inversion F; subst.
    constructor; [eapply HP; eauto|apply IH; assumption].
Qed.

Lemma ForallOrdPairs_same_image {A B} (f : A -> B) (P : A -> A -> Prop) :
  (forall x y x' y', f x = f x' -> f y = f y' -> P x y -> P x' y') ->
  forall l l', map f l = map f l' -> ForallOrdPairs P l -> ForallOrdPairs P l'.
Proof.
  intros HP l. induction l as [|x l IH]; intros [|x' l'] E F; try discriminate.
  - constructor.
  - simpl in E. injection E as Ex El. inversion F; subst.
    constructor; [|apply IH; assumption].
    eapply (Forall_same_image f); [|exact El|eassumption].
    intros y y' Ey. apply HP; assumption.
Qed.

Lemma resolution_keeps_unique d d' :
  same_frame d d' -> pairs_unique (potential_duplicates d) ->
  pairs_unique (potential_duplicates d').
Proof.
  unfold same_frame, pairs_unique. intros F.
  apply (ForallOrdPairs_same_image frame_columns); [|symmetry; exact F].
  intros x y x' y' Ex Ey. unfold frame_columns in Ex, Ey.
  injection Ex as ? ? ? ? ? ?. injection Ey as ? ? ? ? ? ?.
  unfold same_pair. congruence.
Qed.

Lemma merge_same_frame keep user w dup id :
  pd_id dup = Some id ->
  same_frame (database w) (database (fst (snd (merge_records keep user (w, dup))))).
Proof.
  intros Hid. rewrite merge_records_run.
  pose proof (keepsW_delete_other dup keep user w) as Hd.
  destruct (delete_other dup keep user w) as [[u|e] w1]; simpl in *; [|exact Hd].
  pose proof (keepsO_save_update id
                (w1, set_pd_reviewed_by (Some user) (set_pd_status "merged" dup)) Hid) as Hs.
  destruct (PotentialDuplicate.save
              (w1, set_pd_reviewed_by (Some user) (set_pd_status "merged" dup)))
    as [[j|e] [w2 d2]]; simpl in *; eapply same_frame_trans; eauto.
Qed.

Lemma dismiss_same_frame user w dup id :
  pd_id dup = Some id ->
  same_frame (database w) (database (fst (snd (mark_as_not_duplicate user (w, dup))))).
Proof.
  intros Hid. unfold mark_as_not_duplicate, try_except, bind, modify_obj.
  pose proof (keepsO_save_update id
                (w, set_pd_reviewed_by (Some user) (set_pd_status "not_duplicate" dup)) Hid)
    as Hs.
  destruct (PotentialDuplicate.save
              (w, set_pd_reviewed_by (Some user) (set_pd_status "not_duplicate" dup)))
    as [[j|e] [w2 d2]]; simpl in *; exact Hs.
Qed.

(** Extra X15.  The service keeps the stored pairs unique although the
    table has no constraint: when no two stored candidates are for the
    same pair of records of a table (in either order of the ids), this is
    still so after detection on any table or on all three, and after a
    merge or a dismissal of a candidate that has an id, under every
    schedule of storage failures and whether the call returns or
    raises. *)
Theorem X15_stored_pairs_stay_unique :
  forall (threshold : Q) (w : world),
    pairs_unique (potential_duplicates (database w)) ->
    let unique w' := pairs_unique (potential_duplicates (database w')) in
    unique (snd (detect_client_duplicates threshold w))
    /\ unique (snd (detect_product_duplicates threshold w))
    /\ unique (snd (detect_supplier_duplicates threshold w))
    /\ unique (snd (run_all_duplicate_detection threshold w))
    /\ forall duplicate id keep_record_id user,
         pd_id duplicate = Some id ->
         unique (fst (snd (merge_records keep_record_id user (w, duplicate))))
         /\ unique (fst (snd (mark_as_not_duplicate user (w, duplicate)))).
Proof.
  intros thr w U unique. subst unique. cbv beta.
  split; [apply (detect_duplicates_frame (T := client)), U|].
  split; [apply (detect_duplicates_frame (T := product)), U|].
  split; [apply (detect_duplicates_frame (T := supplier)), U|].
  split; [apply run_all_frame, U|].
  intros dup id keep user Hid. split.
  - eapply resolution_keeps_unique; [apply (merge_same_frame keep user w dup id Hid)|exact U].
  - eapply resolution_keeps_unique; [apply (dismiss_same_frame user w dup id Hid)|exact U].
Qed.

Lemma X15_witness :
  pairs_unique
    (potential_duplicates
       (database (snd (detect_client_duplicates (3 # 10) Sample.world_review))))
  /\ pairs_unique
       (potential_duplicates
          (database (fst (snd (merge_records 1 "alice"
                                 (Sample.world_review, Sample.candidate12)))))).
Proof.
  assert (U : pairs_unique (potential_duplicates (database Sample.world_review)))
    by (repeat constructor).
  split.
  - exact (proj1 (X15_stored_pairs_stay_unique (3 # 10) Sample.world_review U)).
  - exact (proj1 (proj2 (proj2 (proj2 (proj2
             (X15_stored_pairs_stay_unique (3 # 10) Sample.world_review U))))
             Sample.candidate12 1%Z 1%Z "alice" eq_refl)).
Defined.

(** *** What detection reports and stores *)

Lemma appended_refl w : faults w = [] -> appended w w [].
Proof.
  intros Hf. unfold appended. simpl. rewrite app_nil_r, Z.add_0_r.
  repeat split; auto.
Qed.

Lemma next_ids_shift last a b : forall n,
  map (fun k => Some (last + Z.of_nat k)%Z) (List.seq (a + n) b)
  = map (fun k => Some (last + Z.of_nat a + Z.of_nat k)%Z) (List.seq n b).
Proof.
  induction b as [|b IH]; intros n; simpl; [reflexivity|].
  f_equal; [f_equal; lia|]. replace (S (a + n)) with (a + S n) by lia. apply IH.
Qed.

Lemma next_ids_app last a b :
  next_ids last (a + b) = next_ids last a ++ next_ids (last + Z.of_nat a) b.
Proof.
  unfold next_ids. rewrite List.seq_app, map_app. f_equal.
  replace (1 + a) with (a + 1) by lia. apply next_ids_shift.
Qed.

Lemma pair_stored_app d l t a b :
  existsb (same_pair t a b) (potential_duplicates d ++ l) = false ->
  pair_stored d t a b = false.
Proof.
  unfold pair_stored. rewrite existsb_app. intros E.
  apply orb_false_iff in E. apply E.
Qed.

Lemma appended_trans w w1 w2 f1 f2 :
  appended w w1 f1 -> appended w1 w2 f2 -> appended w w2 (f1 ++ f2).
Proof.
  intros (F1 & N1 & E1 & P1 & S1 & I1 & U1) (F2 & N2 & E2 & P2 & S2 & I2 & U2).
  unfold appended.
  split; [exact F2|]. split; [congruence|].
  split; [eapply entities_and_audit_kept_trans; eauto|].
  split; [rewrite P2, P1, N1, map_app, app_assoc; reflexivity|].
  split; [rewrite S2, S1, length_app; lia|].
  split.
  - rewrite map_app, length_app, next_ids_app, I1, I2, S1. reflexivity.
  - apply Forall_app. split; [exact U1|].
    eapply Forall_impl; [|exact U2]. intros p Hp. unfold pair_stored in Hp.
    rewrite P1 in Hp. eapply pair_stored_app, Hp.
Qed.

Section DetectReport.

Context {T : Type} `{EntityLaws T}.

Variable similarity : T -> T -> Q.

Variable threshold : Q.

Lemma detect_pair_run r1 r2 acc w :
  faults w = [] ->
  detect_pair similarity threshold r1 r2 acc w
  = if Qle_bool threshold (similarity r1 r2)
       && negb (pair_stored (database w) ent_table_name (ent_id r1) (ent_id r2))
    then
      let new_id := (seq_potential_duplicates (database w) + 1)%Z in
      (Ok (acc ++ [candidate_for similarity r1 r2 new_id]),
       set_database
         (set_potential_duplicates
            (potential_duplicates (database w)
               ++ [as_stored (now w) (candidate_for similarity r1 r2 new_id)])
            new_id (database w)) w)
    else (Ok acc, w).
Proof.
  intros Hf. unfold detect_pair.
  destruct (Qle_bool threshold (similarity r1 r2)); [|reflexivity].
  unfold bind. rewrite (duplicate_exists_ok _ _ _ _ Hf).
  destruct (pair_stored (database w) ent_table_name (ent_id r1) (ent_id r2));
    [reflexivity|].
  simpl. unfold with_obj. rewrite save_insert_run by reflexivity.
  rewrite Hf. simpl. rewrite (pop_fault_ok w Hf). reflexivity.
Qed.

Lemma detect_pair_report r1 r2 acc w :
  faults w = [] ->
  exists found w',
    detect_pair similarity threshold r1 r2 acc w = (Ok (acc ++ found), w')
    /\ appended w w' found
    /\ Forall (candidate_of similarity threshold (fun a b => a = r1 /\ b = r2)) found.
Proof.
  intros Hf. rewrite (detect_pair_run r1 r2 acc w Hf).
  destruct (Qle_bool threshold (similarity r1 r2)) eqn:Q; simpl;
    [|exists [], w; rewrite app_nil_r; split; [reflexivity|];
      split; [apply appended_refl, Hf|constructor]].
  destruct (pair_stored (database w) ent_table_name (ent_id r1) (ent_id r2)) eqn:P; simpl;
    [exists [], w; rewrite app_nil_r; split; [reflexivity|];
     split; [apply appended_refl, Hf|constructor]|].
  eexists [_], _. split; [reflexivity|]. split.
  - unfold appended. simpl. split; [exact Hf|]. split; [reflexivity|].
    split; [repeat split|]. split; [reflexivity|]. split; [reflexivity|].
    split; [reflexivity|]. constructor; [exact P|constructor].
  - constructor; [|constructor]. exists r1, r2. eexists. repeat split. exact Q.
Qed.

Lemma candidate_of_weaken (ok ok' : T -> T -> Prop) found :
  (forall a b, ok a b -> ok' a b) ->
  Forall (candidate_of similarity threshold ok) found ->
  Forall (candidate_of similarity threshold ok') found.
Proof.
  intros Hok. apply Forall_impl. intros p (a & b & id & O & Q & E).
  exists a, b, id. split; [apply Hok, O|]. split; assumption.
Qed.

Lemma detect_inner_report r1 rest : forall acc w,
  faults w = [] ->
  exists found w',
    detect_inner similarity threshold r1 rest acc w = (Ok (acc ++ found), w')
    /\ appended w w' found
    /\ Forall (candidate_of similarity threshold (fun a b => a = r1 /\ In b rest)) found.
Proof.
  induction rest as [|r2 rest IH]; intros acc w Hf; simpl.
  - exists [], w. rewrite app_nil_r. split; [reflexivity|].
    split; [apply appended_refl, Hf|constructor].
  - unfold bind.
    destruct (detect_pair_report r1 r2 acc w Hf) as (f1 & w1 & E1 & A1 & C1).
    rewrite E1.
    destruct (IH (acc ++ f1) w1 (proj1 A1)) as (f2 & w2 & E2 & A2 & C2).
    exists (f1 ++ f2), w2. rewrite app_assoc. split; [exact E2|].
    split; [eapply appended_trans; eauto|].
    apply Forall_app. split.
    + eapply candidate_of_weaken; [|exact C1]. intros a b (-> & ->). auto.
    + eapply candidate_of_weaken; [|exact C2]. intros a b (-> & I). auto.
Qed.

Lemma detect_outer_report records : forall acc w,
  faults w = [] ->
  exists found w',
    detect_outer similarity threshold records acc w = (Ok (acc ++ found), w')
    /\ appended w w' found
    /\ Forall (candidate_of similarity threshold (before records)) found.
Proof.
  induction records as [|r1 rest IH]; intros acc w Hf; simpl.
  - exists [], w. rewrite app_nil_r. split; [reflexivity|].
    split; [apply appended_refl, Hf|constructor].
  - unfold bind.
    destruct (detect_inner_report r1 rest acc w Hf) as (f1 & w1 & E1 & A1 & C1).
    rewrite E1.
    destruct (IH (acc ++ f1) w1 (proj1 A1)) as (f2 & w2 & E2 & A2 & C2).
    exists (f1 ++ f2), w2. rewrite app_assoc. split; [exact E2|].
    split; [eapply appended_trans; eauto|].
    apply Forall_app. split.
    + eapply candidate_of_weaken; [|exact C1]. intros a b (-> & I). constructor. exact I.
    + eapply candidate_of_weaken; [|exact C2]. intros a b B. constructor. exact B.
Qed.

Lemma detect_duplicates_report w :
  faults w = [] ->
  exists found w',
    detect_duplicates similarity threshold w = (Ok found, w')
    /\ detection_report similarity threshold w found w'.
Proof.
  intros Hf. unfold detect_duplicates, bind, detection_report.
  rewrite (get_all_run (T := T)), Hf. simpl. rewrite (pop_fault_ok w Hf).
  set (records := Repository.order_by_name _).
  destruct (detect_outer_report records [] w Hf) as (found & w' & E & A & C).
  destruct (detect_outer_ok similarity threshold records [] w Hf) as (f' & w'' & E' & _ & S).
  rewrite E in E'. inversion E'; subst f' w''; clear E'.
  exists found, w'. split; [exact E|]. exists records.
  split; [reflexivity|]. split; [exact A|]. split; [exact C|exact S].
Qed.

End DetectReport.

(** Extra X16.  With no storage failure, detection on each table returns
    the list of the candidates it has created and stores exactly these, in
    this order, after the rows the candidate table had: each is the
    candidate of two rows of [get_all('active')], the first before the
    second in that listing, that score at least the threshold and had no
    stored candidate in either order; it is pending, has no reviewer, and
    carries the next free id.  Afterwards every pair of the listing that
    scores at least the threshold has a stored candidate.  The entity
    tables and the audit trail are unchanged. *)
Theorem X16_detection_report :
  forall (threshold : Q) (w : world),
    faults w = [] ->
    (exists found w',
        detect_client_duplicates threshold w = (Ok found, w')
        /\ detection_report _calculate_client_similarity threshold w found w')
    /\ (exists found w',
           detect_product_duplicates threshold w = (Ok found, w')
           /\ detection_report _calculate_product_similarity threshold w found w')
    /\ (exists found w',
           detect_supplier_duplicates threshold w = (Ok found, w')
           /\ detection_report _calculate_supplier_similarity threshold w found w').
Proof.
  intros thr w Hf. split; [|split].
  - exact (detect_duplicates_report (T := client) _calculate_client_similarity thr w Hf).
  - exact (detect_duplicates_report (T := product) _calculate_product_similarity thr w Hf).
  - exact (detect_duplicates_report (T := supplier) _calculate_supplier_similarity thr w Hf).
Qed.

Lemma X16_witness :
  exists found w',
    detect_client_duplicates (3 # 10) Sample.world_AB = (Ok found, w')
    /\ detection_report _calculate_client_similarity (3 # 10) Sample.world_AB found w'.
Proof.
  exact (proj1 (X16_detection_report (3 # 10) Sample.world_AB eq_refl)).
Defined.

(** *** The review queue *)

Lemma Permutation_filter_same {A} (f : A -> bool) (l l' : list A) :
  Permutation l l' -> Permutation (filter f l) (filter f l').
Proof.
  induction 1 as [|x l l' P IH|x y l|l l' l'' P1 IH1 P2 IH2]; simpl.
  - constructor.
  - destruct (f x); [constructor|]; exact IH.
  - destruct (f x), (f y); try reflexivity. apply perm_swap.
  - etransitivity; eassumption.
Qed.

Lemma filter_resolved_table f g status user ts id rows :
  (forall row, row_has_id id row = true -> f (resolve_row status user ts row) = false) ->
  (forall row, row_has_id id row = false -> f row = g row) ->
  (forall row, row_has_id id row = true -> g row = false) ->
  filter f (resolved_table status user ts id rows) = filter g rows.
Proof.
  intros Hy Hn Hg. unfold resolved_table.
  induction rows as [|row rows IH]; simpl; [reflexivity|].
  destruct (row_has_id id row) eqn:E.
  - rewrite (Hy row E), (Hg row E). exact IH.
  - rewrite (Hn row E). destruct (g row); [f_equal|]; exact IH.
Qed.

(** The queue [get_pending] reads from the table once the rows with [id]
    have been given a status other than pending. *)
Lemma pending_after_resolution table_name status user ts id rows :
  String.eqb status "pending" = false ->
  filter (pending_of table_name) (resolved_table status user ts id rows)
  = filter (fun row => negb (row_has_id id row))
           (filter (pending_of table_name) rows).
Proof.
  intros Hs.
  assert (F : forall (l : list potential_duplicate),
             filter (fun row => negb (row_has_id id row)) (filter (pending_of table_name) l)
             = filter (fun row => pending_of table_name row && negb (row_has_id id row)) l).
  { induction l as [|row l IH]; simpl; [reflexivity|].
    destruct (pending_of table_name row); simpl; [|exact IH].
    destruct (negb (row_has_id id row)); [f_equal|]; exact IH. }
  rewrite F. apply filter_resolved_table.
  - intros row _. unfold pending_of, resolve_row. simpl. rewrite Hs. reflexivity.
  - intros row ->. rewrite andb_true_r. reflexivity.
  - intros row ->. apply andb_false_r.
Qed.

Lemma dismiss_run_ok w dup id user :
  pd_id dup = Some id -> faults w = [] ->
  exists w',
    mark_as_not_duplicate user (w, dup)
    = (Ok true, (w', set_pd_reviewed_by (Some user) (set_pd_status "not_duplicate" dup)))
    /\ faults w' = []
    /\ potential_duplicates (database w')
       = resolved_table "not_duplicate" user (now w) id (potential_duplicates (database w)).
Proof.
  intros Hid Hf. unfold mark_as_not_duplicate, try_except, bind, modify_obj, ret.
  rewrite (save_update_run w
             (set_pd_reviewed_by (Some user) (set_pd_status "not_duplicate" dup)) id Hid).
  rewrite Hf. simpl. rewrite (pop_fault_ok w Hf).
  eexists. split; [reflexivity|]. split; [exact Hf|].
  simpl. apply (update_map_resolved
                  (set_pd_reviewed_by (Some user) (set_pd_status "not_duplicate" dup)));
    reflexivity.
Qed.

Lemma queue_after_resolution table_name status user ts id w w' :
  String.eqb status "pending" = false ->
  faults w = [] -> faults w' = [] ->
  potential_duplicates (database w')
  = resolved_table status user ts id (potential_duplicates (database w)) ->
  exists l l',
    PotentialDuplicate.get_pending table_name w = (Ok l, w)
    /\ PotentialDuplicate.get_pending table_name w' = (Ok l', w')
    /\ queue_without id l l'.
Proof.
  intros Hs Hf Hf' P. rewrite !get_pending_run, Hf, Hf', P. simpl.
  rewrite (pop_fault_ok w Hf), (pop_fault_ok w' Hf').
  do 2 eexists. split; [reflexivity|]. split; [reflexivity|].
  rewrite (pending_after_resolution table_name status user ts id _ Hs).
  assert (Q : Permutation
                (fold_right PotentialDuplicate.insert_by_score []
                   (filter (fun row => negb (row_has_id id row))
                      (filter (pending_of table_name) (potential_duplicates (database w)))))
                (filter (fun row => negb (row_has_id id row))
                   (fold_right PotentialDuplicate.insert_by_score []
                      (filter (pending_of table_name)
                              (potential_duplicates (database w)))))).
  { rewrite order_by_score_perm. apply Permutation_filter_same.
    symmetry. apply order_by_score_perm. }
  split; [exact Q|].
  apply Forall_forall. intros row I. apply (Permutation_in _ Q) in I.
  apply filter_In in I. destruct I as (_ & N). apply negb_true_iff, N.
Qed.

(** Extra X17.  A resolved candidate leaves the review queue and takes
    no other with it: with no storage failure, after a dismissal of a
    candidate that has an id, and after a merge that returns [True] (the
    record to delete is not in the table), [get_pending] with any table
    argument lists no row with this id and lists every other row it listed
    before, the same number of times.  After a merge that returns [False]
    (the record to delete is in the table) the world is as before, and
    the candidate is still listed. *)
Theorem X17_resolved_candidate_leaves_the_queue :
  forall (w : world) (duplicate : potential_duplicate) (id keep_record_id : Z)
         (user : string) (table_name : option string),
    pd_id duplicate = Some id ->
    faults w = [] ->
    (let w' := fst (snd (mark_as_not_duplicate user (w, duplicate))) in
     exists l l',
       PotentialDuplicate.get_pending table_name w = (Ok l, w)
       /\ PotentialDuplicate.get_pending table_name w' = (Ok l', w')
       /\ queue_without id l l')
    /\ (resolves (database w) (pd_table_name duplicate)
                 (delete_id duplicate keep_record_id) = false ->
        let w' := fst (snd (merge_records keep_record_id user (w, duplicate))) in
        exists l l',
          PotentialDuplicate.get_pending table_name w = (Ok l, w)
          /\ PotentialDuplicate.get_pending table_name w' = (Ok l', w')
          /\ queue_without id l l')
    /\ (resolves (database w) (pd_table_name duplicate)
                 (delete_id duplicate keep_record_id) = true ->
        merge_records keep_record_id user (w, duplicate) = (Ok false, (w, duplicate))
        /\ exists l, PotentialDuplicate.get_pending table_name w = (Ok l, w)).
Proof.
  intros w dup id keep user tn Hid Hf. split; [|split].
  - destruct (dismiss_run_ok w dup id user Hid Hf) as (w' & E & F & P).
    rewrite E. simpl.
    exact (queue_after_resolution tn "not_duplicate" user (now w) id w w' eq_refl Hf F P).
  - intros R.
    destruct (proj2 (merge_run w dup id keep user Hid Hf) R) as (w' & E & P & _ & F & _).
    rewrite E. simpl.
    exact (queue_after_resolution tn "merged" user (now w) id w w' eq_refl Hf F P).
  - intros R. split; [exact (proj1 (merge_run w dup id keep user Hid Hf) R)|].
    rewrite get_pending_run, Hf. simpl. rewrite (pop_fault_ok w Hf). eauto.
Qed.

Lemma X17_witness :
  (let w' := fst (snd (merge_records 1 "alice" (Sample.world_orphan, Sample.candidate12))) in
   exists l l',
     PotentialDuplicate.get_pending (Some "clients") Sample.world_orphan
     = (Ok l, Sample.world_orphan)
     /\ PotentialDuplicate.get_pending (Some "clients") w' = (Ok l', w')
     /\ queue_without 1 l l')
  /\ merge_records 1 "alice" (Sample.world_review, Sample.candidate12)
     = (Ok false, (Sample.world_review, Sample.candidate12)).
Proof.
  split.
  - exact (proj1 (proj2 (X17_resolved_candidate_leaves_the_queue
                           Sample.world_orphan Sample.candidate12 1 1 "alice"
                           (Some "clients") eq_refl eq_refl)) eq_refl).
  - exact (proj1 (proj2 (proj2 (X17_resolved_candidate_leaves_the_queue
                                  Sample.world_review Sample.candidate12 1 1 "alice"
                                  (Some "clients") eq_refl eq_refl)) eq_refl)).
Defined.

Section DetectQueue.

Context {T : Type} `{EntityLaws T}.

Variable similarity : T -> T -> Q.

Variable threshold : Q.

(** Every candidate a detection reports is in the queue of its table
    afterwards, as the row stored for it. *)
Lemma detected_in_queue w found w' :
  PyStr.truthy ent_table_name = true ->
  detection_report similarity threshold w found w' ->
  exists l,
    PotentialDuplicate.get_pending (Some ent_table_name) w' = (Ok l, w')
    /\ Forall (fun p => In (as_stored (now w) p) l) found.
Proof.
  intros Ht (records & _ & A & C & _).
  destruct A as (F & _ & _ & P & _).
  rewrite get_pending_run, F. simpl. rewrite (pop_fault_ok w' F).
  eexists. split; [reflexivity|].
  apply Forall_forall. intros p I.
  apply (Permutation_in _ (Permutation_sym (order_by_score_perm _))).
  apply filter_In. split.
  - rewrite P. apply in_or_app. right. apply in_map, I.
  - rewrite Forall_forall in C. destruct (C p I) as (r1 & r2 & i & _ & _ & ->).
    unfold pending_of, as_stored, candidate_for. simpl. rewrite Ht.
    apply String.eqb_refl.
Qed.

Lemma detect_then_queue w :
  PyStr.truthy ent_table_name = true ->
  faults w = [] ->
  exists found w' l,
    detect_duplicates similarity threshold w = (Ok found, w')
    /\ PotentialDuplicate.get_pending (Some ent_table_name) w' = (Ok l, w')
    /\ Forall (fun p => In (as_stored (now w) p) l) found.
Proof.
  intros Ht Hf.
  destruct (detect_duplicates_report similarity threshold w Hf) as (found & w' & E & R).
  destruct (detected_in_queue w found w' Ht R) as (l & G & I).
  exists found, w', l. repeat split; assumption.
Qed.

End DetectQueue.

(** Extra X18.  What detection reports is what the review page will list:
    with no storage failure, every candidate a detection on a table
    returns is, as the row stored for it, in the result of [get_pending]
    for that table read after the detection. *)
Theorem X18_detected_candidates_are_queued :
  forall (threshold : Q) (w : world),
    faults w = [] ->
    (exists found w' l,
        detect_client_duplicates threshold w = (Ok found, w')
        /\ PotentialDuplicate.get_pending (Some "clients") w' = (Ok l, w')
        /\ Forall (fun p => In (as_stored (now w) p) l) found)
    /\ (exists found w' l,
           detect_product_duplicates threshold w = (Ok found, w')
           /\ PotentialDuplicate.get_pending (Some "products") w' = (Ok l, w')
           /\ Forall (fun p => In (as_stored (now w) p) l) found)
    /\ (exists found w' l,
           detect_supplier_duplicates threshold w = (Ok found, w')
           /\ PotentialDuplicate.get_pending (Some "suppliers") w' = (Ok l, w')
           /\ Forall (fun p => In (as_stored (now w) p) l) found).
Proof.
  intros thr w Hf. split; [|split].
  - exact (detect_then_queue (T := client) _calculate_client_similarity thr w eq_refl Hf).
  - exact (detect_then_queue (T := product) _calculate_product_similarity thr w eq_refl Hf).
  - exact (detect_then_queue (T := supplier) _calculate_supplier_similarity thr w eq_refl Hf).
Qed.

Lemma X18_witness :
  exists found w' l,
    detect_client_duplicates (3 # 10) Sample.world_AB = (Ok found, w')
    /\ PotentialDuplicate.get_pending (Some "clients") w' = (Ok l, w')
    /\ Forall (fun p => In (as_stored (now Sample.world_AB) p) l) found.
Proof.
  exact (proj1 (X18_detected_candidates_are_queued (3 # 10) Sample.world_AB eq_refl)).
Defined.

(** Extra X19.  With no storage failure the run on all three tables
    returns: its result has the keys clients, products and suppliers in
    this order, the three counts add up to the number of rows the
    candidate table has gained, and no failure is left pending. *)
Theorem X19_run_all_counts_what_it_stores :
  forall (threshold : Q) (w : world),
    faults w = [] ->
    exists n1 n2 n3 w',
      run_all_duplicate_detection threshold w
      = (Ok [("clients", n1); ("products", n2); ("suppliers", n3)], w')
      /\ List.length (potential_duplicates (database w'))
         = List.length (potential_duplicates (database w)) + (n1 + n2 + n3)
      /\ seq_potential_duplicates (database w')
         = (seq_potential_duplicates (database w) + Z.of_nat (n1 + n2 + n3))%Z
      /\ faults w' = [] /\ now w' = now w.
Proof.
  intros thr w Hf. unfold run_all_duplicate_detection, bind, ret.
  destruct (detect_duplicates_report (T := client) _calculate_client_similarity thr w Hf)
    as (f1 & w1 & E1 & (r1 & _ & A1 & _)).
  unfold detect_client_duplicates. rewrite E1.
  destruct (detect_duplicates_report (T := product) _calculate_product_similarity thr w1
              (proj1 A1)) as (f2 & w2 & E2 & (r2 & _ & A2 & _)).
  unfold detect_product_duplicates. rewrite E2.
  destruct (detect_duplicates_report (T := supplier) _calculate_supplier_similarity thr w2
              (proj1 A2)) as (f3 & w3 & E3 & (r3 & _ & A3 & _)).
  unfold detect_supplier_duplicates. rewrite E3.
  pose proof (appended_trans _ _ _ _ _ (appended_trans _ _ _ _ _ A1 A2) A3)
    as (F & N & _ & P & S & _).
  exists (List.length f1), (List.length f2), (List.length f3), w3.
  split; [reflexivity|].
  split; [rewrite P, length_app, length_map, !length_app; lia|].
  split; [rewrite S, !length_app; f_equal; lia|]. split; assumption.
Qed.

Lemma X19_witness :
  exists n1 n2 n3 w',
    run_all_duplicate_detection (3 # 10) Sample.world_AB
    = (Ok [("clients", n1); ("products", n2); ("suppliers", n3)], w')
    /\ List.length (potential_duplicates (database w'))
       = List.length (potential_duplicates (database Sample.world_AB)) + (n1 + n2 + n3)
    /\ seq_potential_duplicates (database w')
       = (seq_potential_duplicates (database Sample.world_AB) + Z.of_nat (n1 + n2 + n3))%Z
    /\ faults w' = [] /\ now w' = now Sample.world_AB.
Proof.
  exact (X19_run_all_counts_what_it_stores (3 # 10) Sample.world_AB eq_refl).
Defined.
